(** * The FFmpeg worker (ffmpeg-worker/server.ts): a shallow embedding

    The worker exposes two POST handlers, [/clip] and [/extract-audio].
    Each one validates the JSON body, names two scratch files after the
    clock, downloads the source, runs the transcoder, uploads the result
    and answers with a public URL; a [catch] block removes the scratch
    files and answers 500.

    The handlers are embedded as computations in a state-and-exception
    monad.  The state holds the files on disk (path to content), the
    storage bucket, the number of clock readings made so far and the
    chronological trace of the observable actions.  Everything the
    handler cannot decide itself (the fetch, the stream, the subprocess
    and whatever else its shell line does, the storage service, the
    clock) is an outcome chosen by a [World].  A run ends in one of four
    ways: it returns; it throws, which is what [catch] sees; it stays
    [Pending] on a promise that never settles; or it is [Fatal], an
    exception raised outside the handler that ends the process.

    Template literals are kept wherever they hold a value of the request:
    putting a value into a template converts it to a string, and the
    conversion throws a [TypeError] for some values, whether the text is
    then used or only logged.

    What the model leaves out: the text printed on the console; failures
    of [unlinkSync] on a file that [existsSync] has just reported; and
    whatever other requests do to the disk between two steps of a run (a
    run is followed in isolation, other requests show only in the state
    it starts from). *)

From stdpp Require Import base option list strings pretty gmap fin_maps.
From Stdlib Require Import ZArith Lia Ascii.

Open Scope string_scope.
Open Scope list_scope.
Open Scope Z_scope.

(** ** JavaScript values carried by a parsed JSON body *)

(** A field of [req.body].  A field that is absent reads as
    [JUndefined].  A number is carried as the text [String(n)] gives for
    it (["0"], ["12"], ["1.5"], ["1e+21"]): the handlers only ever test a
    number for falsiness and put it into a template, and JSON has
    neither [NaN] nor infinities, so a number is falsy exactly when that
    text is ["0"]. *)
#[warnings="-register-all"]
Inductive JsValue : Type :=
| JUndefined
| JNull
| JBool (b : bool)
| JNum (text : string)
| JStr (s : string)
| JArr (items : list JsValue)
| JObj (fields : list (string * JsValue)).

(** [!v] is [negb (truthy v)]: the falsy values are [undefined], [null],
    [false], [0] and the empty string; arrays and objects are truthy. *)
Definition truthy (v : JsValue) : bool :=
  match v with
  | JUndefined | JNull => false
  | JBool b => b
  | JNum text => negb (String.eqb text "0")
  | JStr s => negb (String.eqb s "")
  | JArr _ | JObj _ => true
  end.

(** [v === undefined]. *)
Definition is_undefined (v : JsValue) : bool :=
  match v with JUndefined => true | _ => false end.

(** [Array.prototype.join(",")] over already rendered items. *)
Fixpoint join_comma (l : list string) : string :=
  match l with
  | [] => ""
  | [s] => s
  | s :: rest => s +:+ "," +:+ join_comma rest
  end.

(** The string a template literal [`${v}`] puts in place of [v], or
    [None] when the conversion throws.  An object parsed from JSON
    inherits [Object.prototype.toString] and renders as
    ["[object Object]"], unless it has a key ["toString"] of its own:
    that value is never a function, [valueOf] does not give a primitive
    either, and the conversion throws a [TypeError].  An array joins the
    renderings of its items, [null] and [undefined] as the empty
    string, and throws when one of its items does. *)
Fixpoint to_string (v : JsValue) : option string :=
  match v with
  | JUndefined => Some "undefined"
  | JNull => Some "null"
  | JBool true => Some "true"
  | JBool false => Some "false"
  | JNum text => Some text
  | JStr s => Some s
  | JArr items =>
      join_comma <$>
        (fix each (l : list JsValue) : option (list string) :=
           match l with
           | [] => Some []
           | JUndefined :: l' | JNull :: l' => cons "" <$> each l'
           | x :: l' =>
               match to_string x with
               | Some s => cons s <$> each l'
               | None => None
               end
           end) items
  | JObj fields =>
      if bool_decide ("toString" ∈ fields.*1) then None else Some "[object Object]"
  end.

(** ** Paths *)

(** [path.join(a, b)] for an absolute, normalised directory [a] and a
    plain file name [b]; the root directory already ends with the
    separator. *)
Definition path_join (a b : string) : string :=
  if String.eqb a "/" then "/" +:+ b else a +:+ "/" +:+ b.

(** ** Errors, responses and the trace *)

(** What the [catch] block reads from the thrown value:
    [error.message] and [error.stderr] ([None] is [undefined]). *)
Record JsError : Type := mkError {
  message : string;
  stderr : option string
}.

(** [new Error(msg)]. *)
Definition Error (msg : string) : JsError := mkError msg None.

(** The [TypeError] of a conversion to string that fails. *)
Definition cannot_convert : JsError := Error "Cannot convert object to primitive value".

(** The JSON body handed to [res.json]. *)
Inductive Body : Type :=
| ErrorBody (error : string) (stderr : option string)
| ClippedBody (clippedUrl : string)
| AudioBody (audioUrl : string).

(** Options of [storage.from(bucket).upload(key, stream, options)]. *)
Record UploadOptions : Type := mkOptions {
  contentType : string;
  upsert : bool;
  duplex : string
}.

(** The observable actions.  [EvCreate] and [EvUnlink] are the files the
    handler itself writes and removes (the download, the output the
    command names, the cleanup); [EvShell] is whatever else the shell
    line of the subprocess does to a path: it leaves it with a content
    or removes it. *)
Inductive Event : Type :=
| EvFetch (url : JsValue)
| EvCreate (path : string)
| EvExec (command : string)
| EvShell (path : string) (after : option string)
| EvStat (path : string)
| EvUpload (bucket : string) (key : JsValue) (source : string) (opts : UploadOptions)
| EvGetPublicUrl (bucket : string) (key : JsValue)
| EvUnlink (path : string)
| EvRespond (status : Z) (body : Body).

(** An object of the storage bucket. *)
Record StoredObject : Type := mkObject {
  obj_content : string;
  obj_type : string
}.

Record State : Type := mkState {
  fs : gmap string string;
  storage : gmap (string * string) StoredObject;
  reads : nat;
  trace : list Event
}.

(** ** The world around one handler invocation *)

(** [await fetch(inputUrl)]: the promise stays pending, rejects, or
    resolves to a response with its [ok] flag and its [body]
    ([None] is a response without body). *)
Inductive FetchOutcome : Type :=
| FetchPending
| FetchReject (e : JsError)
| FetchResponse (ok : bool) (body : option string).

(** The promise around [Readable.fromWeb(body).pipe(fileStream)]: it is
    settled by the write stream's ["finish"] and ["error"] events only,
    so it stays pending when neither fires.  An error of the readable
    side has no listener at all: [StreamCrash] is that error, raised as
    an uncaught exception.  [written] is what is on disk under the
    stream's path by then ([None]: never created). *)
Inductive StreamOutcome : Type :=
| StreamPending (written : option string)
| StreamFinish
| StreamError (e : JsError) (written : option string)
| StreamCrash (e : JsError) (written : option string).

(** [await execAsync(command)]: a rejection carries the message and the
    captured standard error of the subprocess.  [written] is what the
    subprocess left under the output path named by the command. *)
Inductive ExecOutcome : Type :=
| ExecPending (written : option string)
| ExecOk (written : option string)
| ExecFail (msg : string) (captured : string) (written : option string).

(** [await supabase.storage.from(..).upload(..)]: pending, rejected,
    resolved to [{ error }], or resolved without error. *)
Inductive UploadOutcome : Type :=
| UploadPending
| UploadReject (e : JsError)
| UploadError (e : JsError)
| UploadOk.

(** [shell_effects command] is what the shell does to the disk when it
    runs [command], besides the output the command names: a list of
    paths, each left with a content or removed.  [exec] hands the command
    line to a shell, so this depends on the text of the command. *)
Record World : Type := mkWorld {
  now : nat → Z;
  fetch_outcome : FetchOutcome;
  stream_outcome : StreamOutcome;
  exec_outcome : ExecOutcome;
  shell_effects : string → list (string * option string);
  upload_outcome : UploadOutcome;
  public_url : string → JsValue → string
}.

(** ** The handler monad *)

Inductive result (A : Type) : Type :=
| Ok (a : A)
| Throw (e : JsError)
| Pending
| Fatal (e : JsError).
Arguments Ok {A} a.
Arguments Throw {A} e.
Arguments Pending {A}.
Arguments Fatal {A} e.

Definition M (A : Type) : Type := State → result A * State.

#[global] Instance M_ret : MRet M := λ A a s, (Ok a, s).

#[global] Instance M_bind : MBind M := λ A B f m s,
  match m s with
  | (Ok a, s') => f a s'
  | (Throw e, s') => (Throw e, s')
  | (Pending, s') => (Pending, s')
  | (Fatal e, s') => (Fatal e, s')
  end.

Definition throw {A : Type} (e : JsError) : M A := λ s, (Throw e, s).

Definition pending {A : Type} : M A := λ s, (Pending, s).

(** An exception raised from an event nobody listens to: no [catch]
    block of the handler sees it. *)
Definition fatal {A : Type} (e : JsError) : M A := λ s, (Fatal e, s).

(** [if (b) m], a statement without [else]. *)
Definition when (b : bool) (m : M unit) : M unit := if b then m else mret tt.

(** [try { m } catch (error) { h error }]. *)
Definition try_catch {A : Type} (m : M A) (h : JsError → M A) : M A := λ s,
  match m s with
  | (Throw e, s') => h e s'
  | r => r
  end.

(** The value of a template literal whose text is [text]; a value of
    the template without string form throws. *)
Definition template (text : option string) : M string :=
  match text with
  | Some text => mret text
  | None => throw cannot_convert
  end.

(** [console.log(`...`)]: the template is evaluated, its text is
    printed and forgotten. *)
Definition console_log (line : option string) : M unit :=
  _ ← template line; mret tt.

Definition emit (e : Event) : M unit := λ s,
  (Ok tt, mkState (fs s) (storage s) (reads s) (trace s ++ [e])).

(** A file appears (or is truncated and rewritten) under [path]. *)
Definition write_file (path content : string) : M unit := λ s,
  (Ok tt, mkState (<[path := content]> (fs s)) (storage s) (reads s)
                  (trace s ++ [EvCreate path])).

Definition leave_file (path : string) (written : option string) : M unit :=
  match written with
  | Some content => write_file path content
  | None => mret tt
  end.

(** The disk once [after] is what is under [path]. *)
Definition set_path (path : string) (after : option string)
    (files : gmap string string) : gmap string string :=
  match after with
  | Some content => <[path := content]> files
  | None => delete path files
  end.

(** The shell leaves [after] under [path]. *)
Definition shell_step (path : string) (after : option string) : M unit := λ s,
  (Ok tt, mkState (set_path path after (fs s)) (storage s) (reads s)
                  (trace s ++ [EvShell path after])).

(** What the shell line does besides running the transcoder. *)
Fixpoint shell (effects : list (string * option string)) : M unit :=
  match effects with
  | [] => mret tt
  | (path, after) :: effects => shell_step path after;; shell effects
  end.

(** [Date.now()]: the next reading of the clock. *)
Definition date_now (w : World) : M Z := λ s,
  (Ok (now w (reads s)), mkState (fs s) (storage s) (S (reads s)) (trace s)).

(** [await fetch(url)]. *)
Definition fetch (w : World) (url : JsValue) : M (bool * option string) :=
  emit (EvFetch url);;
  match fetch_outcome w with
  | FetchPending => pending
  | FetchReject e => throw e
  | FetchResponse ok body => mret (ok, body)
  end.

(** [fs.createWriteStream(path)], the pipe of the body into it and the
    promise awaited on the write stream's events. *)
Definition pipe_to_file (w : World) (body path : string) : M unit :=
  match stream_outcome w with
  | StreamPending written => leave_file path written;; pending
  | StreamFinish => write_file path body
  | StreamError e written => leave_file path written;; throw e
  | StreamCrash e written => leave_file path written;; fatal e
  end.

(** [await execAsync(command)], where [out] is the output path the
    command names. *)
Definition execAsync (w : World) (command out : string) : M unit :=
  emit (EvExec command);;
  shell (shell_effects w command);;
  match exec_outcome w with
  | ExecPending written => leave_file out written;; pending
  | ExecOk written => leave_file out written
  | ExecFail msg captured written =>
      leave_file out written;; throw (mkError msg (Some captured))
  end.

(** The message of the error a file operation throws on a missing file. *)
Definition enoent (op path : string) : string :=
  "ENOENT: no such file or directory, " +:+ op +:+ " '" +:+ path +:+ "'".

(** What is on disk under [path], if anything. *)
Definition peek (path : string) : M (option string) := λ s, (Ok (fs s !! path), s).

(** [fs.statSync(path).size]; a missing file throws. *)
Definition statSync (path : string) : M nat :=
  emit (EvStat path);;
  file ← peek path;
  match file with
  | Some content => mret (String.length content)
  | None => throw (Error (enoent "stat" path))
  end.

Definition existsSync (path : string) : M bool :=
  file ← peek path; mret (bool_decide (is_Some file)).

Definition remove_file (path : string) : M unit := λ s,
  (Ok tt, mkState (delete path (fs s)) (storage s) (reads s)
                  (trace s ++ [EvUnlink path])).

(** [fs.unlinkSync(path)]; a missing file throws. *)
Definition unlinkSync (path : string) : M unit :=
  file ← peek path;
  match file with
  | Some _ => remove_file path
  | None => throw (Error (enoent "unlink" path))
  end.

(** [res.status(status).json(body)]. *)
Definition res_json (status : Z) (body : Body) : M unit :=
  emit (EvRespond status body).

(** ** The storage collaborator *)

(** Modelled from the spec: the storage service is reached through the
    client SDK, which is not part of the repository.  Its contract is
    [upload(bucket, key, byteStream, contentType, overwrite)]: the object
    is stored under the key, an existing object is replaced only when
    overwrite is enabled, and a refused upload resolves to an error.  The
    key names the object by its string form; a key without string form
    makes the call throw. *)
Definition put_object (bucket : string) (key : JsValue) (content : string)
    (opts : UploadOptions) : M (option JsError) := λ s,
  match to_string key with
  | None => (Throw cannot_convert, s)
  | Some name =>
      if upsert opts || bool_decide (storage s !! (bucket, name) = None)
      then (Ok None,
            mkState (fs s)
                    (<[(bucket, name) := mkObject content (contentType opts)]> (storage s))
                    (reads s) (trace s))
      else (Ok (Some (Error "The resource already exists")), s)
  end.

(** [await supabase.storage.from(bucket).upload(key, createReadStream(source), opts)];
    the result is the [error] field of the resolved value. *)
Definition upload (w : World) (bucket : string) (key : JsValue) (source : string)
    (opts : UploadOptions) : M (option JsError) :=
  emit (EvUpload bucket key source opts);;
  match upload_outcome w with
  | UploadPending => pending
  | UploadReject e => throw e
  | UploadError e => mret (Some e)
  | UploadOk =>
      file ← peek source;
      match file with
      | Some content => put_object bucket key content opts
      | None => throw (Error (enoent "open" source))
      end
  end.

(** [supabase.storage.from(bucket).getPublicUrl(key).data.publicUrl]. *)
Definition getPublicUrl (w : World) (bucket : string) (key : JsValue) : M string :=
  emit (EvGetPublicUrl bucket key);;
  mret (public_url w bucket key).

(** ** The handlers *)

(** The double quote character of the command line. *)
Definition dquote : string := String (Ascii.ascii_of_nat 34) EmptyString.

Definition filterComplex : string :=
  "scale=1080:1920:force_original_aspect_ratio=decrease,pad=1080:1920:(ow-iw)/2:(oh-ih)/2".

(** The first line of the [try] block of [/clip]:
    [`[worker] Processing clip: ${fileName} (${startTime}s - ${endTime}s)`]. *)
Definition processing_line (fileName startTime endTime : JsValue) : option string :=
  name ← to_string fileName;
  a ← to_string startTime;
  b ← to_string endTime;
  Some ("[worker] Processing clip: " +:+ name +:+ " (" +:+ a +:+ "s - " +:+ b +:+ "s)").

(** The first line of the [try] block of [/extract-audio]:
    [`[worker] Extracting audio from: ${inputUrl}`]. *)
Definition extracting_line (inputUrl : JsValue) : option string :=
  url ← to_string inputUrl; Some ("[worker] Extracting audio from: " +:+ url).

(** The command line of [/clip] for the texts [a] and [b] of
    [startTime] and [endTime]. *)
Definition clip_command_text (a b tempInput tempOutput : string) : string :=
  "ffmpeg -ss " +:+ a +:+ " -to " +:+ b
    +:+ " -i " +:+ dquote +:+ tempInput +:+ dquote
    +:+ " -vf " +:+ dquote +:+ filterComplex +:+ dquote
    +:+ " -c:v libx264 -c:a aac -preset ultrafast -crf 30 -threads 1 -y "
    +:+ dquote +:+ tempOutput +:+ dquote.

(** The template of the command of [/clip]. *)
Definition clip_command (startTime endTime : JsValue) (tempInput tempOutput : string) :
    option string :=
  a ← to_string startTime;
  b ← to_string endTime;
  Some (clip_command_text a b tempInput tempOutput).

(** The command of [/extract-audio]. *)
Definition audio_command (tempInput tempOutput : string) : string :=
  "ffmpeg -i " +:+ dquote +:+ tempInput +:+ dquote
    +:+ " -ac 1 -ar 16000 -vn -threads 1 -y " +:+ dquote +:+ tempOutput +:+ dquote.

(** The template [`${fileName}_audio.wav`]. *)
Definition named_audio (fileName : JsValue) : option string :=
  name ← to_string fileName; Some (name +:+ "_audio.wav").

(** A field of the destructured [req.body]. *)
Definition field (body : gmap string JsValue) (name : string) : JsValue :=
  default JUndefined (body !! name).

(** The two cleanup lines:
    [if (fs.existsSync(p)) fs.unlinkSync(p)], for both scratch files. *)
Definition cleanup (tempInput tempOutput : string) : M unit :=
  there ← existsSync tempInput;
  when there (unlinkSync tempInput);;
  there ← existsSync tempOutput;
  when there (unlinkSync tempOutput).

(** The [catch] block of both handlers. *)
Definition on_error (tempInput tempOutput : string) (error : JsError) : M unit :=
  cleanup tempInput tempOutput;;
  res_json 500 (ErrorBody (message error) (stderr error)).

(** The [try] block of [/clip]. *)
Definition clip_try (w : World) (inputUrl startTime endTime fileName : JsValue)
    (tempInput tempOutput : string) : M unit :=
  console_log (processing_line fileName startTime endTime);;
  response ← fetch w inputUrl;
  if negb response.1 then throw (Error "Failed to fetch video") else
  match response.2 with
  | None => throw (Error "No response body")
  | Some bytes =>
      pipe_to_file w bytes tempInput;;
      command ← template (clip_command startTime endTime tempInput tempOutput);
      execAsync w command tempOutput;;
      _ ← statSync tempOutput;
      error ← upload w "processed-videos" fileName tempOutput
                (mkOptions "video/mp4" true "half");
      match error with
      | Some error => throw error
      | None =>
          clippedUrl ← getPublicUrl w "processed-videos" fileName;
          cleanup tempInput tempOutput;;
          res_json 200 (ClippedBody clippedUrl)
      end
  end.

(** The [try] block of [/extract-audio]. *)
Definition audio_try (w : World) (inputUrl : JsValue) (storageFileName : string)
    (tempInput tempOutput : string) : M unit :=
  console_log (extracting_line inputUrl);;
  response ← fetch w inputUrl;
  if negb response.1 then throw (Error "Failed to fetch video") else
  match response.2 with
  | None => throw (Error "No response body")
  | Some bytes =>
      pipe_to_file w bytes tempInput;;
      let command := audio_command tempInput tempOutput in
      execAsync w command tempOutput;;
      _ ← statSync tempOutput;
      error ← upload w "processed-videos" (JStr storageFileName) tempOutput
                (mkOptions "audio/wav" true "half");
      match error with
      | Some error => throw error
      | None =>
          audioUrl ← getPublicUrl w "processed-videos" (JStr storageFileName);
          cleanup tempInput tempOutput;;
          res_json 200 (AudioBody audioUrl)
      end
  end.

(** The file names built from a clock reading.  [Date.now()] is a whole
    number of milliseconds, which a template renders with all its
    digits. *)
Definition clip_input_name (t : Z) : string := "input_" +:+ pretty t +:+ ".mp4".
Definition clip_output_name (t : Z) : string := "output_" +:+ pretty t +:+ ".mp4".
Definition audio_input_name (t : Z) : string := "audio_input_" +:+ pretty t +:+ ".mp4".
Definition audio_output_name (t : Z) : string := "audio_output_" +:+ pretty t +:+ ".wav".
Definition audio_storage_name (t : Z) : string := "audio_" +:+ pretty t +:+ ".wav".

Section Worker.
(** [__dirname] of the running module. *)
Variable dirname : string.

Definition tempDir : string := path_join dirname "temp".

(** [app.post('/clip', ...)]. *)
Definition clip (w : World) (body : gmap string JsValue) : M unit :=
  let inputUrl := field body "inputUrl" in
  let startTime := field body "startTime" in
  let endTime := field body "endTime" in
  let fileName := field body "fileName" in
  if negb (truthy inputUrl) || is_undefined startTime
     || is_undefined endTime || negb (truthy fileName)
  then res_json 400
         (ErrorBody "Missing required parameters: inputUrl, startTime, endTime, fileName" None)
  else
    t ← date_now w;
    let tempInput := path_join tempDir (clip_input_name t) in
    t ← date_now w;
    let tempOutput := path_join tempDir (clip_output_name t) in
    try_catch
      (clip_try w inputUrl startTime endTime fileName tempInput tempOutput)
      (on_error tempInput tempOutput).

(** [app.post('/extract-audio', ...)].  The storage name is built before
    the [try] block is entered. *)
Definition extract_audio (w : World) (body : gmap string JsValue) : M unit :=
  let inputUrl := field body "inputUrl" in
  let fileName := field body "fileName" in
  if negb (truthy inputUrl)
  then res_json 400 (ErrorBody "Missing required parameter: inputUrl" None)
  else
    t ← date_now w;
    let tempInput := path_join tempDir (audio_input_name t) in
    t ← date_now w;
    let tempOutput := path_join tempDir (audio_output_name t) in
    storageFileName ←
      (if truthy fileName
       then template (named_audio fileName)
       else t ← date_now w; mret (audio_storage_name t));
    try_catch
      (audio_try w inputUrl storageFileName tempInput tempOutput)
      (on_error tempInput tempOutput).
End Worker.

(** The state before any request: the given files and bucket, no clock
    reading, nothing observed yet. *)
Definition start (files : gmap string string)
    (bucket : gmap (string * string) StoredObject) : State :=
  mkState files bucket 0 [].

(** What an observer [f] sees of a trace, in order. *)
Fixpoint collect {B : Type} (f : Event → option B) (t : list Event) : list B :=
  match t with
  | [] => []
  | e :: t' => match f e with Some b => b :: collect f t' | None => collect f t' end
  end.

(** The responses sent in a trace, in order. *)
Definition responses (t : list Event) : list (Z * Body) :=
  collect (λ e, match e with EvRespond status body => Some (status, body) | _ => None end) t.

(** ** Notions used to state the properties *)

(** The events a run [r] added to the trace of the state [s] it started from. *)
Definition news (s : State) (r : result unit * State) : list Event :=
  drop (length (trace s)) (trace r.2).

(** The paths on disk after the events [t], from the paths [files]. *)
Fixpoint disk (t : list Event) (files : gset string) : gset string :=
  match t with
  | [] => files
  | EvCreate path :: t' | EvShell path (Some _) :: t' => disk t' ({[path]} ∪ files)
  | EvUnlink path :: t' | EvShell path None :: t' => disk t' (files ∖ {[path]})
  | _ :: t' => disk t' files
  end.


(** The events of [cleanup] on the files [files]. *)
Definition unlinks (tempInput tempOutput : string) (files : gmap string string) : list Event :=
  match files !! tempInput with Some _ => [EvUnlink tempInput] | None => [] end
  ++ match delete tempInput files !! tempOutput with
     | Some _ => [EvUnlink tempOutput]
     | None => []
     end.

(** The disk once [written] was left under [path]. *)
Definition left_on_disk (path : string) (written : option string)
    (files : gmap string string) : gmap string string :=
  match written with Some content => <[path := content]> files | None => files end.

Definition created (path : string) (written : option string) : list Event :=
  match written with Some _ => [EvCreate path] | None => [] end.

(** The disk and the events of the side effects of a shell line. *)
Definition shelled (effects : list (string * option string))
    (files : gmap string string) : gmap string string :=
  foldl (λ files effect, set_path effect.1 effect.2 files) files effects.

Definition shell_events (effects : list (string * option string)) : list Event :=
  (λ effect, EvShell effect.1 effect.2) <$> effects.

(** The shape shared by the two [try] blocks: they differ in the line
    they log first, the command, the storage key, the content type and
    the field of the success body. *)
Definition pipeline (w : World) (line : option string) (inputUrl : JsValue)
    (command : option string) (key : JsValue) (ctype : string) (success : string → Body)
    (tempInput tempOutput : string) : M unit :=
  console_log line;;
  response ← fetch w inputUrl;
  if negb response.1 then throw (Error "Failed to fetch video") else
  match response.2 with
  | None => throw (Error "No response body")
  | Some bytes =>
      pipe_to_file w bytes tempInput;;
      command ← template command;
      execAsync w command tempOutput;;
      _ ← statSync tempOutput;
      error ← upload w "processed-videos" key tempOutput (mkOptions ctype true "half");
      match error with
      | Some error => throw error
      | None =>
          url ← getPublicUrl w "processed-videos" key;
          cleanup tempInput tempOutput;;
          res_json 200 (success url)
      end
  end.

(** The validation tests of the two handlers, as written. *)
Definition clip_rejects (body : gmap string JsValue) : bool :=
  negb (truthy (field body "inputUrl")) || is_undefined (field body "startTime")
  || is_undefined (field body "endTime") || negb (truthy (field body "fileName")).

Definition audio_rejects (body : gmap string JsValue) : bool :=
  negb (truthy (field body "inputUrl")).

(** The value [v] has a string form. *)
Definition renders (v : JsValue) : bool :=
  match to_string v with Some _ => true | None => false end.

(** The values a [/clip] request puts into templates all have a string
    form: [fileName], [startTime] and [endTime]. *)
Definition clip_renders (body : gmap string JsValue) : bool :=
  renders (field body "fileName") && renders (field body "startTime")
  && renders (field body "endTime").

(** The same for [/extract-audio]: [fileName] when it is truthy, and
    [inputUrl]. *)
Definition audio_renders (body : gmap string JsValue) : bool :=
  (negb (truthy (field body "fileName")) || renders (field body "fileName"))
  && renders (field body "inputUrl").

(** The line a [/clip] request logs first. *)
Definition clip_line (body : gmap string JsValue) : option string :=
  processing_line (field body "fileName") (field body "startTime") (field body "endTime").

(** The state [s] after [n] more clock readings. *)
Definition ticked (n : nat) (s : State) : State :=
  mkState (fs s) (storage s) (n + reads s) (trace s).

(** The state [s] with the files [files] and the further events [evs]. *)
Definition moved (s : State) (files : gmap string string) (evs : list Event) : State :=
  mkState files (storage s) (reads s) (trace s ++ evs).

(** The disk when the download has finished with [bytes], the shell has
    run [command] and the transcoder has left [written]. *)
Definition transcoded (w : World) (command tempInput tempOutput : string) (s : State)
    (bytes : string) (written : option string) : gmap string string :=
  left_on_disk tempOutput written
    (shelled (shell_effects w command) (<[tempInput := bytes]> (fs s))).

(** A [try] block under the [catch] block of the handlers. *)
Definition attempt (w : World) (line : option string) (inputUrl : JsValue)
    (command : option string) (key : JsValue) (ctype : string) (success : string → Body)
    (tempInput tempOutput : string) : M unit :=
  try_catch (pipeline w line inputUrl command key ctype success tempInput tempOutput)
            (on_error tempInput tempOutput).

(** The scratch paths [(tempInput, tempOutput)] of a request that starts
    in the state [s]. *)
Definition clip_scratch (dirname : string) (w : World) (s : State) : string * string :=
  (path_join (tempDir dirname) (clip_input_name (now w (reads s))),
   path_join (tempDir dirname) (clip_output_name (now w (S (reads s))))).

Definition audio_scratch (dirname : string) (w : World) (s : State) : string * string :=
  (path_join (tempDir dirname) (audio_input_name (now w (reads s))),
   path_join (tempDir dirname) (audio_output_name (now w (S (reads s))))).

(** The storage key of an [/extract-audio] request that starts in [s];
    [None] when the template that builds it throws. *)
Definition audio_key (w : World) (body : gmap string JsValue) (s : State) : option string :=
  if truthy (field body "fileName")
  then named_audio (field body "fileName")
  else Some (audio_storage_name (now w (S (S (reads s))))).

(** The command line a [/clip] request that starts in [s] builds. *)
Definition clip_command_of (dirname : string) (w : World) (body : gmap string JsValue)
    (s : State) : option string :=
  clip_command (field body "startTime") (field body "endTime")
    (clip_scratch dirname w s).1 (clip_scratch dirname w s).2.

(** The commands handed to the subprocess executor in a trace. *)
Definition execs (t : list Event) : list string :=
  collect (λ e, match e with EvExec command => Some command | _ => None end) t.

(** The uploads requested in a trace: bucket, key and options. *)
Definition uploads (t : list Event) : list (string * JsValue * UploadOptions) :=
  collect (λ e, match e with
             | EvUpload bucket key _ opts => Some (bucket, key, opts)
             | _ => None
             end) t.

(** The fetches issued in a trace. *)
Definition fetches (t : list Event) : list JsValue :=
  collect (λ e, match e with EvFetch url => Some url | _ => None end) t.

(** The files the handler created in a trace. *)
Definition creations (t : list Event) : list string :=
  collect (λ e, match e with EvCreate path => Some path | _ => None end) t.

(** An event that leaves the disk alone. *)
Definition file_free (e : Event) : Prop :=
  match e with EvCreate _ | EvUnlink _ | EvShell _ _ => False | _ => True end.

(** An event by which the handler creates or removes no file outside
    [paths]. *)
Definition touches_only (paths : gset string) (e : Event) : Prop :=
  match e with EvCreate path | EvUnlink path => path ∈ paths | _ => True end.

(** The computation [m] extends the trace, creates and removes itself
    the files of [paths] only, and the trace accounts for every change
    of the disk. *)
Definition footprint {A : Type} (paths : gset string) (m : M A) : Prop :=
  ∀ s, ∃ evs : list Event,
    trace (m s).2 = trace s ++ evs
    ∧ Forall (touches_only paths) evs
    ∧ dom (fs (m s).2) = disk evs (dom (fs s)).

(** The events [evs] end with the response [(status, b)], the only one. *)
Definition answered (status : Z) (b : Body) (evs : list Event) : Prop :=
  ∃ pre, evs = pre ++ [EvRespond status b] ∧ responses pre = [].

(** The clock readings an [/extract-audio] request makes. *)
Definition audio_ticks (body : gmap string JsValue) : nat :=
  if truthy (field body "fileName") then 2%nat else 3%nat.



(** The shell runs the transcoder and nothing else, whatever the command. *)
Definition quiet (w : World) : Prop := ∀ command, shell_effects w command = [].

(** The paths the shell line [command] touches on the side. *)
Definition shell_targets (w : World) (command : option string) : gset string :=
  match command with
  | Some command => list_to_set (shell_effects w command).*1
  | None => ∅
  end.

(** ** Sample deployments and requests *)

Definition sample_dir : string := "/srv/ffmpeg-worker".

Definition sample_clock (n : nat) : Z := 1700000000000 + Z.of_nat n.

Definition sample_url (bucket : string) (key : JsValue) : string :=
  "https://project.supabase.co/storage/v1/object/public/" +:+ bucket +:+ "/"
    +:+ default "" (to_string key).

(** A shell line that runs the transcoder and nothing else. *)
Definition no_effects (command : string) : list (string * option string) := [].

(** Every stage goes through. *)
Definition world_ok : World :=
  mkWorld sample_clock (FetchResponse true (Some "source bytes")) StreamFinish
          (ExecOk (Some "transcoded bytes")) no_effects UploadOk sample_url.

(** The source answers 404. *)
Definition world_not_found : World :=
  mkWorld sample_clock (FetchResponse false (Some "Not Found")) StreamFinish
          (ExecOk (Some "transcoded bytes")) no_effects UploadOk sample_url.

(** The transcoder exits with status 1 and leaves a partial output. *)
Definition world_exec_fails : World :=
  mkWorld sample_clock (FetchResponse true (Some "source bytes")) StreamFinish
          (ExecFail "Command failed: ffmpeg" "Invalid data found when processing input"
                    (Some "partial"))
          no_effects UploadOk sample_url.

(** The storage service refuses the upload. *)
Definition world_upload_fails : World :=
  mkWorld sample_clock (FetchResponse true (Some "source bytes")) StreamFinish
          (ExecOk (Some "transcoded bytes")) no_effects
          (UploadError (Error "Bucket not found")) sample_url.

Definition clip_request : gmap string JsValue :=
  {[ "inputUrl" := JStr "https://cdn.example/v.mp4";
     "startTime" := JNum "0";
     "endTime" := JStr "12";
     "fileName" := JStr "clips/a.mp4" ]}.

Definition audio_request : gmap string JsValue :=
  {[ "inputUrl" := JStr "https://cdn.example/v.mp4"; "fileName" := JStr "talk" ]}.

Definition anonymous_audio_request : gmap string JsValue :=
  {[ "inputUrl" := JStr "https://cdn.example/v.mp4" ]}.

(** A request whose time range is given as text. *)
Definition injected_request : gmap string JsValue :=
  {[ "inputUrl" := JStr "https://cdn.example/v.mp4";
     "startTime" := JStr "0; touch /tmp/owned;";
     "endTime" := JStr "$(id)";
     "fileName" := JStr "clips/a.mp4" ]}.

(** A request whose time range is given as numbers, one with a fraction
    and one that is large. *)
Definition numeric_request : gmap string JsValue :=
  {[ "inputUrl" := JStr "https://cdn.example/v.mp4";
     "startTime" := JNum "1.5";
     "endTime" := JNum "1e+21";
     "fileName" := JStr "clips/a.mp4" ]}.

(** The shell of a world where the line given as [startTime] above does
    what it says. *)
Definition world_injected : World :=
  mkWorld sample_clock (FetchResponse true (Some "source bytes")) StreamFinish
          (ExecOk (Some "transcoded bytes")) (λ _, [("/tmp/owned", Some "")])
          UploadOk sample_url.

(** Requests with a field that is present but falsy. *)
Definition null_start_request : gmap string JsValue :=
  <["startTime" := JNull]> clip_request.

Definition empty_name_request : gmap string JsValue :=
  <["fileName" := JStr ""]> clip_request.

Definition empty_url_request : gmap string JsValue :=
  <["inputUrl" := JStr ""]> clip_request.

(** The JSON value [{"toString": 1}]: an object without string form. *)
Definition no_string_form : JsValue := JObj [("toString", JNum "1")].

(** Requests whose [fileName] has no string form. *)
Definition opaque_name_clip_request : gmap string JsValue :=
  <["fileName" := no_string_form]> clip_request.

Definition opaque_name_audio_request : gmap string JsValue :=
  <["fileName" := no_string_form]> audio_request.

(** The connection to the source drops while the body is read. *)
Definition world_read_error : World :=
  mkWorld sample_clock (FetchResponse true (Some "source bytes"))
          (StreamCrash (Error "terminated") (Some "source"))
          (ExecOk (Some "transcoded bytes")) no_effects UploadOk sample_url.

(** Two requests served within one millisecond: the clock reads the same
    value every time. *)
Definition frozen_clock (n : nat) : Z := 1700000000000.

(** A request whose transcoder is still running. *)
Definition world_transcoding : World :=
  mkWorld frozen_clock (FetchResponse true (Some "first source")) StreamFinish
          (ExecPending None) no_effects UploadOk sample_url.

(** A request of the same millisecond that goes through. *)
Definition world_same_ms : World :=
  mkWorld frozen_clock (FetchResponse true (Some "second source")) StreamFinish
          (ExecOk (Some "transcoded bytes")) no_effects UploadOk sample_url.

Definition other_clip_request : gmap string JsValue :=
  {[ "inputUrl" := JStr "https://cdn.example/w.mp4";
     "startTime" := JNum "3";
     "endTime" := JNum "9";
     "fileName" := JStr "clips/b.mp4" ]}.

(** An [/extract-audio] request whose [fileName] is given, and empty. *)
Definition empty_audio_name_request : gmap string JsValue :=
  {[ "inputUrl" := JStr "https://cdn.example/v.mp4"; "fileName" := JStr "" ]}.

(** The keys of the uploads requested in a trace. *)
Definition upload_keys (t : list Event) : list JsValue :=
  (λ u, u.1.2) <$> uploads t.

(** A later run of the same request, whose transcoder writes other bytes. *)
Definition world_again : World :=
  mkWorld (λ n, 1700000360000 + Z.of_nat n) (FetchResponse true (Some "source bytes"))
          StreamFinish (ExecOk (Some "transcoded again")) no_effects UploadOk sample_url.

(** ** Further observers of a trace *)

(** The keys whose public URL was resolved in a trace. *)
Definition resolutions (t : list Event) : list (string * JsValue) :=
  collect (λ e, match e with
                | EvGetPublicUrl bucket key => Some (bucket, key)
                | _ => None
                end) t.

(** The files the handler removed in a trace. *)
Definition removals (t : list Event) : list string :=
  collect (λ e, match e with EvUnlink path => Some path | _ => None end) t.

(** The files the handler itself creates or removes in a trace: the
    download, the output the command names, the cleanup. *)
Definition touched (t : list Event) : list string := creations t ++ removals t.

(** The collaborators a handler calls. *)
Inductive Call : Type := CallFetch | CallExec | CallUpload | CallResolve.

(** The calls to the collaborators in a trace, in order. *)
Definition calls (t : list Event) : list Call :=
  collect (λ e, match e with
                | EvFetch _ => Some CallFetch
                | EvExec _ => Some CallExec
                | EvUpload _ _ _ _ => Some CallUpload
                | EvGetPublicUrl _ _ => Some CallResolve
                | _ => None
                end) t.

(** The order of the four stages. *)
Definition pipeline_order : list Call := [CallFetch; CallExec; CallUpload; CallResolve].

(** The computation [m] leaves every file outside [paths] as it is. *)
Definition keeps_others {A : Type} (paths : gset string) (m : M A) : Prop :=
  ∀ s p, p ∉ paths → fs (m s).2 !! p = fs s !! p.

(** The transcoder exits with status 0 and writes nothing. *)
Definition world_no_output : World :=
  mkWorld sample_clock (FetchResponse true (Some "source bytes")) StreamFinish
          (ExecOk None) no_effects UploadOk sample_url.

(** The connection to the source is refused. *)
Definition world_unreachable : World :=
  mkWorld sample_clock (FetchReject (Error "fetch failed")) StreamFinish
          (ExecOk (Some "transcoded bytes")) no_effects UploadOk sample_url.

(** The transcoder never exits. *)
Definition world_hung : World :=
  mkWorld sample_clock (FetchResponse true (Some "source bytes")) StreamFinish
          (ExecPending None) no_effects UploadOk sample_url.

(** The transcoder writes an empty file. *)
Definition world_silent_audio : World :=
  mkWorld sample_clock (FetchResponse true (Some "source bytes")) StreamFinish
          (ExecOk (Some "")) no_effects UploadOk sample_url.

(** ** The top level of the module *)

(** A variable of [process.env]; one that is not set reads as
    [undefined]. *)
Definition env_var (env : gmap string string) (name : string) : JsValue :=
  default JUndefined (JStr <$> env !! name).

(** How the top-level code ends: [process.exit(code)], an exception of
    [createClient], or the server listening on [port] with a storage
    client made from the two credentials. *)
Inductive Boot : Type :=
| Exited (code : Z)
| Crashed (e : JsError)
| Listening (port supabaseUrl supabaseKey : JsValue).

(** The top-level code on the environment [env] (as [dotenv.config()]
    leaves it) and the paths [dirs] that exist on disk; [createClient]
    stands for the SDK's constructor, which returns ([None]) or throws. *)
Definition boot (createClient : JsValue → JsValue → option JsError) (dirname : string)
    (env : gmap string string) (dirs : gset string) : Boot * gset string :=
  let PORT := if truthy (env_var env "PORT") then env_var env "PORT" else JNum "4000" in
  let supabaseUrl := env_var env "SUPABASE_URL" in
  let supabaseKey := env_var env "SUPABASE_SERVICE_ROLE_KEY" in
  if negb (truthy supabaseUrl) || negb (truthy supabaseKey)
  then (Exited 1, dirs)
  else
    match createClient supabaseUrl supabaseKey with
    | Some e => (Crashed e, dirs)
    | None =>
        let dirs :=
          if bool_decide (tempDir dirname ∈ dirs) then dirs
          else {[tempDir dirname]} ∪ dirs in
        (Listening PORT supabaseUrl supabaseKey, dirs)
    end.

(** A constructor that accepts every pair of credentials. *)
Definition any_client (url key : JsValue) : option JsError := None.

Definition sample_env : gmap string string :=
  {[ "SUPABASE_URL" := "https://project.supabase.co";
     "SUPABASE_SERVICE_ROLE_KEY" := "service-role-key";
     "PORT" := "8080" ]}.

(** ** The earlier build (dist/temp/server.js)

    The compiled file under [dist/temp] is an earlier build of the same
    two handlers.  It logs the URL before the download, reads the whole
    response with [arrayBuffer()] and writes it with [writeFileSync],
    reads the transcoder output with [readFileSync] before the upload,
    puts the status text of the response in the message of a failed
    fetch, passes no [duplex] option to the upload, runs other
    transcoder commands, and ignores [fileName] in [/extract-audio]. *)

(** [await response.arrayBuffer()]. *)
Inductive BufferOutcome : Type :=
| BufferPending
| BufferReject (e : JsError)
| BufferResolve (bytes : string).

(** [await fetch(inputUrl)] as the earlier build uses it: the [ok] flag,
    the status text, and what reading the body gives. *)
Inductive LegacyFetchOutcome : Type :=
| LegacyFetchPending
| LegacyFetchReject (e : JsError)
| LegacyFetchResponse (ok : bool) (statusText : string) (buffer : BufferOutcome).

(** The world around an invocation of the earlier build: its fetch, and
    for the clock, the subprocess and the storage service the outcomes
    of [rest]. *)
Record LegacyWorld : Type := mkLegacy {
  legacy_fetch_outcome : LegacyFetchOutcome;
  rest : World
}.

Definition legacy_fetch (lw : LegacyWorld) (url : JsValue) : M (bool * string) :=
  emit (EvFetch url);;
  match legacy_fetch_outcome lw with
  | LegacyFetchPending => pending
  | LegacyFetchReject e => throw e
  | LegacyFetchResponse ok statusText _ => mret (ok, statusText)
  end.

Definition arrayBuffer (lw : LegacyWorld) : M string :=
  match legacy_fetch_outcome lw with
  | LegacyFetchResponse _ _ (BufferResolve bytes) => mret bytes
  | LegacyFetchResponse _ _ (BufferReject e) => throw e
  | _ => pending
  end.

(** [fs.writeFileSync(path, content)]. *)
Definition writeFileSync (path content : string) : M unit := write_file path content.

(** [fs.readFileSync(path)]; a missing file throws. *)
Definition readFileSync (path : string) : M string :=
  file ← peek path;
  match file with
  | Some content => mret content
  | None => throw (Error (enoent "open" path))
  end.

(** The options of the earlier build's uploads: content type and
    overwrite; the empty [duplex] stands for the option it does not
    pass. *)
Definition legacy_options (ctype : string) : UploadOptions := mkOptions ctype true "".

(** [await supabase.storage.from(bucket).upload(key, fileContent, opts)]
    with the bytes read from [source] beforehand. *)
Definition legacy_upload (w : World) (bucket : string) (key : JsValue)
    (source fileContent ctype : string) : M (option JsError) :=
  emit (EvUpload bucket key source (legacy_options ctype));;
  match upload_outcome w with
  | UploadPending => pending
  | UploadReject e => throw e
  | UploadError e => mret (Some e)
  | UploadOk => put_object bucket key fileContent (legacy_options ctype)
  end.

(** The second line of the earlier [/clip]:
    [`[worker] Downloading from ${inputUrl}...`]. *)
Definition downloading_line (inputUrl : JsValue) : option string :=
  url ← to_string inputUrl; Some ("[worker] Downloading from " +:+ url +:+ "...").

Definition legacy_clip_command_text (a b tempInput tempOutput : string) : string :=
  "ffmpeg -ss " +:+ a +:+ " -to " +:+ b
    +:+ " -i " +:+ dquote +:+ tempInput +:+ dquote
    +:+ " -vf " +:+ dquote +:+ filterComplex +:+ dquote
    +:+ " -c:v libx264 -c:a aac -preset fast -y "
    +:+ dquote +:+ tempOutput +:+ dquote.

Definition legacy_clip_command (startTime endTime : JsValue) (tempInput tempOutput : string) :
    option string :=
  a ← to_string startTime;
  b ← to_string endTime;
  Some (legacy_clip_command_text a b tempInput tempOutput).

Definition legacy_audio_command (tempInput tempOutput : string) : string :=
  "ffmpeg -i " +:+ dquote +:+ tempInput +:+ dquote
    +:+ " -vn -acodec pcm_s16le -ar 16000 -ac 1 -y " +:+ dquote +:+ tempOutput +:+ dquote.

(** The [try] block of the earlier [/clip]. *)
Definition legacy_clip_try (lw : LegacyWorld) (inputUrl startTime endTime fileName : JsValue)
    (tempInput tempOutput : string) : M unit :=
  console_log (processing_line fileName startTime endTime);;
  console_log (downloading_line inputUrl);;
  response ← legacy_fetch lw inputUrl;
  if negb response.1 then throw (Error ("Failed to fetch video: " +:+ response.2)) else
  buffer ← arrayBuffer lw;
  writeFileSync tempInput buffer;;
  command ← template (legacy_clip_command startTime endTime tempInput tempOutput);
  execAsync (rest lw) command tempOutput;;
  fileContent ← readFileSync tempOutput;
  _ ← statSync tempOutput;
  error ← legacy_upload (rest lw) "processed-videos" fileName tempOutput fileContent
            "video/mp4";
  match error with
  | Some error => throw error
  | None =>
      clippedUrl ← getPublicUrl (rest lw) "processed-videos" fileName;
      cleanup tempInput tempOutput;;
      res_json 200 (ClippedBody clippedUrl)
  end.

(** The [try] block of the earlier [/extract-audio]. *)
Definition legacy_audio_try (lw : LegacyWorld) (inputUrl : JsValue) (storageFileName : string)
    (tempInput tempOutput : string) : M unit :=
  console_log (extracting_line inputUrl);;
  response ← legacy_fetch lw inputUrl;
  if negb response.1 then throw (Error ("Failed to fetch video: " +:+ response.2)) else
  buffer ← arrayBuffer lw;
  writeFileSync tempInput buffer;;
  let command := legacy_audio_command tempInput tempOutput in
  execAsync (rest lw) command tempOutput;;
  _ ← statSync tempOutput;
  fileContent ← readFileSync tempOutput;
  error ← legacy_upload (rest lw) "processed-videos" (JStr storageFileName) tempOutput
            fileContent "audio/wav";
  match error with
  | Some error => throw error
  | None =>
      audioUrl ← getPublicUrl (rest lw) "processed-videos" (JStr storageFileName);
      cleanup tempInput tempOutput;;
      res_json 200 (AudioBody audioUrl)
  end.

(** [app.post('/clip', ...)] of the earlier build. *)
Definition legacy_clip (dirname : string) (lw : LegacyWorld) (body : gmap string JsValue) :
    M unit :=
  let inputUrl := field body "inputUrl" in
  let startTime := field body "startTime" in
  let endTime := field body "endTime" in
  let fileName := field body "fileName" in
  if negb (truthy inputUrl) || is_undefined startTime
     || is_undefined endTime || negb (truthy fileName)
  then res_json 400
         (ErrorBody "Missing required parameters: inputUrl, startTime, endTime, fileName" None)
  else
    t ← date_now (rest lw);
    let tempInput := path_join (tempDir dirname) (clip_input_name t) in
    t ← date_now (rest lw);
    let tempOutput := path_join (tempDir dirname) (clip_output_name t) in
    try_catch
      (legacy_clip_try lw inputUrl startTime endTime fileName tempInput tempOutput)
      (on_error tempInput tempOutput).

(** [app.post('/extract-audio', ...)] of the earlier build. *)
Definition legacy_extract_audio (dirname : string) (lw : LegacyWorld)
    (body : gmap string JsValue) : M unit :=
  let inputUrl := field body "inputUrl" in
  if negb (truthy inputUrl)
  then res_json 400 (ErrorBody "Missing required parameter: inputUrl" None)
  else
    t ← date_now (rest lw);
    let tempInput := path_join (tempDir dirname) (audio_input_name t) in
    t ← date_now (rest lw);
    let tempOutput := path_join (tempDir dirname) (audio_output_name t) in
    t ← date_now (rest lw);
    let storageFileName := audio_storage_name t in
    try_catch
      (legacy_audio_try lw inputUrl storageFileName tempInput tempOutput)
      (on_error tempInput tempOutput).

(** The earlier build where the source answers 503. *)
Definition legacy_unavailable : LegacyWorld :=
  mkLegacy (LegacyFetchResponse false "Service Unavailable" (BufferResolve "")) world_ok.

(** The earlier build where every stage goes through. *)
Definition legacy_ok : LegacyWorld :=
  mkLegacy (LegacyFetchResponse true "OK" (BufferResolve "source bytes")) world_ok.

(** * Properties *)

#[local] Arguments clip_command_text : simpl never.
#[local] Arguments legacy_clip_command_text : simpl never.
#[local] Arguments audio_command : simpl never.
#[local] Arguments legacy_audio_command : simpl never.
#[local] Arguments enoent : simpl never.
#[local] Arguments shelled : simpl never.
#[local] Arguments shell_events : simpl never.
#[local] Arguments template : simpl never.
#[local] Arguments console_log : simpl never.

(** ** Run equations of the monad and of the primitives *)

Lemma bind_run {A B : Type} (m : M A) (f : A → M B) s :
  (m ≫= f) s =
  match m s with
  | (Ok a, s') => f a s'
  | (Throw e, s') => (Throw e, s')
  | (Pending, s') => (Pending, s')
  | (Fatal e, s') => (Fatal e, s')
  end.
Proof. reflexivity. Qed.

Lemma ret_run {A : Type} (a : A) s : (mret a : M A) s = (Ok a, s).
Proof. reflexivity. Qed.

Lemma throw_run {A : Type} e s : @throw A e s = (Throw e, s).
Proof. reflexivity. Qed.

Lemma pending_run {A : Type} s : @pending A s = (Pending, s).
Proof. reflexivity. Qed.

Lemma fatal_run {A : Type} e s : @fatal A e s = (Fatal e, s).
Proof. reflexivity. Qed.

Lemma try_catch_run {A : Type} (m : M A) h s :
  try_catch m h s = match m s with (Throw e, s') => h e s' | r => r end.
Proof. reflexivity. Qed.

Lemma when_run b m s : when b m s = if b then m s else (Ok tt, s).
Proof. by destruct b. Qed.

Lemma template_run text s :
  template text s =
  match text with Some text => (Ok text, s) | None => (Throw cannot_convert, s) end.
Proof. by destruct text. Qed.

Lemma console_log_run line s :
  console_log line s =
  match line with Some _ => (Ok tt, s) | None => (Throw cannot_convert, s) end.
Proof. unfold console_log. rewrite bind_run, template_run. by destruct line. Qed.

Lemma emit_run e s :
  emit e s = (Ok tt, mkState (fs s) (storage s) (reads s) (trace s ++ [e])).
Proof. reflexivity. Qed.

Lemma res_json_run status body s :
  res_json status body s =
  (Ok tt, mkState (fs s) (storage s) (reads s) (trace s ++ [EvRespond status body])).
Proof. reflexivity. Qed.

Lemma date_now_run w s :
  date_now w s = (Ok (now w (reads s)), mkState (fs s) (storage s) (S (reads s)) (trace s)).
Proof. reflexivity. Qed.

Lemma peek_run path s : peek path s = (Ok (fs s !! path), s).
Proof. reflexivity. Qed.

Lemma leave_file_run path written s :
  leave_file path written s =
  (Ok tt, mkState (left_on_disk path written (fs s)) (storage s) (reads s)
                  (trace s ++ created path written)).
Proof. destruct written; simpl; [done|]. rewrite app_nil_r. by destruct s. Qed.

Lemma write_file_run path content s :
  write_file path content s =
  (Ok tt, mkState (<[path := content]> (fs s)) (storage s) (reads s)
                  (trace s ++ [EvCreate path])).
Proof. reflexivity. Qed.

Lemma shell_run effects s :
  shell effects s =
  (Ok tt, mkState (shelled effects (fs s)) (storage s) (reads s)
                  (trace s ++ shell_events effects)).
Proof.
  revert s. induction effects as [|[path after] effects IH]; intros s.
  - unfold shelled, shell_events. simpl. rewrite app_nil_r. by destruct s.
  - cbn [shell]. rewrite bind_run. unfold shell_step. rewrite IH.
    unfold shelled, shell_events. simpl. by rewrite <- app_assoc.
Qed.

Lemma existsSync_run path s :
  existsSync path s = (Ok (bool_decide (is_Some (fs s !! path))), s).
Proof. reflexivity. Qed.

Lemma unlinkSync_run path s :
  unlinkSync path s =
  match fs s !! path with
  | Some _ => (Ok tt, mkState (delete path (fs s)) (storage s) (reads s)
                              (trace s ++ [EvUnlink path]))
  | None => (Throw (Error (enoent "unlink" path)), s)
  end.
Proof. unfold unlinkSync. rewrite bind_run, peek_run. by destruct (fs s !! path). Qed.

Lemma statSync_run path s :
  statSync path s =
  let s' := mkState (fs s) (storage s) (reads s) (trace s ++ [EvStat path]) in
  match fs s !! path with
  | Some content => (Ok (String.length content), s')
  | None => (Throw (Error (enoent "stat" path)), s')
  end.
Proof.
  unfold statSync. rewrite bind_run, emit_run, bind_run, peek_run. simpl.
  by destruct (fs s !! path).
Qed.

Lemma fetch_run w url s :
  fetch w url s =
  let s' := mkState (fs s) (storage s) (reads s) (trace s ++ [EvFetch url]) in
  match fetch_outcome w with
  | FetchPending => (Pending, s')
  | FetchReject e => (Throw e, s')
  | FetchResponse ok body => (Ok (ok, body), s')
  end.
Proof. unfold fetch. rewrite bind_run, emit_run. by destruct (fetch_outcome w). Qed.

Lemma pipe_to_file_run w body path s :
  pipe_to_file w body path s =
  let after written :=
    mkState (left_on_disk path written (fs s)) (storage s) (reads s)
            (trace s ++ created path written) in
  match stream_outcome w with
  | StreamPending written => (Pending, after written)
  | StreamFinish => (Ok tt, after (Some body))
  | StreamError e written => (Throw e, after written)
  | StreamCrash e written => (Fatal e, after written)
  end.
Proof.
  unfold pipe_to_file.
  destruct (stream_outcome w); rewrite ?bind_run, ?leave_file_run; done.
Qed.

Lemma execAsync_run w command out s :
  execAsync w command out s =
  let after written :=
    mkState (left_on_disk out written (shelled (shell_effects w command) (fs s)))
            (storage s) (reads s)
            (trace s ++ EvExec command :: shell_events (shell_effects w command)
                     ++ created out written) in
  match exec_outcome w with
  | ExecPending written => (Pending, after written)
  | ExecOk written => (Ok tt, after written)
  | ExecFail msg captured written => (Throw (mkError msg (Some captured)), after written)
  end.
Proof.
  unfold execAsync. rewrite bind_run, emit_run, bind_run, shell_run.
  destruct (exec_outcome w); rewrite ?bind_run, ?leave_file_run; simpl;
    by rewrite <- !app_assoc.
Qed.

Lemma put_object_run bucket key content ctype d s :
  put_object bucket key content (mkOptions ctype true d) s =
  match to_string key with
  | Some name =>
      (Ok None,
       mkState (fs s) (<[(bucket, name) := mkObject content ctype]> (storage s))
               (reads s) (trace s))
  | None => (Throw cannot_convert, s)
  end.
Proof. unfold put_object. by destruct (to_string key). Qed.

Lemma upload_run w bucket key source opts s :
  upload w bucket key source opts s =
  let s' := mkState (fs s) (storage s) (reads s)
                    (trace s ++ [EvUpload bucket key source opts]) in
  match upload_outcome w with
  | UploadPending => (Pending, s')
  | UploadReject e => (Throw e, s')
  | UploadError e => (Ok (Some e), s')
  | UploadOk =>
      match fs s !! source with
      | Some content => put_object bucket key content opts s'
      | None => (Throw (Error (enoent "open" source)), s')
      end
  end.
Proof.
  unfold upload. rewrite bind_run, emit_run.
  destruct (upload_outcome w); try done.
  rewrite bind_run, peek_run. simpl. by destruct (fs s !! source).
Qed.

Lemma getPublicUrl_run w bucket key s :
  getPublicUrl w bucket key s =
  (Ok (public_url w bucket key),
   mkState (fs s) (storage s) (reads s) (trace s ++ [EvGetPublicUrl bucket key])).
Proof. reflexivity. Qed.

(** ** The cleanup lines and the catch block *)

Lemma cleanup_run tempInput tempOutput s :
  cleanup tempInput tempOutput s =
  (Ok tt, mkState (delete tempOutput (delete tempInput (fs s))) (storage s) (reads s)
                  (trace s ++ unlinks tempInput tempOutput (fs s))).
Proof.
  unfold cleanup, unlinks.
  rewrite bind_run, existsSync_run, bind_run, when_run, unlinkSync_run.
  destruct (fs s !! tempInput) as [c|] eqn:Hin; simpl.
  - rewrite bind_run, existsSync_run, when_run, unlinkSync_run. simpl.
    destruct (delete tempInput (fs s) !! tempOutput) eqn:Hout; simpl.
    + by rewrite <- app_assoc.
    + by rewrite (delete_id _ tempOutput), ?app_nil_r.
  - rewrite bind_run, existsSync_run, when_run, unlinkSync_run. simpl.
    rewrite (delete_id _ tempInput) by done.
    destruct (fs s !! tempOutput) eqn:Hout; simpl; [done|].
    rewrite (delete_id _ tempOutput), ?app_nil_r by done. by destruct s.
Qed.

Lemma on_error_run tempInput tempOutput error s :
  on_error tempInput tempOutput error s =
  (Ok tt, mkState (delete tempOutput (delete tempInput (fs s))) (storage s) (reads s)
                  (trace s ++ unlinks tempInput tempOutput (fs s)
                     ++ [EvRespond 500 (ErrorBody (message error) (stderr error))])).
Proof.
  unfold on_error. rewrite bind_run, cleanup_run, res_json_run. simpl.
  by rewrite <- app_assoc.
Qed.

(** ** The try block, outcome by outcome *)

(** Runs the next primitives of the goal with their equations. *)
Ltac exec :=
  repeat (simpl; first
    [ rewrite bind_run | rewrite console_log_run | rewrite template_run
    | rewrite fetch_run | rewrite pipe_to_file_run
    | rewrite execAsync_run | rewrite statSync_run | rewrite upload_run
    | rewrite put_object_run | rewrite getPublicUrl_run | rewrite cleanup_run
    | rewrite res_json_run | rewrite throw_run | rewrite on_error_run
    | rewrite try_catch_run ]);
  simpl; repeat (rewrite <- app_assoc; simpl).

(** Runs the goal along the outcomes fixed by the hypotheses. *)
Ltac exec_along :=
  exec; repeat match goal with H : _ = _ |- _ => rewrite H; exec end.

Section Pipeline.
Context (w : World) (line : string) (inputUrl : JsValue) (command : string) (key : JsValue)
        (ctype : string) (success : string → Body) (tempInput tempOutput : string).

Lemma pipeline_fetch_not_ok s content :
  fetch_outcome w = FetchResponse false content →
  pipeline w (Some line) inputUrl (Some command) key ctype success tempInput tempOutput s =
  (Throw (Error "Failed to fetch video"), moved s (fs s) [EvFetch inputUrl]).
Proof. intros. unfold transcoded, pipeline in *. by exec_along. Qed.

Lemma pipeline_fetch_no_body s :
  fetch_outcome w = FetchResponse true None →
  pipeline w (Some line) inputUrl (Some command) key ctype success tempInput tempOutput s =
  (Throw (Error "No response body"), moved s (fs s) [EvFetch inputUrl]).
Proof. intros. unfold transcoded, pipeline in *. by exec_along. Qed.

Lemma pipeline_stream_crash s bytes e written :
  fetch_outcome w = FetchResponse true (Some bytes) →
  stream_outcome w = StreamCrash e written →
  pipeline w (Some line) inputUrl (Some command) key ctype success tempInput tempOutput s =
  (Fatal e, moved s (left_on_disk tempInput written (fs s))
                    (EvFetch inputUrl :: created tempInput written)).
Proof. intros. unfold transcoded, pipeline in *. by exec_along. Qed.

Lemma pipeline_exec_fail s bytes msg captured written :
  fetch_outcome w = FetchResponse true (Some bytes) →
  stream_outcome w = StreamFinish →
  exec_outcome w = ExecFail msg captured written →
  pipeline w (Some line) inputUrl (Some command) key ctype success tempInput tempOutput s =
  (Throw (mkError msg (Some captured)),
   moved s (transcoded w command tempInput tempOutput s bytes written)
     ([EvFetch inputUrl; EvCreate tempInput; EvExec command]
        ++ shell_events (shell_effects w command) ++ created tempOutput written)).
Proof. intros. unfold transcoded, pipeline in *. by exec_along. Qed.

Lemma pipeline_success s bytes written content name :
  fetch_outcome w = FetchResponse true (Some bytes) →
  stream_outcome w = StreamFinish →
  exec_outcome w = ExecOk written →
  transcoded w command tempInput tempOutput s bytes written !! tempOutput = Some content →
  upload_outcome w = UploadOk →
  to_string key = Some name →
  pipeline w (Some line) inputUrl (Some command) key ctype success tempInput tempOutput s =
  (Ok tt,
   mkState
     (delete tempOutput
        (delete tempInput (transcoded w command tempInput tempOutput s bytes written)))
     (<[("processed-videos", name) := mkObject content ctype]> (storage s))
     (reads s)
     (trace s
        ++ [EvFetch inputUrl; EvCreate tempInput; EvExec command]
        ++ shell_events (shell_effects w command)
        ++ created tempOutput written
        ++ [EvStat tempOutput;
            EvUpload "processed-videos" key tempOutput (mkOptions ctype true "half");
            EvGetPublicUrl "processed-videos" key]
        ++ unlinks tempInput tempOutput
             (transcoded w command tempInput tempOutput s bytes written)
        ++ [EvRespond 200 (success (public_url w "processed-videos" key))])).
Proof. intros. unfold transcoded, pipeline in *. by exec_along. Qed.
End Pipeline.

(** ** The footprint of the handlers *)

Lemma disk_app t1 t2 files : disk (t1 ++ t2) files = disk t2 (disk t1 files).
Proof.
  revert files. induction t1 as [|e t1 IH]; intros files; [done|].
  destruct e as [| | |? []| | | | |]; simpl; apply IH.
Qed.

Lemma disk_shell_events effects (files : gmap string string) :
  dom (shelled effects files) = disk (shell_events effects) (dom files).
Proof.
  revert files. unfold shelled, shell_events.
  induction effects as [|[path [content|]] effects IH]; intros files; simpl; [done| |].
  - by rewrite IH, dom_insert_L.
  - by rewrite IH, dom_delete_L.
Qed.

Lemma footprint_ret {A : Type} paths (a : A) : footprint paths (mret a : M A).
Proof. intros s. exists []. simpl. by rewrite app_nil_r. Qed.

Lemma footprint_throw {A : Type} paths e : footprint paths (@throw A e).
Proof. intros s. exists []. simpl. by rewrite app_nil_r. Qed.

Lemma footprint_pending {A : Type} paths : footprint paths (@pending A).
Proof. intros s. exists []. simpl. by rewrite app_nil_r. Qed.

Lemma footprint_fatal {A : Type} paths e : footprint paths (@fatal A e).
Proof. intros s. exists []. simpl. by rewrite app_nil_r. Qed.

Lemma footprint_bind {A B : Type} paths (m : M A) (f : A → M B) :
  footprint paths m → (∀ a, footprint paths (f a)) → footprint paths (m ≫= f).
Proof.
  intros Hm Hf s. destruct (Hm s) as (evs & Ht & Hall & Hd).
  rewrite bind_run. destruct (m s) as [[a|e| |e] s1]; simpl in *; [|by exists evs..].
  destruct (Hf a s1) as (evs' & Ht' & Hall' & Hd').
  exists (evs ++ evs'). rewrite Ht', Ht, Hd', Hd, disk_app, app_assoc.
  split_and!; [done| by apply Forall_app |done].
Qed.

Lemma footprint_try_catch {A : Type} paths (m : M A) h :
  footprint paths m → (∀ e, footprint paths (h e)) → footprint paths (try_catch m h).
Proof.
  intros Hm Hh s. destruct (Hm s) as (evs & Ht & Hall & Hd).
  rewrite try_catch_run.
  destruct (m s) as [[a|e| |e] s1]; simpl in *; [by exists evs| |by exists evs..].
  destruct (Hh e s1) as (evs' & Ht' & Hall' & Hd').
  exists (evs ++ evs'). rewrite Ht', Ht, Hd', Hd, disk_app, app_assoc.
  split_and!; [done| by apply Forall_app |done].
Qed.

Lemma footprint_emit paths e : file_free e → footprint paths (emit e).
Proof.
  intros He s. exists [e]. simpl. split_and!; [done| |by destruct e].
  apply Forall_singleton. by destruct e.
Qed.

Lemma footprint_write_file paths path content :
  path ∈ paths → footprint paths (write_file path content).
Proof.
  intros Hin s. exists [EvCreate path]. simpl.
  split_and!; [done|by apply Forall_singleton|by rewrite dom_insert_L].
Qed.

Lemma footprint_remove_file paths path :
  path ∈ paths → footprint paths (remove_file path).
Proof.
  intros Hin s. exists [EvUnlink path]. simpl.
  split_and!; [done|by apply Forall_singleton|by rewrite dom_delete_L].
Qed.

Lemma footprint_shell paths effects : footprint paths (shell effects).
Proof.
  intros s. exists (shell_events effects). rewrite shell_run. simpl.
  split_and!; [done| |apply disk_shell_events].
  unfold shell_events. apply Forall_fmap, Forall_true. by intros [].
Qed.

Lemma footprint_peek paths path : footprint paths (peek path).
Proof. intros s. exists []. simpl. by rewrite app_nil_r. Qed.

Lemma footprint_date_now paths w : footprint paths (date_now w).
Proof. intros s. exists []. simpl. by rewrite app_nil_r. Qed.

Lemma footprint_put_object paths bucket key content opts :
  footprint paths (put_object bucket key content opts).
Proof.
  intros s. exists []. unfold put_object.
  destruct (to_string key); [destruct (_ || _)|]; simpl; by rewrite app_nil_r.
Qed.

(** Decomposes a footprint goal along the structure of the computation. *)
Ltac footprint :=
  repeat first
    [ apply footprint_bind; [|intros ?]
    | apply footprint_try_catch; [|intros ?]
    | apply footprint_ret | apply footprint_throw | apply footprint_pending
    | apply footprint_fatal
    | apply footprint_emit; exact I
    | apply footprint_write_file; set_solver
    | apply footprint_remove_file; set_solver
    | apply footprint_shell
    | apply footprint_peek | apply footprint_date_now | apply footprint_put_object
    | progress unfold attempt, pipeline, on_error, cleanup, when, existsSync, unlinkSync,
        statSync, upload, getPublicUrl, execAsync, pipe_to_file, fetch, leave_file,
        res_json, console_log, template
    | match goal with
      | |- footprint _ (match ?x with _ => _ end) => destruct x
      end ].

Lemma attempt_footprint w line inputUrl command key ctype success tempInput tempOutput :
  footprint {[tempInput; tempOutput]}
    (attempt w line inputUrl command key ctype success tempInput tempOutput).
Proof. footprint. Qed.

(** ** Observing a trace *)

Lemma collect_app {B : Type} (f : Event → option B) t1 t2 :
  collect f (t1 ++ t2) = collect f t1 ++ collect f t2.
Proof.
  induction t1 as [|e t1 IH]; [done|]. simpl. destruct (f e); simpl; by rewrite IH.
Qed.

Lemma created_silent {B : Type} (f : Event → option B) path written :
  (∀ p, f (EvCreate p) = None) → collect f (created path written) = [].
Proof. intros Hf. destruct written; simpl; by rewrite ?Hf. Qed.

Lemma unlinks_silent {B : Type} (f : Event → option B) tempInput tempOutput files :
  (∀ p, f (EvUnlink p) = None) → collect f (unlinks tempInput tempOutput files) = [].
Proof.
  intros Hf. unfold unlinks. rewrite collect_app.
  destruct (files !! _), (delete _ _ !! _); simpl; by rewrite ?Hf.
Qed.

Lemma shell_silent {B : Type} (f : Event → option B) effects :
  (∀ p a, f (EvShell p a) = None) → collect f (shell_events effects) = [].
Proof.
  intros Hf. unfold shell_events.
  induction effects as [|[path after] effects IH]; simpl; [done|]. by rewrite Hf.
Qed.

Lemma news_run s r evs : trace r.2 = trace s ++ evs → news s r = evs.
Proof. intros H. unfold news. rewrite H. apply drop_app_length. Qed.

(** Computes what the observers see of an explicit trace. *)
Ltac observe :=
  unfold responses, execs, uploads, fetches, creations;
  repeat (progress (simpl;
                    rewrite ?collect_app, ?created_silent, ?unlinks_silent, ?shell_silent
                      by done));
  simpl.

Lemma answered_single status b : answered status b [EvRespond status b].
Proof. by exists []. Qed.

Lemma answered_app status b l evs :
  responses l = [] → answered status b evs → answered status b (l ++ evs).
Proof.
  intros Hl (pre & -> & Hpre). exists (l ++ pre). split; [by rewrite app_assoc|].
  unfold responses in *. by rewrite collect_app, Hl, Hpre.
Qed.

Lemma answered_cons status b e evs :
  responses [e] = [] → answered status b evs → answered status b (e :: evs).
Proof. intros. by apply (answered_app _ _ [e]). Qed.

Lemma answered_responses status b evs :
  answered status b evs → responses evs = [(status, b)].
Proof.
  intros (pre & -> & Hpre). unfold responses in *. by rewrite collect_app, Hpre.
Qed.

Lemma answered_last status b evs :
  answered status b evs → last evs = Some (EvRespond status b).
Proof. intros (pre & -> & _). apply last_snoc. Qed.


Ltac answered :=
  repeat first
    [ apply answered_single
    | apply answered_cons; [done|]
    | apply answered_app; [by observe|] ].

Lemma scratch_gone tempInput tempOutput (files : gmap string string) :
  delete tempOutput (delete tempInput files) !! tempInput = None
  ∧ delete tempOutput (delete tempInput files) !! tempOutput = None.
Proof.
  split; [|apply lookup_delete_eq].
  destruct (decide (tempOutput = tempInput)) as [->|Hne]; [apply lookup_delete_eq|].
  rewrite lookup_delete_ne by done. apply lookup_delete_eq.
Qed.

(** ** The shape of every run of a try block under its catch block *)

Ltac shape_pending :=
  left; split; [erewrite news_run by (simpl; reflexivity); by observe|by left].

Ltac shape_fatal :=
  left; split; [erewrite news_run by (simpl; reflexivity); by observe
               |right; by eexists _, _].

Ltac shape_answered :=
  right; eexists _, _; erewrite news_run by (simpl; reflexivity);
  split_and!; [done | answered | auto | apply scratch_gone | apply scratch_gone].

(** A run of a try block under its catch block either sends no response
    (a promise never settles, or the read side of the download fails and
    ends the process), or returns after exactly one response, a 200 or a
    500, sent once both scratch files are gone. *)
Lemma attempt_shape w line inputUrl command key ctype success tempInput tempOutput s :
  let r := attempt w line inputUrl command key ctype success tempInput tempOutput s in
  (responses (news s r) = []
   ∧ (r.1 = Pending
      ∨ ∃ e written, r.1 = Fatal e ∧ stream_outcome w = StreamCrash e written))
  ∨ (∃ status b,
       r.1 = Ok tt ∧ answered status b (news s r) ∧ (status = 200 ∨ status = 500)
       ∧ fs r.2 !! tempInput = None ∧ fs r.2 !! tempOutput = None).
Proof.
  unfold attempt, pipeline. exec.
  destruct line as [line|]; exec; [|shape_answered].
  destruct (fetch_outcome w) as [|e|[] [bytes|]]; exec;
    [shape_pending|shape_answered| |shape_answered..].
  destruct (stream_outcome w) eqn:Hstream; exec;
    [shape_pending| |shape_answered|shape_fatal].
  destruct command as [command|]; exec; [|shape_answered].
  destruct (exec_outcome w) as [written|written|? ? written]; exec;
    [shape_pending| |shape_answered].
  destruct (left_on_disk tempOutput written _ !! tempOutput) eqn:Hout; exec;
    [|shape_answered].
  destruct (upload_outcome w); exec; [shape_pending|shape_answered..| ].
  rewrite Hout. exec. destruct (to_string key); exec; shape_answered.
Qed.

Lemma attempt_throws w line inputUrl command key ctype success tempInput tempOutput s e s' :
  pipeline w line inputUrl command key ctype success tempInput tempOutput s = (Throw e, s') →
  attempt w line inputUrl command key ctype success tempInput tempOutput s =
  on_error tempInput tempOutput e s'.
Proof. intros H. unfold attempt. by rewrite try_catch_run, H. Qed.

Lemma attempt_returns w line inputUrl command key ctype success tempInput tempOutput s s' :
  pipeline w line inputUrl command key ctype success tempInput tempOutput s = (Ok tt, s') →
  attempt w line inputUrl command key ctype success tempInput tempOutput s = (Ok tt, s').
Proof. intros H. unfold attempt. by rewrite try_catch_run, H. Qed.

(** A value without string form in the first line of the try block is
    answered 500 before anything else is done. *)
Lemma attempt_unrenderable w inputUrl command key ctype success tempInput tempOutput s :
  attempt w None inputUrl command key ctype success tempInput tempOutput s =
  (Ok tt,
   moved s (delete tempOutput (delete tempInput (fs s)))
     (unlinks tempInput tempOutput (fs s)
        ++ [EvRespond 500 (ErrorBody "Cannot convert object to primitive value" None)])).
Proof. unfold attempt, pipeline. by exec. Qed.

Ltac not_200 := try (erewrite news_run by (simpl; reflexivity); observe; discriminate).

(** A 200 is sent only when every template had its text and every stage
    went through. *)
Lemma attempt_200_inv w line inputUrl command key ctype success tempInput tempOutput s b :
  let r := attempt w line inputUrl command key ctype success tempInput tempOutput s in
  responses (news s r) = [(200, b)] →
  ∃ text c bytes written content name,
    line = Some text
    ∧ command = Some c
    ∧ fetch_outcome w = FetchResponse true (Some bytes)
    ∧ stream_outcome w = StreamFinish
    ∧ exec_outcome w = ExecOk written
    ∧ transcoded w c tempInput tempOutput s bytes written !! tempOutput = Some content
    ∧ upload_outcome w = UploadOk
    ∧ to_string key = Some name.
Proof.
  unfold attempt, pipeline, transcoded. exec.
  destruct line as [text|]; exec; not_200.
  destruct (fetch_outcome w) as [|e|[] [bytes|]]; exec; not_200.
  destruct (stream_outcome w); exec; not_200.
  destruct command as [c|]; exec; not_200.
  destruct (exec_outcome w) as [written|written|? ? written]; exec; not_200.
  destruct (left_on_disk tempOutput written _ !! tempOutput) as [content|] eqn:Hout; exec;
    not_200.
  destruct (upload_outcome w); exec; not_200.
  rewrite Hout. exec. destruct (to_string key) as [name|]; exec; not_200.
  intros _. by exists text, c, bytes, written, content, name.
Qed.

(** ** The handlers in terms of their try block *)

Lemma clip_try_pipeline w inputUrl startTime endTime fileName tempInput tempOutput :
  clip_try w inputUrl startTime endTime fileName tempInput tempOutput =
  pipeline w (processing_line fileName startTime endTime) inputUrl
    (clip_command startTime endTime tempInput tempOutput) fileName
    "video/mp4" ClippedBody tempInput tempOutput.
Proof. reflexivity. Qed.

Lemma audio_try_pipeline w inputUrl storageFileName tempInput tempOutput :
  audio_try w inputUrl storageFileName tempInput tempOutput =
  pipeline w (extracting_line inputUrl) inputUrl
    (Some (audio_command tempInput tempOutput)) (JStr storageFileName)
    "audio/wav" AudioBody tempInput tempOutput.
Proof. reflexivity. Qed.

Lemma clip_refused dirname w body s :
  clip_rejects body = true →
  clip dirname w body s =
  (Ok tt, moved s (fs s)
     [EvRespond 400
        (ErrorBody "Missing required parameters: inputUrl, startTime, endTime, fileName"
           None)]).
Proof. intros H. unfold clip. fold (clip_rejects body). by rewrite H. Qed.

Lemma clip_accepted dirname w body s :
  clip_rejects body = false →
  clip dirname w body s =
  attempt w (clip_line body) (field body "inputUrl") (clip_command_of dirname w body s)
    (field body "fileName") "video/mp4" ClippedBody
    (clip_scratch dirname w s).1 (clip_scratch dirname w s).2 (ticked 2 s).
Proof.
  intros H. unfold clip. fold (clip_rejects body). rewrite H.
  do 2 (rewrite bind_run, date_now_run; cbv beta iota zeta).
  by rewrite clip_try_pipeline.
Qed.

Lemma extract_audio_refused dirname w body s :
  audio_rejects body = true →
  extract_audio dirname w body s =
  (Ok tt, moved s (fs s)
     [EvRespond 400 (ErrorBody "Missing required parameter: inputUrl" None)]).
Proof. intros H. unfold extract_audio. fold (audio_rejects body). by rewrite H. Qed.

Lemma extract_audio_accepted dirname w body s name :
  audio_rejects body = false →
  audio_key w body s = Some name →
  extract_audio dirname w body s =
  attempt w (extracting_line (field body "inputUrl")) (field body "inputUrl")
    (Some (audio_command (audio_scratch dirname w s).1 (audio_scratch dirname w s).2))
    (JStr name) "audio/wav" AudioBody
    (audio_scratch dirname w s).1 (audio_scratch dirname w s).2
    (ticked (audio_ticks body) s).
Proof.
  intros H Hkey. unfold extract_audio, audio_key, audio_ticks in *.
  fold (audio_rejects body). rewrite H.
  do 2 (rewrite bind_run, date_now_run; cbv beta iota zeta).
  rewrite bind_run. destruct (truthy (field body "fileName")).
  - rewrite template_run, Hkey. cbv beta iota zeta. by rewrite audio_try_pipeline.
  - rewrite bind_run, date_now_run. cbv beta iota zeta.
    rewrite ret_run. cbv beta iota zeta. injection Hkey as <-.
    by rewrite audio_try_pipeline.
Qed.

(** The storage name of [/extract-audio] is built outside the [try]
    block: when its template throws, the exception leaves the handler
    and nothing was done but two readings of the clock. *)
Lemma extract_audio_escapes dirname w body s :
  audio_rejects body = false →
  audio_key w body s = None →
  extract_audio dirname w body s = (Throw cannot_convert, ticked 2 s).
Proof.
  intros H Hkey. unfold extract_audio, audio_key in *.
  fold (audio_rejects body). rewrite H.
  do 2 (rewrite bind_run, date_now_run; cbv beta iota zeta).
  rewrite bind_run. destruct (truthy (field body "fileName")); [|done].
  by rewrite template_run, Hkey.
Qed.

(** What the rendering conditions say of the templates. *)
Lemma renders_text v : renders v = true ↔ ∃ text, to_string v = Some text.
Proof.
  unfold renders. destruct (to_string v) as [text|]; split; try done.
  - by exists text.
  - by intros [? ?].
Qed.

Lemma clip_rendered (body : gmap string JsValue) :
  clip_renders body = true →
  ∃ name a b,
    to_string (field body "fileName") = Some name
    ∧ to_string (field body "startTime") = Some a
    ∧ to_string (field body "endTime") = Some b
    ∧ clip_line body
      = Some ("[worker] Processing clip: " +:+ name +:+ " (" +:+ a +:+ "s - " +:+ b +:+ "s)")
    ∧ ∀ tempInput tempOutput,
        clip_command (field body "startTime") (field body "endTime") tempInput tempOutput
        = Some (clip_command_text a b tempInput tempOutput).
Proof.
  unfold clip_renders. rewrite !andb_true_iff, !renders_text.
  intros [[[name Hname] [a Ha]] [b Hb]]. exists name, a, b.
  unfold clip_line, processing_line, clip_command. rewrite Hname, Ha, Hb. by split_and!.
Qed.

Lemma clip_not_rendered (body : gmap string JsValue) :
  clip_renders body = false → clip_line body = None.
Proof.
  unfold clip_renders, renders, clip_line, processing_line.
  destruct (to_string (field body "fileName")),
    (to_string (field body "startTime")), (to_string (field body "endTime")); done.
Qed.

Lemma audio_rendered w (body : gmap string JsValue) s :
  audio_renders body = true →
  ∃ name url,
    audio_key w body s = Some name
    ∧ to_string (field body "inputUrl") = Some url
    ∧ extracting_line (field body "inputUrl")
      = Some ("[worker] Extracting audio from: " +:+ url).
Proof.
  unfold audio_renders, audio_key, named_audio, extracting_line.
  rewrite andb_true_iff, orb_true_iff, negb_true_iff, !renders_text.
  intros [Hname [url Hurl]]. rewrite Hurl.
  destruct (truthy (field body "fileName")).
  - destruct Hname as [|[name Hname]]; [done|]. rewrite Hname. by eexists _, _.
  - by eexists _, _.
Qed.

Lemma audio_not_rendered w (body : gmap string JsValue) s :
  audio_renders body = false →
  audio_key w body s = None
  ∨ extracting_line (field body "inputUrl") = None.
Proof.
  unfold audio_renders, audio_key, named_audio, extracting_line, renders.
  destruct (truthy (field body "fileName")), (to_string (field body "fileName")),
    (to_string (field body "inputUrl")); simpl; auto; done.
Qed.

(** ** Scratch files *)









(** ** Validation and the status of the response *)

Lemma field_absent (body : gmap string JsValue) name :
  body !! name = None → field body name = JUndefined.
Proof. intros H. unfold field. by rewrite H. Qed.

Lemma clip_rejects_absent (body : gmap string JsValue) :
  body !! "inputUrl" = None ∨ body !! "startTime" = None
  ∨ body !! "endTime" = None ∨ body !! "fileName" = None →
  clip_rejects body = true.
Proof.
  unfold clip_rejects.
  intros [H|[H|[H|H]]]; rewrite (field_absent _ _ H); simpl;
    by rewrite ?orb_true_r.
Qed.

Lemma audio_rejects_absent (body : gmap string JsValue) :
  body !! "inputUrl" = None → audio_rejects body = true.
Proof. intros H. unfold audio_rejects. by rewrite (field_absent _ _ H). Qed.

Lemma attempt_statuses w line inputUrl command key ctype success tempInput tempOutput s
    status b :
  (status, b) ∈ responses (news s (attempt w line inputUrl command key ctype success
                                      tempInput tempOutput s)) →
  status = 200 ∨ status = 500.
Proof.
  intros Hin.
  destruct (attempt_shape w line inputUrl command key ctype success tempInput tempOutput s)
    as [[Hnone _]|(st & b' & _ & Hans & Hst & _)].
  - rewrite Hnone in Hin. by apply elem_of_nil in Hin.
  - rewrite (answered_responses _ _ _ Hans) in Hin.
    apply list_elem_of_singleton in Hin. by injection Hin as -> _.
Qed.

Lemma pipeline_footprint w line inputUrl command key ctype success tempInput tempOutput :
  footprint {[tempInput; tempOutput]}
    (pipeline w line inputUrl command key ctype success tempInput tempOutput).
Proof. footprint. Qed.

(** Whatever the try block throws is answered with a 500 that carries
    the message and the captured diagnostics of the thrown value. *)
Lemma attempt_thrown w line inputUrl command key ctype success tempInput tempOutput s e s' :
  pipeline w line inputUrl command key ctype success tempInput tempOutput s = (Throw e, s') →
  responses (news s (attempt w line inputUrl command key ctype success
                       tempInput tempOutput s))
  = [(500, ErrorBody (message e) (stderr e))].
Proof.
  intros Hthrow.
  destruct (pipeline_footprint w line inputUrl command key ctype success
              tempInput tempOutput s) as (evs & Ht & _).
  rewrite Hthrow in Ht. simpl in Ht.
  pose proof (attempt_shape w line inputUrl command key ctype success
                tempInput tempOutput s) as Hshape.
  simpl in Hshape.
  rewrite (attempt_throws _ _ _ _ _ _ _ _ _ _ _ _ Hthrow), on_error_run in *.
  rewrite Ht, <- app_assoc in *.
  erewrite news_run in * by (simpl; reflexivity).
  destruct Hshape as [[_ [?|(? & ? & ? & _)]]|(st & b & _ & Hans & _)]; [done..|].
  pose proof (answered_last _ _ _ Hans) as Hlast.
  rewrite !app_assoc, last_snoc in Hlast. injection Hlast as <- <-.
  exact (answered_responses _ _ _ Hans).
Qed.

Lemma clip_400_inv dirname w body s b :
  (400, b) ∈ responses (news s (clip dirname w body s)) → clip_rejects body = true.
Proof.
  intros Hin. destruct (clip_rejects body) eqn:Hvalid; [done|].
  rewrite clip_accepted in Hin by done.
  by destruct (attempt_statuses _ _ _ _ _ _ _ _ _ (ticked 2 s) _ _ Hin).
Qed.

Lemma extract_audio_400_inv dirname w body s b :
  (400, b) ∈ responses (news s (extract_audio dirname w body s)) →
  audio_rejects body = true.
Proof.
  intros Hin. destruct (audio_rejects body) eqn:Hvalid; [done|].
  destruct (audio_key w body s) as [name|] eqn:Hkey.
  - rewrite (extract_audio_accepted _ _ _ _ name) in Hin by done.
    by destruct (attempt_statuses _ _ _ _ _ _ _ _ _ (ticked (audio_ticks body) s) _ _ Hin).
  - rewrite extract_audio_escapes in Hin by done.
    rewrite (news_run _ _ []) in Hin by (simpl; by rewrite app_nil_r).
    by apply elem_of_nil in Hin.
Qed.

(** C3 (what the code does). Not every failure of a validated request
    is answered 500.  An [/extract-audio] request whose [fileName] is
    the JSON object [{"toString": 1}] passes the validation and throws a
    [TypeError] where the storage name is built, before the [try] block:
    the exception leaves the handler and no response is sent, while
    [/clip] answers the same [fileName] with a 500, its template being
    inside the [try] block.  And when the connection drops while the
    body is read, the error of the readable stream has no listener: it
    ends the run with no response and leaves the partial download on
    disk. *)
Theorem failures_outside_try_get_no_response :
  let audio := extract_audio sample_dir world_ok opaque_name_audio_request (start ∅ ∅) in
  let sibling := clip sample_dir world_ok opaque_name_clip_request (start ∅ ∅) in
  let dropped := clip sample_dir world_read_error clip_request (start ∅ ∅) in
  audio_rejects opaque_name_audio_request = false
  ∧ audio.1 = Throw (Error "Cannot convert object to primitive value")
  ∧ news (start ∅ ∅) audio = []
  ∧ clip_rejects opaque_name_clip_request = false
  ∧ sibling.1 = Ok tt
  ∧ news (start ∅ ∅) sibling
    = [EvRespond 500 (ErrorBody "Cannot convert object to primitive value" None)]
  ∧ dropped.1 = Fatal (Error "terminated")
  ∧ responses (news (start ∅ ∅) dropped) = []
  ∧ fs dropped.2 !! "/srv/ffmpeg-worker/temp/input_1700000000000.mp4" = Some "source".
Proof. vm_compute. split_and!; reflexivity. Qed.

(** ** What a run asks of its collaborators *)

Ltac seen := erewrite news_run by (simpl; reflexivity); observe.

Ltac calls_case := seen; auto.

Lemma attempt_calls w line inputUrl command key ctype success tempInput tempOutput s :
  let evs := news s (attempt w line inputUrl command key ctype success
                       tempInput tempOutput s) in
  fetches evs = match line with Some _ => [inputUrl] | None => [] end
  ∧ (execs evs = [] ∨ ∃ c, command = Some c ∧ execs evs = [c])
  ∧ (uploads evs = []
     ∨ uploads evs = [("processed-videos", key, mkOptions ctype true "half")]).
Proof.
  unfold attempt, pipeline. exec.
  destruct line; exec; try calls_case.
  destruct (fetch_outcome w) as [|e|[] [bytes|]]; exec; try calls_case.
  destruct (stream_outcome w); exec; try calls_case.
  destruct command as [c|]; exec; try calls_case.
  assert (∀ l : list string, l = [c] → l = [] ∨ ∃ c', Some c = Some c' ∧ l = [c']) as Hc.
  { intros l ->. right. by exists c. }
  destruct (exec_outcome w) as [written|written|? ? written]; exec; try calls_case.
  destruct (left_on_disk tempOutput written _ !! tempOutput) eqn:Hout; exec;
    try calls_case.
  destruct (upload_outcome w); exec; try calls_case.
  rewrite Hout. exec. destruct (to_string key); exec; calls_case.
Qed.

Lemma attempt_reaches_exec w line inputUrl command key ctype success tempInput tempOutput s
    bytes :
  fetch_outcome w = FetchResponse true (Some bytes) →
  stream_outcome w = StreamFinish →
  execs (news s (attempt w (Some line) inputUrl (Some command) key ctype success
                   tempInput tempOutput s))
  = [command].
Proof.
  intros H1 H2. unfold attempt, pipeline. exec. rewrite H1. exec. rewrite H2. exec.
  destruct (exec_outcome w) as [written|written|? ? written]; exec; try calls_case.
  destruct (left_on_disk tempOutput written _ !! tempOutput) eqn:Hout; exec;
    try calls_case.
  destruct (upload_outcome w); exec; try calls_case.
  rewrite Hout. exec. destruct (to_string key); exec; calls_case.
Qed.

Lemma clip_fetches dirname w body s :
  fetches (news s (clip dirname w body s))
  = if clip_rejects body || negb (clip_renders body) then [] else [field body "inputUrl"].
Proof.
  destruct (clip_rejects body) eqn:Hvalid; simpl.
  { rewrite clip_refused by done. by seen. }
  rewrite clip_accepted by done.
  destruct (attempt_calls w (clip_line body) (field body "inputUrl")
              (clip_command_of dirname w body s) (field body "fileName") "video/mp4"
              ClippedBody (clip_scratch dirname w s).1 (clip_scratch dirname w s).2
              (ticked 2 s)) as (Hf & _).
  change (news (ticked 2 s)) with (news s) in Hf. rewrite Hf.
  destruct (clip_renders body) eqn:Hr; simpl.
  - by destruct (clip_rendered body Hr) as (? & ? & ? & _ & _ & _ & -> & _).
  - by rewrite (clip_not_rendered body Hr).
Qed.

Lemma extract_audio_fetches dirname w body s :
  fetches (news s (extract_audio dirname w body s))
  = if audio_rejects body || negb (audio_renders body) then []
    else [field body "inputUrl"].
Proof.
  destruct (audio_rejects body) eqn:Hvalid; simpl.
  { rewrite extract_audio_refused by done. by seen. }
  destruct (audio_key w body s) as [name|] eqn:Hkey.
  - rewrite (extract_audio_accepted _ _ _ _ name) by done.
    destruct (attempt_calls w (extracting_line (field body "inputUrl"))
                (field body "inputUrl")
                (Some (audio_command (audio_scratch dirname w s).1
                         (audio_scratch dirname w s).2))
                (JStr name) "audio/wav" AudioBody
                (audio_scratch dirname w s).1 (audio_scratch dirname w s).2
                (ticked (audio_ticks body) s)) as (Hf & _).
    change (news (ticked (audio_ticks body) s)) with (news s) in Hf. rewrite Hf.
    destruct (audio_renders body) eqn:Hr; simpl.
    + by destruct (audio_rendered w body s Hr) as (? & ? & _ & _ & ->).
    + destruct (audio_not_rendered w body s Hr) as [Hn| ->]; [congruence|done].
  - rewrite extract_audio_escapes by done.
    rewrite (news_run _ _ []) by (simpl; by rewrite app_nil_r).
    destruct (audio_renders body) eqn:Hr; simpl; [|done].
    destruct (audio_rendered w body s Hr) as (? & ? & ? & _). congruence.
Qed.

(** ** Failures of the fetch and of the transcoder *)

Lemma attempt_fetch_failed w line inputUrl command key ctype success tempInput tempOutput s
    content :
  fetch_outcome w = FetchResponse false content ∨ fetch_outcome w = FetchResponse true None →
  attempt w (Some line) inputUrl command key ctype success tempInput tempOutput s =
  (Ok tt,
   moved s (delete tempOutput (delete tempInput (fs s)))
     (EvFetch inputUrl
        :: unlinks tempInput tempOutput (fs s)
        ++ [EvRespond 500
              (ErrorBody
                 match fetch_outcome w with
                 | FetchResponse false _ => "Failed to fetch video"
                 | _ => "No response body"
                 end None)])).
Proof. intros [H|H]; unfold attempt, pipeline; exec; rewrite H; by exec. Qed.

Lemma attempt_fetch_failure w line inputUrl command key ctype success tempInput tempOutput s
    content :
  fetch_outcome w = FetchResponse false content ∨ fetch_outcome w = FetchResponse true None →
  let evs := news s (attempt w line inputUrl command key ctype success
                       tempInput tempOutput s) in
  fetches evs ≠ [] →
  responses evs =
    [(500, ErrorBody match fetch_outcome w with
                     | FetchResponse false _ => "Failed to fetch video"
                     | _ => "No response body"
                     end None)]
  ∧ execs evs = [] ∧ uploads evs = [] ∧ creations evs = [].
Proof.
  intros Hfetch. destruct line as [line|]; simpl.
  - rewrite (attempt_fetch_failed _ _ _ _ _ _ _ _ _ _ _ Hfetch). by seen.
  - rewrite attempt_unrenderable. by seen.
Qed.

(** C4. On either endpoint, when the fetch of [inputUrl] is issued and
    resolves to a response that is not ok, or to one without body, the
    request is answered 500 with the message of the fetch failure, and
    neither the transcoder nor the upload is invoked, nor is any file
    created.  The fetch is issued for every validated request whose
    values have a string form (a value without one is answered 500
    before the fetch, or on [/extract-audio] throws before the [try]
    block). *)
Theorem fetch_failure_is_500 dirname w body s content :
  fetch_outcome w = FetchResponse false content ∨ fetch_outcome w = FetchResponse true None →
  (let evs := news s (clip dirname w body s) in
   fetches evs ≠ [] →
   responses evs =
     [(500, ErrorBody match fetch_outcome w with
                      | FetchResponse false _ => "Failed to fetch video"
                      | _ => "No response body"
                      end None)]
   ∧ execs evs = [] ∧ uploads evs = [] ∧ creations evs = [])
  ∧ (let evs := news s (extract_audio dirname w body s) in
     fetches evs ≠ [] →
     responses evs =
       [(500, ErrorBody match fetch_outcome w with
                        | FetchResponse false _ => "Failed to fetch video"
                        | _ => "No response body"
                        end None)]
     ∧ execs evs = [] ∧ uploads evs = [] ∧ creations evs = [])
  ∧ (clip_rejects body = false → clip_renders body = true →
     fetches (news s (clip dirname w body s)) = [field body "inputUrl"])
  ∧ (audio_rejects body = false → audio_renders body = true →
     fetches (news s (extract_audio dirname w body s)) = [field body "inputUrl"]).
Proof.
  intros Hfetch. split_and!.
  - intros evs. subst evs. destruct (clip_rejects body) eqn:Hvalid.
    { rewrite clip_refused by done. by seen. }
    rewrite clip_accepted by done.
    exact (attempt_fetch_failure _ _ _ _ _ _ _ _ _ (ticked 2 s) _ Hfetch).
  - intros evs. subst evs. destruct (audio_rejects body) eqn:Hvalid.
    { rewrite extract_audio_refused by done. by seen. }
    destruct (audio_key w body s) as [name|] eqn:Hkey.
    + rewrite (extract_audio_accepted _ _ _ _ name) by done.
      exact (attempt_fetch_failure _ _ _ _ _ _ _ _ _ (ticked (audio_ticks body) s) _ Hfetch).
    + rewrite extract_audio_escapes by done.
      by rewrite (news_run _ _ []) by (simpl; by rewrite app_nil_r).
  - intros Hvalid Hr. by rewrite clip_fetches, Hvalid, Hr.
  - intros Hvalid Hr. by rewrite extract_audio_fetches, Hvalid, Hr.
Qed.

Lemma fetch_failure_witness :
  responses (news (start ∅ ∅) (clip sample_dir world_not_found clip_request (start ∅ ∅)))
  = [(500, ErrorBody "Failed to fetch video" None)]
  ∧ execs (news (start ∅ ∅)
             (extract_audio sample_dir world_not_found audio_request (start ∅ ∅))) = []
  ∧ fetches (news (start ∅ ∅) (clip sample_dir world_not_found clip_request (start ∅ ∅)))
    = [JStr "https://cdn.example/v.mp4"].
Proof.
  destruct (fetch_failure_is_500 sample_dir world_not_found clip_request (start ∅ ∅)
              (Some "Not Found")) as (Hclip & _ & Hreach & _); [left; reflexivity|].
  destruct (fetch_failure_is_500 sample_dir world_not_found audio_request (start ∅ ∅)
              (Some "Not Found")) as (_ & Haudio & _); [left; reflexivity|].
  split_and!.
  - destruct Hclip as (H & _); [vm_compute; discriminate|]. exact H.
  - destruct Haudio as (_ & H & _); [vm_compute; discriminate|]. exact H.
  - apply Hreach; vm_compute; reflexivity.
Defined.

Lemma attempt_exec_failure w line inputUrl command key ctype success tempInput tempOutput s
    msg captured written :
  exec_outcome w = ExecFail msg captured written →
  let evs := news s (attempt w line inputUrl command key ctype success
                       tempInput tempOutput s) in
  execs evs ≠ [] →
  responses evs = [(500, ErrorBody msg (Some captured))] ∧ uploads evs = [].
Proof.
  intros Hexec. unfold attempt, pipeline. exec.
  destruct line; exec; [|by seen].
  destruct (fetch_outcome w) as [|e|[] [bytes|]]; exec; try by seen.
  destruct (stream_outcome w); exec; try by seen.
  destruct command; exec; [|by seen].
  rewrite Hexec. exec. by seen.
Qed.

(** C5. On either endpoint, when the transcoder subprocess is run and
    fails (it exits non-zero, or the shell does not find it), the
    request is answered 500 with the error message and the captured
    standard error of the subprocess, and no upload is requested.  The
    subprocess is run, once, for every validated request whose values
    have a string form and whose download finished. *)
Theorem transcode_failure_is_500 dirname w body s msg captured written :
  exec_outcome w = ExecFail msg captured written →
  (let evs := news s (clip dirname w body s) in
   execs evs ≠ [] →
   responses evs = [(500, ErrorBody msg (Some captured))] ∧ uploads evs = [])
  ∧ (let evs := news s (extract_audio dirname w body s) in
     execs evs ≠ [] →
     responses evs = [(500, ErrorBody msg (Some captured))] ∧ uploads evs = [])
  ∧ (∀ bytes,
       fetch_outcome w = FetchResponse true (Some bytes) →
       stream_outcome w = StreamFinish →
       (clip_rejects body = false → clip_renders body = true →
        length (execs (news s (clip dirname w body s))) = 1%nat)
       ∧ (audio_rejects body = false → audio_renders body = true →
          length (execs (news s (extract_audio dirname w body s))) = 1%nat)).
Proof.
  intros Hexec. split_and!.
  - intros evs. subst evs. destruct (clip_rejects body) eqn:Hvalid.
    { rewrite clip_refused by done. by seen. }
    rewrite clip_accepted by done.
    exact (attempt_exec_failure _ _ _ _ _ _ _ _ _ (ticked 2 s) _ _ _ Hexec).
  - intros evs. subst evs. destruct (audio_rejects body) eqn:Hvalid.
    { rewrite extract_audio_refused by done. by seen. }
    destruct (audio_key w body s) as [name|] eqn:Hkey.
    + rewrite (extract_audio_accepted _ _ _ _ name) by done.
      exact (attempt_exec_failure _ _ _ _ _ _ _ _ _ (ticked (audio_ticks body) s)
               _ _ _ Hexec).
    + rewrite extract_audio_escapes by done.
      by rewrite (news_run _ _ []) by (simpl; by rewrite app_nil_r).
  - intros bytes H1 H2. split; intros Hvalid Hr.
    + rewrite clip_accepted by done.
      destruct (clip_rendered body Hr) as (name & a & b & _ & _ & _ & Hline & Hcmd).
      unfold clip_command_of. rewrite Hline, Hcmd.
      change (news s) with (news (ticked 2 s)).
      by rewrite (attempt_reaches_exec _ _ _ _ _ _ _ _ _ (ticked 2 s) _ H1 H2).
    + destruct (audio_rendered w body s Hr) as (name & url & Hkey & _ & Hline).
      rewrite (extract_audio_accepted _ _ _ _ name) by done. rewrite Hline.
      change (news s) with (news (ticked (audio_ticks body) s)).
      by rewrite (attempt_reaches_exec _ _ _ _ _ _ _ _ _ (ticked (audio_ticks body) s)
                    _ H1 H2).
Qed.

Lemma transcode_failure_witness :
  responses (news (start ∅ ∅) (clip sample_dir world_exec_fails clip_request (start ∅ ∅)))
  = [(500, ErrorBody "Command failed: ffmpeg"
             (Some "Invalid data found when processing input"))]
  ∧ uploads (news (start ∅ ∅)
               (extract_audio sample_dir world_exec_fails audio_request (start ∅ ∅))) = []
  ∧ length (execs (news (start ∅ ∅)
                     (clip sample_dir world_exec_fails clip_request (start ∅ ∅)))) = 1%nat.
Proof.
  destruct (transcode_failure_is_500 sample_dir world_exec_fails clip_request (start ∅ ∅)
              "Command failed: ffmpeg" "Invalid data found when processing input"
              (Some "partial")) as (Hclip & _ & Hreach); [reflexivity|].
  destruct (transcode_failure_is_500 sample_dir world_exec_fails audio_request (start ∅ ∅)
              "Command failed: ffmpeg" "Invalid data found when processing input"
              (Some "partial")) as (_ & Haudio & _); [reflexivity|].
  split_and!.
  - destruct Hclip as (H & _); [vm_compute; discriminate|]. exact H.
  - destruct Haudio as (_ & H); [vm_compute; discriminate|]. exact H.
  - destruct (Hreach "source bytes") as [H _]; [reflexivity..|].
    apply H; vm_compute; reflexivity.
Defined.

(** ** The command line of [/clip] *)

Lemma clip_execs dirname w body s c :
  c ∈ execs (news s (clip dirname w body s)) → clip_command_of dirname w body s = Some c.
Proof.
  intros Hc. destruct (clip_rejects body) eqn:Hvalid.
  - rewrite clip_refused in Hc by done.
    erewrite news_run in Hc by (simpl; reflexivity). by apply elem_of_nil in Hc.
  - rewrite clip_accepted in Hc by done.
    destruct (attempt_calls w (clip_line body) (field body "inputUrl")
                (clip_command_of dirname w body s) (field body "fileName") "video/mp4"
                ClippedBody (clip_scratch dirname w s).1 (clip_scratch dirname w s).2
                (ticked 2 s)) as (_ & [Hex|(c' & Hcmd & Hex)] & _);
      change (news (ticked 2 s)) with (news s) in Hex; rewrite Hex in Hc.
    + by apply elem_of_nil in Hc.
    + apply list_elem_of_singleton in Hc. by subst.
Qed.

(** C10. The command line of [/clip] is the template with the values of
    [startTime] and [endTime] put in as they are, without quoting,
    escaping or any check that they are numbers: when [startTime] is
    the string [a], or the number that JavaScript prints as [a], and
    [endTime] likewise [b], every command the handler passes to the
    subprocess executor is the text below, with [a] and [b] verbatim,
    whatever characters they hold; and the executor is reached as soon as
    the request is valid, its [fileName] has a string form and the
    download has finished. *)
Theorem clip_command_is_interpolated dirname w body s (a b : string) :
  field body "startTime" = JStr a ∨ field body "startTime" = JNum a →
  field body "endTime" = JStr b ∨ field body "endTime" = JNum b →
  let command :=
    "ffmpeg -ss " +:+ a +:+ " -to " +:+ b
      +:+ " -i " +:+ dquote +:+ (clip_scratch dirname w s).1 +:+ dquote
      +:+ " -vf " +:+ dquote +:+ filterComplex +:+ dquote
      +:+ " -c:v libx264 -c:a aac -preset ultrafast -crf 30 -threads 1 -y "
      +:+ dquote +:+ (clip_scratch dirname w s).2 +:+ dquote in
  (∀ c, c ∈ execs (news s (clip dirname w body s)) → c = command)
  ∧ (clip_rejects body = false →
     renders (field body "fileName") = true →
     ∀ bytes,
       fetch_outcome w = FetchResponse true (Some bytes) →
       stream_outcome w = StreamFinish →
       execs (news s (clip dirname w body s)) = [command]).
Proof.
  intros Ha Hb command.
  assert (to_string (field body "startTime") = Some a) as Hsa.
  { by destruct Ha as [-> | ->]. }
  assert (to_string (field body "endTime") = Some b) as Hsb.
  { by destruct Hb as [-> | ->]. }
  assert (clip_command_of dirname w body s = Some command) as Hcmd.
  { unfold clip_command_of, clip_command. by rewrite Hsa, Hsb. }
  split.
  - intros c Hc. apply clip_execs in Hc. congruence.
  - intros Hvalid Hname bytes H1 H2. rewrite clip_accepted by done.
    apply renders_text in Hname as [name Hname].
    unfold clip_line, processing_line. rewrite Hname, Hsa, Hsb, Hcmd.
    exact (attempt_reaches_exec _ _ _ _ _ _ _ _ _ (ticked 2 s) _ H1 H2).
Qed.

Lemma clip_command_witness :
  execs (news (start ∅ ∅) (clip sample_dir world_injected injected_request (start ∅ ∅))) =
  ["ffmpeg -ss 0; touch /tmp/owned; -to $(id) -i "
     +:+ dquote +:+ "/srv/ffmpeg-worker/temp/input_1700000000000.mp4" +:+ dquote
     +:+ " -vf " +:+ dquote +:+ filterComplex +:+ dquote
     +:+ " -c:v libx264 -c:a aac -preset ultrafast -crf 30 -threads 1 -y "
     +:+ dquote +:+ "/srv/ffmpeg-worker/temp/output_1700000000001.mp4" +:+ dquote]
  ∧ execs (news (start ∅ ∅) (clip sample_dir world_ok numeric_request (start ∅ ∅))) =
    ["ffmpeg -ss 1.5 -to 1e+21 -i "
       +:+ dquote +:+ "/srv/ffmpeg-worker/temp/input_1700000000000.mp4" +:+ dquote
       +:+ " -vf " +:+ dquote +:+ filterComplex +:+ dquote
       +:+ " -c:v libx264 -c:a aac -preset ultrafast -crf 30 -threads 1 -y "
       +:+ dquote +:+ "/srv/ffmpeg-worker/temp/output_1700000000001.mp4" +:+ dquote].
Proof.
  split.
  - destruct (clip_command_is_interpolated sample_dir world_injected injected_request
                (start ∅ ∅) "0; touch /tmp/owned;" "$(id)") as [_ H];
      [left; reflexivity..|].
    rewrite (H eq_refl eq_refl "source bytes" eq_refl eq_refl). vm_compute. reflexivity.
  - destruct (clip_command_is_interpolated sample_dir world_ok numeric_request
                (start ∅ ∅) "1.5" "1e+21") as [_ H]; [right; reflexivity..|].
    rewrite (H eq_refl eq_refl "source bytes" eq_refl eq_refl). vm_compute. reflexivity.
Defined.

(** ** Presence and falsiness in the validation *)

Lemma clip_rejects_spec (body : gmap string JsValue) :
  clip_rejects body = true ↔
  truthy (field body "inputUrl") = false ∨ field body "startTime" = JUndefined
  ∨ field body "endTime" = JUndefined ∨ truthy (field body "fileName") = false.
Proof.
  unfold clip_rejects. rewrite !orb_true_iff, !negb_true_iff.
  assert (∀ v, is_undefined v = true ↔ v = JUndefined) as Hundef.
  { intros v. by destruct v. }
  rewrite !Hundef. tauto.
Qed.

(** C9. The validation of [/clip] compares [startTime] and [endTime]
    with [undefined] only, and tests [inputUrl] and [fileName] for
    falsiness.  So a request whose [startTime] is [0] or [null] passes:
    no 400 is sent, and the fetch is issued when [fileName] and
    [endTime] have a string form.  A request whose [fileName] or
    [inputUrl] is the empty string is answered 400 like one that lacks
    the field; [/extract-audio] treats an empty [inputUrl] the same
    way. *)
Theorem validation_presence_and_falsiness dirname w body s :
  (clip_rejects body = true ↔
   truthy (field body "inputUrl") = false ∨ field body "startTime" = JUndefined
   ∨ field body "endTime" = JUndefined ∨ truthy (field body "fileName") = false)
  ∧ (field body "startTime" = JNum "0" ∨ field body "startTime" = JNull →
     truthy (field body "inputUrl") = true →
     field body "endTime" ≠ JUndefined →
     truthy (field body "fileName") = true →
     clip_rejects body = false
     ∧ (∀ b, (400, b) ∉ responses (news s (clip dirname w body s)))
     ∧ (renders (field body "fileName") = true → renders (field body "endTime") = true →
        fetches (news s (clip dirname w body s)) = [field body "inputUrl"]))
  ∧ (field body "fileName" = JStr "" ∨ field body "inputUrl" = JStr "" →
     clip dirname w body s =
     (Ok tt, moved s (fs s)
        [EvRespond 400
           (ErrorBody "Missing required parameters: inputUrl, startTime, endTime, fileName"
              None)]))
  ∧ (field body "inputUrl" = JStr "" →
     extract_audio dirname w body s =
     (Ok tt, moved s (fs s)
        [EvRespond 400 (ErrorBody "Missing required parameter: inputUrl" None)])).
Proof.
  split_and!.
  - apply clip_rejects_spec.
  - intros Hstart Hurl Hend Hname.
    assert (clip_rejects body = false) as Hvalid.
    { apply not_true_is_false. rewrite clip_rejects_spec.
      intros [H|[H|[H|H]]]; [congruence| |done|congruence].
      destruct Hstart; congruence. }
    split_and!; [done| |].
    + intros b Hin. apply clip_400_inv in Hin. congruence.
    + intros Hrn Hre. rewrite clip_fetches, Hvalid. unfold clip_renders.
      rewrite Hrn, Hre. by destruct Hstart as [-> | ->].
  - intros H. apply clip_refused, clip_rejects_spec.
    destruct H as [->| ->]; auto.
  - intros H. apply extract_audio_refused. unfold audio_rejects. by rewrite H.
Qed.

Lemma validation_witness :
  fetches (news (start ∅ ∅) (clip sample_dir world_ok clip_request (start ∅ ∅)))
  = [JStr "https://cdn.example/v.mp4"]
  ∧ fetches (news (start ∅ ∅) (clip sample_dir world_ok null_start_request (start ∅ ∅)))
    = [JStr "https://cdn.example/v.mp4"]
  ∧ responses (news (start ∅ ∅)
                 (clip sample_dir world_ok empty_name_request (start ∅ ∅)))
    = [(400, ErrorBody "Missing required parameters: inputUrl, startTime, endTime, fileName"
               None)]
  ∧ responses (news (start ∅ ∅)
                 (extract_audio sample_dir world_ok empty_url_request (start ∅ ∅)))
    = [(400, ErrorBody "Missing required parameter: inputUrl" None)].
Proof.
  split_and!.
  - destruct (validation_presence_and_falsiness sample_dir world_ok clip_request
                (start ∅ ∅)) as (_ & H & _).
    destruct H as (_ & _ & H); [left; reflexivity|reflexivity|discriminate|reflexivity|].
    apply H; reflexivity.
  - destruct (validation_presence_and_falsiness sample_dir world_ok null_start_request
                (start ∅ ∅)) as (_ & H & _).
    destruct H as (_ & _ & H); [right; reflexivity|reflexivity|discriminate|reflexivity|].
    apply H; reflexivity.
  - destruct (validation_presence_and_falsiness sample_dir world_ok empty_name_request
                (start ∅ ∅)) as (_ & _ & H & _).
    rewrite H by (left; reflexivity). vm_compute. reflexivity.
  - destruct (validation_presence_and_falsiness sample_dir world_ok empty_url_request
                (start ∅ ∅)) as (_ & _ & _ & H).
    rewrite H by reflexivity. vm_compute. reflexivity.
Defined.

(** ** Scratch names and the clock *)

Lemma append_cons a s t : String a s +:+ t = String a (s +:+ t).
Proof. reflexivity. Qed.

Lemma length_append s t :
  String.length (s +:+ t) = (String.length s + String.length t)%nat.
Proof.
  induction s as [|a s IH]; [done|]. rewrite append_cons. simpl. by rewrite IH.
Qed.

Lemma append_inj_r s1 s2 t : s1 +:+ t = s2 +:+ t → s1 = s2.
Proof.
  revert s2. induction s1 as [|a s1 IH]; intros [|b s2] Heq; [done| | |].
  - apply (f_equal String.length) in Heq. rewrite !length_append in Heq.
    simpl in Heq. lia.
  - apply (f_equal String.length) in Heq. rewrite !length_append in Heq.
    simpl in Heq. lia.
  - rewrite !append_cons in Heq. injection Heq as -> Heq. f_equal. by apply IH.
Qed.

Lemma stamped_inj (prefix suffix : string) (t1 t2 : Z) :
  prefix +:+ pretty t1 +:+ suffix = prefix +:+ pretty t2 +:+ suffix → t1 = t2.
Proof.
  intros Heq. apply (inj (String.app prefix)) in Heq.
  apply append_inj_r in Heq. by apply (inj pretty) in Heq.
Qed.

Lemma path_join_inj dir a b : path_join dir a = path_join dir b → a = b.
Proof.
  unfold path_join. destruct (String.eqb dir "/"); intros Heq.
  - by apply (inj (String.app "/")) in Heq.
  - apply (inj (String.app dir)) in Heq. by apply (inj (String.app "/")) in Heq.
Qed.

(** The scratch paths of two requests differ as soon as their clock
    readings differ, and a [/clip] path is never an [/extract-audio]
    path, nor an input path an output path. *)
Lemma scratch_paths_apart dirname w1 s1 w2 s2 :
  (now w1 (reads s1) ≠ now w2 (reads s2) →
   (clip_scratch dirname w1 s1).1 ≠ (clip_scratch dirname w2 s2).1
   ∧ (audio_scratch dirname w1 s1).1 ≠ (audio_scratch dirname w2 s2).1)
  ∧ (now w1 (S (reads s1)) ≠ now w2 (S (reads s2)) →
     (clip_scratch dirname w1 s1).2 ≠ (clip_scratch dirname w2 s2).2
     ∧ (audio_scratch dirname w1 s1).2 ≠ (audio_scratch dirname w2 s2).2)
  ∧ (clip_scratch dirname w1 s1).1 ≠ (clip_scratch dirname w2 s2).2
  ∧ (audio_scratch dirname w1 s1).1 ≠ (audio_scratch dirname w2 s2).2
  ∧ (∀ p q, p ∈ [(clip_scratch dirname w1 s1).1; (clip_scratch dirname w1 s1).2] →
            q ∈ [(audio_scratch dirname w2 s2).1; (audio_scratch dirname w2 s2).2] →
            p ≠ q).
Proof.
  unfold clip_scratch, audio_scratch; simpl. split_and!.
  - intros Hne. split; intros Heq%path_join_inj%stamped_inj; done.
  - intros Hne. split; intros Heq%path_join_inj%stamped_inj; done.
  - by intros Heq%path_join_inj.
  - intros Heq%path_join_inj. unfold audio_input_name, audio_output_name in Heq.
    by apply (inj (String.app "audio_")) in Heq.
  - intros p q Hp Hq ->.
    rewrite !elem_of_cons, elem_of_nil in Hp, Hq.
    destruct Hp as [->|[->|[]]], Hq as [Hq|[Hq|[]]]; by apply path_join_inj in Hq.
Qed.

(** C2 (what the code does). Two [/clip] requests served within the same
    millisecond get the same two scratch paths.  Here the first request
    is still waiting for its transcoder, with its downloaded input on
    disk, when the second one runs to its response: the second request
    has then overwritten and deleted the input file of the first. *)
Theorem same_millisecond_requests_share_scratch :
  let first := clip sample_dir world_transcoding clip_request (start ∅ ∅) in
  let second := clip sample_dir world_same_ms other_clip_request first.2 in
  let shared := "/srv/ffmpeg-worker/temp/input_1700000000000.mp4" in
  clip_scratch sample_dir world_transcoding (start ∅ ∅)
  = clip_scratch sample_dir world_same_ms first.2
  ∧ first.1 = Pending
  ∧ fs first.2 !! shared = Some "first source"
  ∧ creations (news first.2 second)
    = [shared; "/srv/ffmpeg-worker/temp/output_1700000000000.mp4"]
  ∧ responses (news first.2 second)
    = [(200, ClippedBody (sample_url "processed-videos" (JStr "clips/b.mp4")))]
  ∧ fs second.2 !! shared = None.
Proof. vm_compute. split_and!; reflexivity. Qed.

(** ** Successful requests *)

Lemma attempt_success w line inputUrl command key ctype success tempInput tempOutput s
    bytes written content name :
  fetch_outcome w = FetchResponse true (Some bytes) →
  stream_outcome w = StreamFinish →
  exec_outcome w = ExecOk written →
  transcoded w command tempInput tempOutput s bytes written !! tempOutput = Some content →
  upload_outcome w = UploadOk →
  to_string key = Some name →
  attempt w (Some line) inputUrl (Some command) key ctype success tempInput tempOutput s =
  (Ok tt,
   mkState
     (delete tempOutput
        (delete tempInput (transcoded w command tempInput tempOutput s bytes written)))
     (<[("processed-videos", name) := mkObject content ctype]> (storage s))
     (reads s)
     (trace s
        ++ [EvFetch inputUrl; EvCreate tempInput; EvExec command]
        ++ shell_events (shell_effects w command)
        ++ created tempOutput written
        ++ [EvStat tempOutput;
            EvUpload "processed-videos" key tempOutput (mkOptions ctype true "half");
            EvGetPublicUrl "processed-videos" key]
        ++ unlinks tempInput tempOutput
             (transcoded w command tempInput tempOutput s bytes written)
        ++ [EvRespond 200 (success (public_url w "processed-videos" key))])).
Proof.
  intros H1 H2 H3 H4 H5 H6. apply attempt_returns. by apply pipeline_success.
Qed.

(** What a 200 of a try block tells: the one upload, the body of the
    response, and the object in the bucket. *)
Lemma attempt_200 w line inputUrl command key ctype success tempInput tempOutput s b :
  let r := attempt w line inputUrl command key ctype success tempInput tempOutput s in
  responses (news s r) = [(200, b)] →
  uploads (news s r) = [("processed-videos", key, mkOptions ctype true "half")]
  ∧ b = success (public_url w "processed-videos" key)
  ∧ ∃ c bytes written content name,
      command = Some c
      ∧ exec_outcome w = ExecOk written
      ∧ transcoded w c tempInput tempOutput s bytes written !! tempOutput = Some content
      ∧ to_string key = Some name
      ∧ storage r.2
        = <[("processed-videos", name) := mkObject content ctype]> (storage s).
Proof.
  intros r Hok.
  destruct (attempt_200_inv _ _ _ _ _ _ _ _ _ _ _ Hok)
    as (text & c & bytes & written & content & name
        & -> & -> & H1 & H2 & H3 & H4 & H5 & H6).
  subst r. rewrite (attempt_success _ _ _ _ _ _ _ _ _ _ _ _ _ _ H1 H2 H3 H4 H5 H6) in *.
  erewrite news_run in * by (simpl; reflexivity).
  revert Hok. observe. intros [= <-].
  split_and!; [done..|]. by exists c, bytes, written, content, name.
Qed.

Lemma refused_not_200 s msg b :
  responses (news s (Ok tt, moved s (fs s) [EvRespond 400 (ErrorBody msg None)]))
  ≠ [(200, b)].
Proof. erewrite news_run by (simpl; reflexivity). by observe. Qed.

Lemma clip_200 dirname w body s b :
  let r := clip dirname w body s in
  responses (news s r) = [(200, b)] →
  uploads (news s r)
  = [("processed-videos", field body "fileName", mkOptions "video/mp4" true "half")]
  ∧ b = ClippedBody (public_url w "processed-videos" (field body "fileName"))
  ∧ ∃ c bytes written content name,
      clip_command_of dirname w body s = Some c
      ∧ exec_outcome w = ExecOk written
      ∧ transcoded w c (clip_scratch dirname w s).1 (clip_scratch dirname w s).2 (ticked 2 s)
          bytes written !! (clip_scratch dirname w s).2 = Some content
      ∧ to_string (field body "fileName") = Some name
      ∧ storage r.2
        = <[("processed-videos", name) := mkObject content "video/mp4"]> (storage s).
Proof.
  intros r Hok. subst r. destruct (clip_rejects body) eqn:Hvalid.
  { rewrite clip_refused in Hok by done. by apply refused_not_200 in Hok. }
  rewrite clip_accepted in * by done.
  exact (attempt_200 _ _ _ _ _ _ _ _ _ (ticked 2 s) b Hok).
Qed.

Lemma extract_audio_200 dirname w body s b :
  let r := extract_audio dirname w body s in
  responses (news s r) = [(200, b)] →
  ∃ name,
    audio_key w body s = Some name
    ∧ uploads (news s r)
      = [("processed-videos", JStr name, mkOptions "audio/wav" true "half")]
    ∧ b = AudioBody (public_url w "processed-videos" (JStr name))
    ∧ ∃ bytes written content,
        exec_outcome w = ExecOk written
        ∧ transcoded w (audio_command (audio_scratch dirname w s).1
                          (audio_scratch dirname w s).2)
            (audio_scratch dirname w s).1 (audio_scratch dirname w s).2
            (ticked (audio_ticks body) s) bytes written !! (audio_scratch dirname w s).2
          = Some content
        ∧ storage r.2
          = <[("processed-videos", name) := mkObject content "audio/wav"]> (storage s).
Proof.
  intros r Hok. subst r. destruct (audio_rejects body) eqn:Hvalid.
  { rewrite extract_audio_refused in Hok by done. by apply refused_not_200 in Hok. }
  destruct (audio_key w body s) as [name|] eqn:Hkey.
  - rewrite (extract_audio_accepted _ _ _ _ name) in * by done.
    destruct (attempt_200 _ _ _ _ _ _ _ _ _ (ticked (audio_ticks body) s) b Hok)
      as (Hup & Hb & c & bytes & written & content & name' & [= <-] & Hx & Hout & [= <-] & Hst).
    exists name. split_and!; [done..|]. by exists bytes, written, content.
  - rewrite extract_audio_escapes in Hok by done.
    by rewrite (news_run _ _ []) in Hok by (simpl; by rewrite app_nil_r).
Qed.

(** C6 (as the code has it). A successful [/extract-audio] request
    uploads once, to the bucket "processed-videos", with content type
    "audio/wav" and overwrite enabled, under the key
    [`${fileName}_audio.wav`] when [fileName] is truthy and under
    [`audio_${Date.now()}.wav`], built from the third clock reading of
    the request, otherwise (a [fileName] that is absent, empty, [0],
    [false] or [null]); the response is 200 with the public URL of that
    key as [audioUrl], and the bucket holds an object under the key. *)
Theorem audio_storage_key dirname w body s b :
  let r := extract_audio dirname w body s in
  responses (news s r) = [(200, b)] →
  ∃ name,
    (if truthy (field body "fileName")
     then ∃ text, to_string (field body "fileName") = Some text
                  ∧ name = text +:+ "_audio.wav"
     else name = "audio_" +:+ pretty (now w (S (S (reads s)))) +:+ ".wav")
    ∧ uploads (news s r)
      = [("processed-videos", JStr name, mkOptions "audio/wav" true "half")]
    ∧ b = AudioBody (public_url w "processed-videos" (JStr name))
    ∧ ∃ content,
        storage r.2 !! ("processed-videos", name) = Some (mkObject content "audio/wav").
Proof.
  intros r Hok.
  destruct (extract_audio_200 dirname w body s b Hok)
    as (name & Hkey & Hup & Hb & _ & _ & content & _ & _ & Hst).
  exists name. split_and!; [|done..|].
  - unfold audio_key, named_audio in Hkey.
    destruct (truthy (field body "fileName")).
    + destruct (to_string (field body "fileName")) as [text|]; [|done].
      injection Hkey as <-. by exists text.
    + by injection Hkey as <-.
  - exists content. subst r. rewrite Hst. apply lookup_insert_eq.
Qed.

Lemma audio_storage_key_witness :
  (∃ name,
     (∃ text, Some "talk" = Some text ∧ name = text +:+ "_audio.wav")
     ∧ uploads (news (start ∅ ∅)
                  (extract_audio sample_dir world_ok audio_request (start ∅ ∅)))
       = [("processed-videos", JStr name, mkOptions "audio/wav" true "half")])
  ∧ (∃ name,
       name = "audio_1700000000002.wav"
       ∧ uploads (news (start ∅ ∅)
                    (extract_audio sample_dir world_ok anonymous_audio_request
                       (start ∅ ∅)))
         = [("processed-videos", JStr name, mkOptions "audio/wav" true "half")]).
Proof.
  split.
  - destruct (audio_storage_key sample_dir world_ok audio_request (start ∅ ∅)
                (AudioBody (sample_url "processed-videos" (JStr "talk_audio.wav"))))
      as (name & Hname & Hup & _); [vm_compute; reflexivity|].
    exists name. split; [exact Hname|exact Hup].
  - destruct (audio_storage_key sample_dir world_ok anonymous_audio_request (start ∅ ∅)
                (AudioBody (sample_url "processed-videos" (JStr "audio_1700000000002.wav"))))
      as (name & Hname & Hup & _); [vm_compute; reflexivity|].
    exists name. split; [exact Hname|exact Hup].
Defined.

(** C6 (as stated) fails: a request that gives [fileName] as the empty
    string succeeds, and its one upload goes under a generated key, not
    under ["_audio.wav"]. *)
Lemma empty_fileName_gets_generated_key :
  let r := extract_audio sample_dir world_ok empty_audio_name_request (start ∅ ∅) in
  empty_audio_name_request !! "fileName" = Some (JStr "")
  ∧ responses (news (start ∅ ∅) r)
    = [(200, AudioBody (sample_url "processed-videos" (JStr "audio_1700000000002.wav")))]
  ∧ upload_keys (news (start ∅ ∅) r) = [JStr "audio_1700000000002.wav"]
  ∧ upload_keys (news (start ∅ ∅) r) ≠ [JStr ("" +:+ "_audio.wav")].
Proof. vm_compute. split_and!; [reflexivity..|discriminate]. Qed.

(** The generated keys of two requests of the same millisecond are the
    same key: the second upload replaces the object of the first. *)
Lemma generated_keys_collide_same_ms :
  let first := extract_audio sample_dir world_same_ms anonymous_audio_request (start ∅ ∅) in
  let second := extract_audio sample_dir world_same_ms anonymous_audio_request first.2 in
  upload_keys (news (start ∅ ∅) first) = [JStr "audio_1700000000000.wav"]
  ∧ upload_keys (news first.2 second) = [JStr "audio_1700000000000.wav"].
Proof. vm_compute. split; reflexivity. Qed.

(** The generated keys differ as soon as the clock readings differ. *)
Lemma generated_keys_apart (t1 t2 : Z) :
  t1 ≠ t2 → audio_storage_name t1 ≠ audio_storage_name t2.
Proof. intros Hne Heq%stamped_inj. done. Qed.

Lemma clip_uploads dirname w body s u :
  u ∈ uploads (news s (clip dirname w body s)) →
  u = ("processed-videos", field body "fileName", mkOptions "video/mp4" true "half").
Proof.
  intros Hu. destruct (clip_rejects body) eqn:Hvalid.
  - rewrite clip_refused in Hu by done.
    erewrite news_run in Hu by (simpl; reflexivity). by apply elem_of_nil in Hu.
  - rewrite clip_accepted in Hu by done.
    destruct (attempt_calls w (clip_line body) (field body "inputUrl")
                (clip_command_of dirname w body s) (field body "fileName") "video/mp4"
                ClippedBody (clip_scratch dirname w s).1 (clip_scratch dirname w s).2
                (ticked 2 s)) as (_ & _ & [Hup|Hup]);
      change (news (ticked 2 s)) with (news s) in Hup; rewrite Hup in Hu.
    + by apply elem_of_nil in Hu.
    + by apply list_elem_of_singleton in Hu.
Qed.

(** C7. Every upload of [/clip] goes to the bucket "processed-videos",
    under the key [fileName], with content type "video/mp4" and overwrite
    enabled, and a successful request uploads once and answers with the
    public URL of that key.  Hence, when the same request succeeds twice
    against the same storage service, both uploads go to the same key,
    both responses carry the same URL, and the object the first run
    stored under the name of the key is replaced by the output of the
    second run's transcoder. *)
Theorem repeated_clip_overwrites dirname w1 w2 body s :
  let first := clip dirname w1 body s in
  let second := clip dirname w2 body first.2 in
  let key := field body "fileName" in
  let target := ("processed-videos", key, mkOptions "video/mp4" true "half") in
  (∀ u, u ∈ uploads (news s first) ++ uploads (news first.2 second) → u = target)
  ∧ (∀ b1 b2,
       public_url w1 = public_url w2 →
       responses (news s first) = [(200, b1)] →
       responses (news first.2 second) = [(200, b2)] →
       uploads (news s first) = [target]
       ∧ uploads (news first.2 second) = [target]
       ∧ b1 = ClippedBody (public_url w1 "processed-videos" key)
       ∧ b2 = b1
       ∧ ∃ name,
           to_string key = Some name
           ∧ (∃ content,
                storage first.2 !! ("processed-videos", name)
                = Some (mkObject content "video/mp4"))
           ∧ (∀ output,
                exec_outcome w2 = ExecOk (Some output) →
                storage second.2 !! ("processed-videos", name)
                = Some (mkObject output "video/mp4"))).
Proof.
  intros first second key target. split.
  { intros u [Hu|Hu]%elem_of_app; by apply clip_uploads in Hu. }
  intros b1 b2 Hurl Hok1 Hok2.
  destruct (clip_200 dirname w1 body s b1 Hok1)
    as (Hup1 & Hb1 & _ & _ & _ & content1 & name & _ & _ & _ & Hname & Hst1).
  destruct (clip_200 dirname w2 body first.2 b2 Hok2)
    as (Hup2 & Hb2 & c & bytes & written & content2 & name' & _ & Hexec & Hout & Hname'
        & Hst2).
  split_and!; [done|done|done|by rewrite Hb1, Hb2, Hurl|].
  exists name. split_and!; [done| |].
  - exists content1. fold first in Hst1. rewrite Hst1. apply lookup_insert_eq.
  - intros output Hexec'. fold second in Hst2.
    assert (name' = name) as -> by congruence.
    rewrite Hst2, lookup_insert_eq.
    rewrite Hexec' in Hexec. injection Hexec as <-.
    unfold transcoded in Hout. simpl in Hout. rewrite lookup_insert_eq in Hout.
    by injection Hout as <-.
Qed.

Lemma repeated_clip_witness :
  let first := clip sample_dir world_ok clip_request (start ∅ ∅) in
  let second := clip sample_dir world_again clip_request first.2 in
  (∃ name,
     Some "clips/a.mp4" = Some name
     ∧ (∃ content,
          storage first.2 !! ("processed-videos", name)
          = Some (mkObject content "video/mp4"))
     ∧ storage second.2 !! ("processed-videos", name)
       = Some (mkObject "transcoded again" "video/mp4"))
  ∧ responses (news first.2 second) = responses (news (start ∅ ∅) first).
Proof.
  intros first second.
  destruct (repeated_clip_overwrites sample_dir world_ok world_again clip_request
              (start ∅ ∅)) as [_ H].
  destruct (H (ClippedBody (sample_url "processed-videos" (JStr "clips/a.mp4")))
              (ClippedBody (sample_url "processed-videos" (JStr "clips/a.mp4"))))
    as (_ & _ & _ & _ & name & Hname & Hfirst & Hsecond);
    [reflexivity|vm_compute; reflexivity..|].
  split.
  - exists name. split_and!; [exact Hname|exact Hfirst|].
    apply (Hsecond "transcoded again"). reflexivity.
  - vm_compute. reflexivity.
Defined.

(** * Further properties of the handlers *)

Ltac observe_more := unfold resolutions, removals, calls; observe.

Ltac seen_more := erewrite news_run by (simpl; reflexivity); observe_more.

Lemma clip_scratch_distinct dirname w s :
  (clip_scratch dirname w s).1 ≠ (clip_scratch dirname w s).2.
Proof. unfold clip_scratch. simpl. by intros Heq%path_join_inj. Qed.

Lemma audio_scratch_distinct dirname w s :
  (audio_scratch dirname w s).1 ≠ (audio_scratch dirname w s).2.
Proof.
  unfold audio_scratch. simpl. intros Heq%path_join_inj.
  unfold audio_input_name, audio_output_name in Heq.
  by apply (inj (String.app "audio_")) in Heq.
Qed.

Lemma shelled_nil files : shelled [] files = files.
Proof. reflexivity. Qed.

Lemma shell_events_nil : shell_events [] = [].
Proof. reflexivity. Qed.

Lemma clip_line_none (body : gmap string JsValue) :
  clip_line body = None ↔ clip_renders body = false.
Proof.
  split; [|apply clip_not_rendered].
  intros Hline. destruct (clip_renders body) eqn:Hr; [|done].
  destruct (clip_rendered body Hr) as (? & ? & ? & _ & _ & _ & ? & _). congruence.
Qed.

Lemma audio_renders_false w (body : gmap string JsValue) s :
  audio_renders body = false ↔
  audio_key w body s = None ∨ extracting_line (field body "inputUrl") = None.
Proof.
  split; [apply audio_not_rendered|].
  intros Hnone. destruct (audio_renders body) eqn:Hr; [|done].
  destruct (audio_rendered w body s Hr) as (? & ? & ? & _ & ?).
  destruct Hnone; congruence.
Qed.

(** ** The command of [/extract-audio] *)

Lemma extract_audio_execs dirname w body s c :
  c ∈ execs (news s (extract_audio dirname w body s)) →
  c = audio_command (audio_scratch dirname w s).1 (audio_scratch dirname w s).2.
Proof.
  intros Hc. destruct (audio_rejects body) eqn:Hvalid.
  { rewrite extract_audio_refused in Hc by done.
    erewrite news_run in Hc by (simpl; reflexivity). by apply elem_of_nil in Hc. }
  destruct (audio_key w body s) as [name|] eqn:Hkey.
  - rewrite (extract_audio_accepted _ _ _ _ name) in Hc by done.
    destruct (attempt_calls w (extracting_line (field body "inputUrl"))
                (field body "inputUrl")
                (Some (audio_command (audio_scratch dirname w s).1
                         (audio_scratch dirname w s).2))
                (JStr name) "audio/wav" AudioBody
                (audio_scratch dirname w s).1 (audio_scratch dirname w s).2
                (ticked (audio_ticks body) s)) as (_ & [Hex|(c' & Hcmd & Hex)] & _);
      change (news (ticked (audio_ticks body) s)) with (news s) in Hex; rewrite Hex in Hc.
    + by apply elem_of_nil in Hc.
    + apply list_elem_of_singleton in Hc. congruence.
  - rewrite extract_audio_escapes in Hc by done.
    rewrite (news_run _ _ []) in Hc by (simpl; by rewrite app_nil_r).
    by apply elem_of_nil in Hc.
Qed.

(** X1. The command line of [/extract-audio] carries nothing of the
    request: every command the handler passes to the subprocess executor
    is the text below, built from the two scratch paths only, so two
    requests that start in the same state with the same clock run the
    same command whatever their bodies hold; and the executor is reached
    as soon as the request is valid, its [inputUrl] and its [fileName],
    if truthy, have a string form, and the download has finished. *)
Theorem extract_audio_command_ignores_request dirname w body s :
  let command :=
    "ffmpeg -i " +:+ dquote +:+ (audio_scratch dirname w s).1 +:+ dquote
      +:+ " -ac 1 -ar 16000 -vn -threads 1 -y "
      +:+ dquote +:+ (audio_scratch dirname w s).2 +:+ dquote in
  (∀ c, c ∈ execs (news s (extract_audio dirname w body s)) → c = command)
  ∧ (∀ body' c c',
       c ∈ execs (news s (extract_audio dirname w body s)) →
       c' ∈ execs (news s (extract_audio dirname w body' s)) →
       c = c')
  ∧ (audio_rejects body = false →
     audio_renders body = true →
     ∀ bytes,
       fetch_outcome w = FetchResponse true (Some bytes) →
       stream_outcome w = StreamFinish →
       execs (news s (extract_audio dirname w body s)) = [command]).
Proof.
  intros command. split_and!.
  - intros c Hc. by apply extract_audio_execs in Hc.
  - intros body' c c' Hc Hc'.
    apply extract_audio_execs in Hc. apply extract_audio_execs in Hc'. congruence.
  - intros Hvalid Hr bytes H1 H2.
    destruct (audio_rendered w body s Hr) as (name & url & Hkey & _ & Hline).
    rewrite (extract_audio_accepted _ _ _ _ name) by done. rewrite Hline.
    exact (attempt_reaches_exec _ _ _ _ _ _ _ _ _ (ticked (audio_ticks body) s) _ H1 H2).
Qed.

Lemma extract_audio_command_witness :
  execs (news (start ∅ ∅) (extract_audio sample_dir world_ok audio_request (start ∅ ∅))) =
  ["ffmpeg -i " +:+ dquote +:+ "/srv/ffmpeg-worker/temp/audio_input_1700000000000.mp4"
     +:+ dquote +:+ " -ac 1 -ar 16000 -vn -threads 1 -y "
     +:+ dquote +:+ "/srv/ffmpeg-worker/temp/audio_output_1700000000001.wav" +:+ dquote].
Proof.
  destruct (extract_audio_command_ignores_request sample_dir world_ok audio_request
              (start ∅ ∅)) as (_ & _ & H).
  rewrite (H eq_refl eq_refl "source bytes" eq_refl eq_refl). vm_compute. reflexivity.
Defined.

(** ** Failures after the download, and the run where nothing fails *)

Section Outcomes.
Context (w : World) (line : string) (inputUrl : JsValue) (command : string) (key : JsValue)
        (ctype : string) (success : string → Body) (tempInput tempOutput : string).

Lemma attempt_upload_failure s bytes output e :
  fetch_outcome w = FetchResponse true (Some bytes) →
  stream_outcome w = StreamFinish →
  exec_outcome w = ExecOk (Some output) →
  upload_outcome w = UploadReject e ∨ upload_outcome w = UploadError e →
  let r := attempt w (Some line) inputUrl (Some command) key ctype success
             tempInput tempOutput s in
  responses (news s r) = [(500, ErrorBody (message e) (stderr e))]
  ∧ uploads (news s r) = [("processed-videos", key, mkOptions ctype true "half")]
  ∧ resolutions (news s r) = []
  ∧ storage r.2 = storage s
  ∧ fs r.2 !! tempInput = None ∧ fs r.2 !! tempOutput = None.
Proof.
  intros H1 H2 H3 H4. unfold attempt, pipeline. exec.
  rewrite H1. exec. rewrite H2. exec. rewrite H3. exec. rewrite lookup_insert_eq. exec.
  destruct H4 as [H4|H4]; rewrite H4; exec;
    erewrite news_run by (simpl; reflexivity);
    (split_and!; [by observe_more..|apply scratch_gone|apply scratch_gone]).
Qed.

Lemma attempt_output_missing s bytes :
  fetch_outcome w = FetchResponse true (Some bytes) →
  stream_outcome w = StreamFinish →
  exec_outcome w = ExecOk None →
  shell_effects w command = [] →
  tempInput ≠ tempOutput →
  fs s !! tempOutput = None →
  let r := attempt w (Some line) inputUrl (Some command) key ctype success
             tempInput tempOutput s in
  responses (news s r) = [(500, ErrorBody (enoent "stat" tempOutput) None)]
  ∧ execs (news s r) = [command]
  ∧ uploads (news s r) = []
  ∧ fs r.2 !! tempInput = None ∧ fs r.2 !! tempOutput = None.
Proof.
  intros H1 H2 H3 Hq Hne Hnone. unfold attempt, pipeline. exec.
  rewrite H1. exec. rewrite H2. exec. rewrite H3. exec.
  rewrite Hq, shelled_nil, shell_events_nil.
  rewrite lookup_insert_ne, Hnone by done. exec.
  erewrite news_run by (simpl; reflexivity).
  split_and!; [by observe_more..|apply scratch_gone|apply scratch_gone].
Qed.

Lemma attempt_download_failure s e :
  fetch_outcome w = FetchReject e
  ∨ (∃ bytes written,
       fetch_outcome w = FetchResponse true (Some bytes)
       ∧ stream_outcome w = StreamError e written) →
  let r := attempt w (Some line) inputUrl (Some command) key ctype success
             tempInput tempOutput s in
  responses (news s r) = [(500, ErrorBody (message e) (stderr e))]
  ∧ execs (news s r) = []
  ∧ uploads (news s r) = []
  ∧ fs r.2 !! tempInput = None ∧ fs r.2 !! tempOutput = None.
Proof.
  intros [H1|(bytes & written & H1 & H2)]; unfold attempt, pipeline; exec.
  - rewrite H1. exec. erewrite news_run by (simpl; reflexivity).
    split_and!; [by observe_more..|apply scratch_gone|apply scratch_gone].
  - rewrite H1. exec. rewrite H2. exec. erewrite news_run by (simpl; reflexivity).
    split_and!; [by observe_more..|apply scratch_gone|apply scratch_gone].
Qed.

Lemma attempt_download_crash s bytes e written :
  fetch_outcome w = FetchResponse true (Some bytes) →
  stream_outcome w = StreamCrash e written →
  let r := attempt w (Some line) inputUrl (Some command) key ctype success
             tempInput tempOutput s in
  r.1 = Fatal e
  ∧ news s r = EvFetch inputUrl :: created tempInput written
  ∧ fs r.2 = left_on_disk tempInput written (fs s).
Proof.
  intros H1 H2. unfold attempt, pipeline. exec. rewrite H1. exec. rewrite H2. exec.
  erewrite news_run by (simpl; reflexivity). done.
Qed.

Lemma attempt_all_succeed s bytes output name :
  fetch_outcome w = FetchResponse true (Some bytes) →
  stream_outcome w = StreamFinish →
  exec_outcome w = ExecOk (Some output) →
  upload_outcome w = UploadOk →
  to_string key = Some name →
  let r := attempt w (Some line) inputUrl (Some command) key ctype success
             tempInput tempOutput s in
  r.1 = Ok tt
  ∧ responses (news s r) = [(200, success (public_url w "processed-videos" key))]
  ∧ calls (news s r) = [CallFetch; CallExec; CallUpload; CallResolve]
  ∧ storage r.2 !! ("processed-videos", name) = Some (mkObject output ctype)
  ∧ fs r.2 !! tempInput = None ∧ fs r.2 !! tempOutput = None.
Proof.
  intros H1 H2 H3 H4 H5. unfold attempt, pipeline. exec.
  rewrite H1. exec. rewrite H2. exec. rewrite H3. exec. rewrite lookup_insert_eq. exec.
  rewrite H4, lookup_insert_eq. exec. rewrite H5. exec.
  erewrite news_run by (simpl; reflexivity).
  split_and!; [done|by observe_more..|apply lookup_insert_eq
              |apply scratch_gone|apply scratch_gone].
Qed.

End Outcomes.

(** X2. On either endpoint, when the storage service rejects the
    upload or resolves it with an error, a validated request whose
    values have a string form and whose transcoder wrote its output is
    answered 500 with the message of that error; the upload was
    requested once, no public URL is resolved, the bucket is as it was,
    and both scratch files are gone. *)
Theorem upload_failure_is_500 dirname w body s bytes output e :
  fetch_outcome w = FetchResponse true (Some bytes) →
  stream_outcome w = StreamFinish →
  exec_outcome w = ExecOk (Some output) →
  upload_outcome w = UploadReject e ∨ upload_outcome w = UploadError e →
  (clip_rejects body = false →
   clip_renders body = true →
   let r := clip dirname w body s in
   responses (news s r) = [(500, ErrorBody (message e) (stderr e))]
   ∧ uploads (news s r)
     = [("processed-videos", field body "fileName", mkOptions "video/mp4" true "half")]
   ∧ resolutions (news s r) = []
   ∧ storage r.2 = storage s
   ∧ fs r.2 !! (clip_scratch dirname w s).1 = None
   ∧ fs r.2 !! (clip_scratch dirname w s).2 = None)
  ∧ (audio_rejects body = false →
     audio_renders body = true →
     let r := extract_audio dirname w body s in
     ∃ name,
       audio_key w body s = Some name
       ∧ responses (news s r) = [(500, ErrorBody (message e) (stderr e))]
       ∧ uploads (news s r)
         = [("processed-videos", JStr name, mkOptions "audio/wav" true "half")]
       ∧ resolutions (news s r) = []
       ∧ storage r.2 = storage s
       ∧ fs r.2 !! (audio_scratch dirname w s).1 = None
       ∧ fs r.2 !! (audio_scratch dirname w s).2 = None).
Proof.
  intros H1 H2 H3 H4. split; intros Hvalid Hr r; subst r.
  - rewrite clip_accepted by done.
    destruct (clip_rendered body Hr) as (name & a & b & _ & _ & _ & Hline & Hcmd).
    unfold clip_command_of. rewrite Hline, Hcmd.
    exact (attempt_upload_failure _ _ _ _ _ _ _ _ _ (ticked 2 s) _ _ _ H1 H2 H3 H4).
  - destruct (audio_rendered w body s Hr) as (name & url & Hkey & _ & Hline).
    exists name. split; [done|].
    rewrite (extract_audio_accepted _ _ _ _ name) by done. rewrite Hline.
    exact (attempt_upload_failure _ _ _ _ _ _ _ _ _ (ticked (audio_ticks body) s)
             _ _ _ H1 H2 H3 H4).
Qed.

Lemma upload_failure_witness :
  responses (news (start ∅ ∅)
               (clip sample_dir world_upload_fails clip_request (start ∅ ∅)))
  = [(500, ErrorBody "Bucket not found" None)]
  ∧ ∃ name,
      audio_key world_upload_fails audio_request (start ∅ ∅) = Some name
      ∧ resolutions
          (news (start ∅ ∅)
             (extract_audio sample_dir world_upload_fails audio_request (start ∅ ∅)))
        = [].
Proof.
  split.
  - destruct (upload_failure_is_500 sample_dir world_upload_fails clip_request (start ∅ ∅)
                "source bytes" "transcoded bytes" (Error "Bucket not found"))
      as [Hclip _]; [reflexivity|reflexivity|reflexivity|right; reflexivity|].
    destruct Hclip as (H & _); [vm_compute; reflexivity..|]. exact H.
  - destruct (upload_failure_is_500 sample_dir world_upload_fails audio_request (start ∅ ∅)
                "source bytes" "transcoded bytes" (Error "Bucket not found"))
      as [_ Haudio]; [reflexivity|reflexivity|reflexivity|right; reflexivity|].
    destruct Haudio as (name & Hkey & _ & _ & H & _); [vm_compute; reflexivity..|].
    exists name. split; [exact Hkey|exact H].
Defined.

(** X3. On either endpoint, when the transcoder exits with status 0 but
    no file is at the output path (the shell line having done nothing
    else), [statSync] throws: a validated request whose values have a
    string form is answered 500 with the ENOENT message for the output
    path, after the one transcoder run and without any upload, and the
    downloaded input is removed. *)
Theorem missing_output_is_500 dirname w body s bytes :
  fetch_outcome w = FetchResponse true (Some bytes) →
  stream_outcome w = StreamFinish →
  exec_outcome w = ExecOk None →
  quiet w →
  (clip_rejects body = false →
   clip_renders body = true →
   fs s !! (clip_scratch dirname w s).2 = None →
   let r := clip dirname w body s in
   responses (news s r)
   = [(500, ErrorBody ("ENOENT: no such file or directory, stat '"
                         +:+ (clip_scratch dirname w s).2 +:+ "'") None)]
   ∧ length (execs (news s r)) = 1%nat
   ∧ uploads (news s r) = []
   ∧ fs r.2 !! (clip_scratch dirname w s).1 = None)
  ∧ (audio_rejects body = false →
     audio_renders body = true →
     fs s !! (audio_scratch dirname w s).2 = None →
     let r := extract_audio dirname w body s in
     responses (news s r)
     = [(500, ErrorBody ("ENOENT: no such file or directory, stat '"
                           +:+ (audio_scratch dirname w s).2 +:+ "'") None)]
     ∧ length (execs (news s r)) = 1%nat
     ∧ uploads (news s r) = []
     ∧ fs r.2 !! (audio_scratch dirname w s).1 = None).
Proof.
  intros H1 H2 H3 Hq. split; intros Hvalid Hr Hnone r; subst r.
  - rewrite clip_accepted by done.
    destruct (clip_rendered body Hr) as (name & a & b & _ & _ & _ & Hline & Hcmd).
    unfold clip_command_of. rewrite Hline, Hcmd.
    destruct (attempt_output_missing w
                ("[worker] Processing clip: " +:+ name +:+ " (" +:+ a +:+ "s - "
                   +:+ b +:+ "s)")
                (field body "inputUrl")
                (clip_command_text a b (clip_scratch dirname w s).1
                   (clip_scratch dirname w s).2)
                (field body "fileName") "video/mp4" ClippedBody
                (clip_scratch dirname w s).1 (clip_scratch dirname w s).2
                (ticked 2 s) bytes H1 H2 H3 (Hq _) (clip_scratch_distinct _ _ _) Hnone)
      as (Hres & Hx & Hu & Hin & _).
    split_and!; [done| |done|done].
    change (news s) with (news (ticked 2 s)). by rewrite Hx.
  - destruct (audio_rendered w body s Hr) as (name & url & Hkey & _ & Hline).
    rewrite (extract_audio_accepted _ _ _ _ name) by done. rewrite Hline.
    destruct (attempt_output_missing w ("[worker] Extracting audio from: " +:+ url)
                (field body "inputUrl")
                (audio_command (audio_scratch dirname w s).1 (audio_scratch dirname w s).2)
                (JStr name) "audio/wav" AudioBody
                (audio_scratch dirname w s).1 (audio_scratch dirname w s).2
                (ticked (audio_ticks body) s) bytes H1 H2 H3 (Hq _)
                (audio_scratch_distinct _ _ _) Hnone)
      as (Hres & Hx & Hu & Hin & _).
    split_and!; [done| |done|done].
    change (news s) with (news (ticked (audio_ticks body) s)). by rewrite Hx.
Qed.

Lemma missing_output_witness :
  responses (news (start ∅ ∅) (clip sample_dir world_no_output clip_request (start ∅ ∅)))
  = [(500, ErrorBody
             "ENOENT: no such file or directory, stat '/srv/ffmpeg-worker/temp/output_1700000000001.mp4'"
             None)]
  ∧ uploads (news (start ∅ ∅)
               (extract_audio sample_dir world_no_output audio_request (start ∅ ∅))) = [].
Proof.
  split.
  - destruct (missing_output_is_500 sample_dir world_no_output clip_request (start ∅ ∅)
                "source bytes") as [Hclip _];
      [reflexivity|reflexivity|reflexivity|intros command; reflexivity|].
    destruct Hclip as (H & _); [vm_compute; reflexivity..|].
    rewrite H. vm_compute. reflexivity.
  - destruct (missing_output_is_500 sample_dir world_no_output audio_request (start ∅ ∅)
                "source bytes") as [_ Haudio];
      [reflexivity|reflexivity|reflexivity|intros command; reflexivity|].
    destruct Haudio as (_ & _ & H & _); [vm_compute; reflexivity..|].
    exact H.
Defined.

(** X4. On either endpoint, a download that fails is handled in two
    ways.  When the fetch itself rejects (no response at all) or the
    write stream reports an error, a validated request whose values have
    a string form is answered 500 with the message of that error, the
    transcoder and the upload are never invoked, and neither scratch
    file is left on disk.  When the readable side of the pipe fails, the
    error has no listener: it is not caught, no response is sent, no
    cleanup runs, and what was written of the input stays on disk. *)
Theorem download_failure_is_500 dirname w body s e :
  (fetch_outcome w = FetchReject e
   ∨ (∃ bytes written,
        fetch_outcome w = FetchResponse true (Some bytes)
        ∧ stream_outcome w = StreamError e written) →
   (clip_rejects body = false →
    clip_renders body = true →
    let r := clip dirname w body s in
    responses (news s r) = [(500, ErrorBody (message e) (stderr e))]
    ∧ execs (news s r) = []
    ∧ uploads (news s r) = []
    ∧ fs r.2 !! (clip_scratch dirname w s).1 = None
    ∧ fs r.2 !! (clip_scratch dirname w s).2 = None)
   ∧ (audio_rejects body = false →
      audio_renders body = true →
      let r := extract_audio dirname w body s in
      responses (news s r) = [(500, ErrorBody (message e) (stderr e))]
      ∧ execs (news s r) = []
      ∧ uploads (news s r) = []
      ∧ fs r.2 !! (audio_scratch dirname w s).1 = None
      ∧ fs r.2 !! (audio_scratch dirname w s).2 = None))
  ∧ (∀ bytes written,
       fetch_outcome w = FetchResponse true (Some bytes) →
       stream_outcome w = StreamCrash e written →
       (clip_rejects body = false →
        clip_renders body = true →
        let r := clip dirname w body s in
        r.1 = Fatal e
        ∧ news s r = EvFetch (field body "inputUrl")
                       :: created (clip_scratch dirname w s).1 written
        ∧ fs r.2 = left_on_disk (clip_scratch dirname w s).1 written (fs s))
       ∧ (audio_rejects body = false →
          audio_renders body = true →
          let r := extract_audio dirname w body s in
          r.1 = Fatal e
          ∧ news s r = EvFetch (field body "inputUrl")
                         :: created (audio_scratch dirname w s).1 written
          ∧ fs r.2 = left_on_disk (audio_scratch dirname w s).1 written (fs s))).
Proof.
  split.
  - intros H. split; intros Hvalid Hr r; subst r.
    + rewrite clip_accepted by done.
      destruct (clip_rendered body Hr) as (name & a & b & _ & _ & _ & Hline & Hcmd).
      unfold clip_command_of. rewrite Hline, Hcmd.
      exact (attempt_download_failure _ _ _ _ _ _ _ _ _ (ticked 2 s) _ H).
    + destruct (audio_rendered w body s Hr) as (name & url & Hkey & _ & Hline).
      rewrite (extract_audio_accepted _ _ _ _ name) by done. rewrite Hline.
      exact (attempt_download_failure _ _ _ _ _ _ _ _ _ (ticked (audio_ticks body) s) _ H).
  - intros bytes written H1 H2. split; intros Hvalid Hr r; subst r.
    + rewrite clip_accepted by done.
      destruct (clip_rendered body Hr) as (name & a & b & _ & _ & _ & Hline & Hcmd).
      unfold clip_command_of. rewrite Hline, Hcmd.
      exact (attempt_download_crash _ _ _ _ _ _ _ _ _ (ticked 2 s) _ _ _ H1 H2).
    + destruct (audio_rendered w body s Hr) as (name & url & Hkey & _ & Hline).
      rewrite (extract_audio_accepted _ _ _ _ name) by done. rewrite Hline.
      exact (attempt_download_crash _ _ _ _ _ _ _ _ _ (ticked (audio_ticks body) s)
               _ _ _ H1 H2).
Qed.

Lemma download_failure_witness :
  responses (news (start ∅ ∅) (clip sample_dir world_unreachable clip_request (start ∅ ∅)))
  = [(500, ErrorBody "fetch failed" None)]
  ∧ execs (news (start ∅ ∅)
             (extract_audio sample_dir world_unreachable audio_request (start ∅ ∅))) = []
  ∧ (extract_audio sample_dir world_read_error audio_request (start ∅ ∅)).1
    = Fatal (Error "terminated").
Proof.
  destruct (download_failure_is_500 sample_dir world_unreachable clip_request (start ∅ ∅)
              (Error "fetch failed")) as [[Hclip _] _]; [left; reflexivity|].
  destruct (download_failure_is_500 sample_dir world_unreachable audio_request (start ∅ ∅)
              (Error "fetch failed")) as [[_ Haudio] _]; [left; reflexivity|].
  destruct (download_failure_is_500 sample_dir world_read_error audio_request (start ∅ ∅)
              (Error "terminated")) as [_ Hcrash].
  split_and!.
  - destruct Hclip as (H & _); [vm_compute; reflexivity..|]. exact H.
  - destruct Haudio as (_ & H & _); [vm_compute; reflexivity..|]. exact H.
  - destruct (Hcrash "source bytes" (Some "source")) as [_ H]; [reflexivity..|].
    destruct H as (H & _); [vm_compute; reflexivity..|]. exact H.
Defined.

(** X5. On either endpoint, a validated request whose values have a
    string form and whose four stages all go through is answered 200
    with the public URL of its key, after exactly one fetch, one
    transcoder run, one upload and one URL resolution in that order; the
    bucket then holds the transcoder's output under the name of the key,
    whatever its size (an empty output included), and both scratch files
    are gone. *)
Theorem all_stages_succeed_is_200 dirname w body s bytes output :
  fetch_outcome w = FetchResponse true (Some bytes) →
  stream_outcome w = StreamFinish →
  exec_outcome w = ExecOk (Some output) →
  upload_outcome w = UploadOk →
  (clip_rejects body = false →
   clip_renders body = true →
   let r := clip dirname w body s in
   ∃ name,
     to_string (field body "fileName") = Some name
     ∧ r.1 = Ok tt
     ∧ responses (news s r)
       = [(200, ClippedBody (public_url w "processed-videos" (field body "fileName")))]
     ∧ calls (news s r) = [CallFetch; CallExec; CallUpload; CallResolve]
     ∧ storage r.2 !! ("processed-videos", name) = Some (mkObject output "video/mp4")
     ∧ fs r.2 !! (clip_scratch dirname w s).1 = None
     ∧ fs r.2 !! (clip_scratch dirname w s).2 = None)
  ∧ (audio_rejects body = false →
     audio_renders body = true →
     let r := extract_audio dirname w body s in
     ∃ name,
       audio_key w body s = Some name
       ∧ r.1 = Ok tt
       ∧ responses (news s r)
         = [(200, AudioBody (public_url w "processed-videos" (JStr name)))]
       ∧ calls (news s r) = [CallFetch; CallExec; CallUpload; CallResolve]
       ∧ storage r.2 !! ("processed-videos", name) = Some (mkObject output "audio/wav")
       ∧ fs r.2 !! (audio_scratch dirname w s).1 = None
       ∧ fs r.2 !! (audio_scratch dirname w s).2 = None).
Proof.
  intros H1 H2 H3 H4. split; intros Hvalid Hr r; subst r.
  - rewrite clip_accepted by done.
    destruct (clip_rendered body Hr) as (name & a & b & Hname & _ & _ & Hline & Hcmd).
    unfold clip_command_of. rewrite Hline, Hcmd. exists name. split; [done|].
    exact (attempt_all_succeed _ _ _ _ _ _ _ _ _ (ticked 2 s) _ _ _ H1 H2 H3 H4 Hname).
  - destruct (audio_rendered w body s Hr) as (name & url & Hkey & _ & Hline).
    rewrite (extract_audio_accepted _ _ _ _ name) by done. rewrite Hline.
    exists name. split; [done|].
    exact (attempt_all_succeed _ _ _ _ (JStr name) _ _ _ _ (ticked (audio_ticks body) s)
             _ _ name H1 H2 H3 H4 eq_refl).
Qed.

Lemma all_stages_succeed_witness :
  (∃ name,
     Some "clips/a.mp4" = Some name
     ∧ responses (news (start ∅ ∅) (clip sample_dir world_ok clip_request (start ∅ ∅)))
       = [(200, ClippedBody (sample_url "processed-videos" (JStr "clips/a.mp4")))])
  ∧ (∃ name,
       Some "talk_audio.wav" = Some name
       ∧ storage (extract_audio sample_dir world_silent_audio audio_request (start ∅ ∅)).2
           !! ("processed-videos", name)
         = Some (mkObject "" "audio/wav")).
Proof.
  split.
  - destruct (all_stages_succeed_is_200 sample_dir world_ok clip_request (start ∅ ∅)
                "source bytes" "transcoded bytes") as [Hclip _]; [reflexivity..|].
    destruct Hclip as (name & Hname & _ & H & _); [vm_compute; reflexivity..|].
    exists name. split; [exact Hname|exact H].
  - destruct (all_stages_succeed_is_200 sample_dir world_silent_audio audio_request
                (start ∅ ∅) "source bytes" "") as [_ Haudio]; [reflexivity..|].
    destruct Haudio as (name & Hkey & _ & _ & _ & H & _); [vm_compute; reflexivity..|].
    exists name. split; [exact Hkey|exact H].
Defined.

(** ** What a request leaves alone *)

Lemma shelled_lookup_other effects (files : gmap string string) p :
  p ∉ effects.*1 → shelled effects files !! p = files !! p.
Proof.
  revert files. unfold shelled.
  induction effects as [|[path after] effects IH]; intros files Hp; [done|].
  simpl in *. apply not_elem_of_cons in Hp as [Hne Hp]. rewrite IH by done.
  destruct after; simpl; [by apply lookup_insert_ne|by apply lookup_delete_ne].
Qed.

Lemma keeps_ret {A : Type} paths (a : A) : keeps_others paths (mret a : M A).
Proof. by intros s p _. Qed.

Lemma keeps_throw {A : Type} paths e : keeps_others paths (@throw A e).
Proof. by intros s p _. Qed.

Lemma keeps_pending {A : Type} paths : keeps_others paths (@pending A).
Proof. by intros s p _. Qed.

Lemma keeps_fatal {A : Type} paths e : keeps_others paths (@fatal A e).
Proof. by intros s p _. Qed.

Lemma keeps_bind {A B : Type} paths (m : M A) (f : A → M B) :
  keeps_others paths m → (∀ a, keeps_others paths (f a)) → keeps_others paths (m ≫= f).
Proof.
  intros Hm Hf s p Hp. specialize (Hm s p Hp). rewrite bind_run.
  destruct (m s) as [[a|e| |e] s1]; simpl in *; [|done..].
  by rewrite (Hf a s1 p Hp).
Qed.

Lemma keeps_template {B : Type} paths text (f : string → M B) :
  (∀ c, text = Some c → keeps_others paths (f c)) →
  keeps_others paths (template text ≫= f).
Proof.
  intros Hf s p Hp. rewrite bind_run, template_run.
  destruct text as [c|]; [|done]. by apply Hf.
Qed.

Lemma keeps_try_catch {A : Type} paths (m : M A) h :
  keeps_others paths m → (∀ e, keeps_others paths (h e)) →
  keeps_others paths (try_catch m h).
Proof.
  intros Hm Hh s p Hp. specialize (Hm s p Hp). rewrite try_catch_run.
  destruct (m s) as [[a|e| |e] s1]; simpl in *; [done| |done..].
  by rewrite (Hh e s1 p Hp).
Qed.

Lemma keeps_emit paths e : keeps_others paths (emit e).
Proof. by intros s p _. Qed.

Lemma keeps_write_file paths path content :
  path ∈ paths → keeps_others paths (write_file path content).
Proof.
  intros Hin s p Hp. simpl. apply lookup_insert_ne. by intros ->.
Qed.

Lemma keeps_remove_file paths path :
  path ∈ paths → keeps_others paths (remove_file path).
Proof.
  intros Hin s p Hp. simpl. apply lookup_delete_ne. by intros ->.
Qed.

Lemma keeps_shell (paths : gset string) effects :
  list_to_set effects.*1 ⊆ paths → keeps_others paths (shell effects).
Proof.
  intros Hsub s p Hp. rewrite shell_run. simpl. apply shelled_lookup_other.
  intros Hin. apply Hp, Hsub. by apply elem_of_list_to_set.
Qed.

Lemma keeps_peek paths path : keeps_others paths (peek path).
Proof. by intros s p _. Qed.

Lemma keeps_date_now paths w : keeps_others paths (date_now w).
Proof. by intros s p _. Qed.

Lemma keeps_put_object paths bucket key content opts :
  keeps_others paths (put_object bucket key content opts).
Proof.
  intros s p _. unfold put_object. destruct (to_string key); [|done]. by destruct (_ || _).
Qed.

(** Decomposes a goal on untouched files along the computation. *)
Ltac keeps :=
  repeat first
    [ apply keeps_template; intros ? ->
    | apply keeps_bind; [|intros ?]
    | apply keeps_try_catch; [|intros ?]
    | apply keeps_ret | apply keeps_throw | apply keeps_pending | apply keeps_fatal
    | apply keeps_emit
    | apply keeps_write_file; set_solver
    | apply keeps_remove_file; set_solver
    | apply keeps_shell; apply union_subseteq_r
    | apply keeps_peek | apply keeps_date_now | apply keeps_put_object
    | progress unfold attempt, pipeline, on_error, cleanup, when, existsSync, unlinkSync,
        statSync, upload, getPublicUrl, execAsync, pipe_to_file, fetch, leave_file,
        res_json, console_log
    | match goal with
      | |- keeps_others _ (match ?x with _ => _ end) => destruct x
      end ].

Lemma attempt_keeps_others w line inputUrl command key ctype success tempInput tempOutput :
  keeps_others ({[tempInput; tempOutput]} ∪ shell_targets w command)
    (attempt w line inputUrl command key ctype success tempInput tempOutput).
Proof. keeps. Qed.

(** X6. Whatever the request holds and whatever happens to it, the
    handler itself creates, rewrites or removes no file other than its
    own two scratch files: a path that the shell line of the subprocess
    does not touch either holds after the run what it held before.  (The
    shell line of [/clip] carries text of the request unquoted, so what
    the shell touches is not bounded by the handler.) *)
Theorem other_files_are_untouched dirname w body s p :
  (∀ command, p ∉ (shell_effects w command).*1) →
  (p ≠ (clip_scratch dirname w s).1 → p ≠ (clip_scratch dirname w s).2 →
   fs (clip dirname w body s).2 !! p = fs s !! p)
  ∧ (p ≠ (audio_scratch dirname w s).1 → p ≠ (audio_scratch dirname w s).2 →
     fs (extract_audio dirname w body s).2 !! p = fs s !! p).
Proof.
  intros Hshell.
  assert (∀ command, p ∉ shell_targets w command) as Htargets.
  { intros [c|]; simpl; [|set_solver]. rewrite elem_of_list_to_set. apply Hshell. }
  split; intros Hin Hout.
  - destruct (clip_rejects body) eqn:Hvalid.
    + by rewrite clip_refused.
    + rewrite clip_accepted by done.
      apply (attempt_keeps_others _ _ _ _ _ _ _ _ _ (ticked 2 s)).
      rewrite !not_elem_of_union, !not_elem_of_singleton. by split_and!.
  - destruct (audio_rejects body) eqn:Hvalid.
    + by rewrite extract_audio_refused.
    + destruct (audio_key w body s) as [name|] eqn:Hkey.
      * rewrite (extract_audio_accepted _ _ _ _ name) by done.
        apply (attempt_keeps_others _ _ _ _ _ _ _ _ _ (ticked (audio_ticks body) s)).
        rewrite !not_elem_of_union, !not_elem_of_singleton. by split_and!.
      * by rewrite extract_audio_escapes.
Qed.

Lemma other_files_witness :
  fs (clip sample_dir world_ok clip_request
        (start {[ "/srv/ffmpeg-worker/temp/keep.txt" := "kept" ]} ∅)).2
    !! "/srv/ffmpeg-worker/temp/keep.txt" = Some "kept"
  ∧ fs (extract_audio sample_dir world_exec_fails audio_request
          (start {[ "/srv/ffmpeg-worker/temp/keep.txt" := "kept" ]} ∅)).2
      !! "/srv/ffmpeg-worker/temp/keep.txt" = Some "kept"
  ∧ fs (clip sample_dir world_injected injected_request
          (start {[ "/srv/ffmpeg-worker/temp/keep.txt" := "kept" ]} ∅)).2
      !! "/srv/ffmpeg-worker/temp/keep.txt" = Some "kept"
  ∧ fs (clip sample_dir world_injected injected_request
          (start {[ "/srv/ffmpeg-worker/temp/keep.txt" := "kept" ]} ∅)).2
      !! "/tmp/owned" = Some "".
Proof.
  split_and!.
  - destruct (other_files_are_untouched sample_dir world_ok clip_request
                (start {[ "/srv/ffmpeg-worker/temp/keep.txt" := "kept" ]} ∅)
                "/srv/ffmpeg-worker/temp/keep.txt") as [H _].
    { intros command. vm_compute. by intros ?%elem_of_nil. }
    rewrite H; [reflexivity|vm_compute; discriminate..].
  - destruct (other_files_are_untouched sample_dir world_exec_fails audio_request
                (start {[ "/srv/ffmpeg-worker/temp/keep.txt" := "kept" ]} ∅)
                "/srv/ffmpeg-worker/temp/keep.txt") as [_ H].
    { intros command. vm_compute. by intros ?%elem_of_nil. }
    rewrite H; [reflexivity|vm_compute; discriminate..].
  - destruct (other_files_are_untouched sample_dir world_injected injected_request
                (start {[ "/srv/ffmpeg-worker/temp/keep.txt" := "kept" ]} ∅)
                "/srv/ffmpeg-worker/temp/keep.txt") as [H _].
    { intros command. vm_compute. intros Hin%list_elem_of_singleton. discriminate. }
    rewrite H; [reflexivity|vm_compute; discriminate..].
  - vm_compute. reflexivity.
Defined.

(** ** The order of the calls and the number of responses *)

(** Refutes or proves the membership of a call in an explicit list. *)
Ltac call_in :=
  intros Hcall; repeat (apply elem_of_cons in Hcall as [Hcall|Hcall]; [discriminate|]);
  by apply elem_of_nil in Hcall.

Lemma attempt_call_order w line inputUrl command key ctype success tempInput tempOutput s :
  let evs := news s (attempt w line inputUrl command key ctype success
                       tempInput tempOutput s) in
  (calls evs `prefix_of` pipeline_order)
  ∧ (calls evs = [] ↔ line = None)
  ∧ (CallUpload ∈ calls evs →
     stream_outcome w = StreamFinish ∧ ∃ written, exec_outcome w = ExecOk written)
  ∧ (CallResolve ∈ calls evs → upload_outcome w = UploadOk).
Proof.
  unfold attempt, pipeline, pipeline_order. exec.
  destruct line; exec;
    [|seen_more; split_and!; [by eexists|done|call_in|call_in]].
  destruct (fetch_outcome w) as [|e|[] [bytes|]]; exec;
    try (seen_more; split_and!; [by eexists [_; _; _]|done|call_in|call_in]).
  destruct (stream_outcome w) eqn:Hstream; exec;
    try (seen_more; split_and!; [by eexists [_; _; _]|done|call_in|call_in]).
  destruct command; exec;
    try (seen_more; split_and!; [by eexists [_; _; _]|done|call_in|call_in]).
  destruct (exec_outcome w) as [written|written|? ? written] eqn:Hexec; exec;
    try (seen_more; split_and!; [by eexists [_; _]|done|call_in|call_in]).
  destruct (left_on_disk tempOutput written _ !! tempOutput) eqn:Hout; exec;
    try (seen_more; split_and!; [by eexists [_; _]|done|call_in|call_in]).
  destruct (upload_outcome w) eqn:Hupload; exec;
    try (seen_more; split_and!; [by eexists [_]|done|by eauto|call_in]).
  rewrite Hout. exec. destruct (to_string key); exec; seen_more.
  - split_and!; [by eexists []|done|by eauto|done].
  - split_and!; [by eexists [_]|done|by eauto|done].
Qed.

(** X7. Each handler calls its collaborators in the order fetch,
    transcoder, upload, URL resolution, each at most once and none
    again after a failure: the calls of a run are a prefix of that
    sequence, empty exactly when the validation rejects or a value of
    the request has no string form.  The upload is requested only when
    the download finished and the transcoder exited with status 0, and
    the URL is resolved only when the upload went through. *)
Theorem collaborators_called_in_order dirname w body s :
  ((calls (news s (clip dirname w body s)) `prefix_of` pipeline_order)
   ∧ (calls (news s (clip dirname w body s)) = [] ↔
      clip_rejects body = true ∨ clip_renders body = false)
   ∧ (CallUpload ∈ calls (news s (clip dirname w body s)) →
      stream_outcome w = StreamFinish ∧ ∃ written, exec_outcome w = ExecOk written)
   ∧ (CallResolve ∈ calls (news s (clip dirname w body s)) →
      upload_outcome w = UploadOk))
  ∧ ((calls (news s (extract_audio dirname w body s)) `prefix_of` pipeline_order)
     ∧ (calls (news s (extract_audio dirname w body s)) = [] ↔
        audio_rejects body = true ∨ audio_renders body = false)
     ∧ (CallUpload ∈ calls (news s (extract_audio dirname w body s)) →
        stream_outcome w = StreamFinish ∧ ∃ written, exec_outcome w = ExecOk written)
     ∧ (CallResolve ∈ calls (news s (extract_audio dirname w body s)) →
        upload_outcome w = UploadOk)).
Proof.
  split.
  - destruct (clip_rejects body) eqn:Hvalid.
    + rewrite clip_refused by done. seen_more.
      split_and!; [by eexists|by split; auto|call_in|call_in].
    + rewrite clip_accepted by done.
      destruct (attempt_call_order w (clip_line body) (field body "inputUrl")
                  (clip_command_of dirname w body s) (field body "fileName") "video/mp4"
                  ClippedBody (clip_scratch dirname w s).1 (clip_scratch dirname w s).2
                  (ticked 2 s)) as (Hpre & Hnil & Hup & Hres).
      split_and!; [done| |done|done].
      rewrite Hnil, clip_line_none. split; [auto|]. by intros [?|?].
  - destruct (audio_rejects body) eqn:Hvalid.
    + rewrite extract_audio_refused by done. seen_more.
      split_and!; [by eexists|by split; auto|call_in|call_in].
    + destruct (audio_key w body s) as [name|] eqn:Hkey.
      * rewrite (extract_audio_accepted _ _ _ _ name) by done.
        destruct (attempt_call_order w (extracting_line (field body "inputUrl"))
                    (field body "inputUrl")
                    (Some (audio_command (audio_scratch dirname w s).1
                             (audio_scratch dirname w s).2))
                    (JStr name) "audio/wav" AudioBody
                    (audio_scratch dirname w s).1 (audio_scratch dirname w s).2
                    (ticked (audio_ticks body) s)) as (Hpre & Hnil & Hup & Hres).
        split_and!; [done| |done|done].
        rewrite Hnil, (audio_renders_false w body s), Hkey. split; [auto|].
        by intros [?|[?|?]].
      * rewrite extract_audio_escapes by done.
        rewrite (news_run _ _ []) by (simpl; by rewrite app_nil_r).
        split_and!; [by eexists| |call_in|call_in].
        split; [|done]. intros _. right. apply (audio_renders_false w body s). by left.
Qed.

Lemma collaborators_witness :
  (calls (news (start ∅ ∅) (clip sample_dir world_exec_fails clip_request (start ∅ ∅)))
     `prefix_of` pipeline_order)
  ∧ stream_outcome world_upload_fails = StreamFinish
  ∧ calls (news (start ∅ ∅)
             (clip sample_dir world_ok opaque_name_clip_request (start ∅ ∅))) = [].
Proof.
  split_and!.
  - destruct (collaborators_called_in_order sample_dir world_exec_fails clip_request
                (start ∅ ∅)) as [(H & _) _].
    exact H.
  - destruct (collaborators_called_in_order sample_dir world_upload_fails audio_request
                (start ∅ ∅)) as [_ (_ & _ & H & _)].
    apply H. vm_compute. do 2 constructor 2. constructor 1.
  - destruct (collaborators_called_in_order sample_dir world_ok opaque_name_clip_request
                (start ∅ ∅)) as [(_ & H & _) _].
    apply H. right. vm_compute. reflexivity.
Defined.

(** X8. No request is answered twice.  A run that returns has sent
    exactly one response, as its last action, with status 200, 400 or
    500.  Every other run has sent none: it stays pending on a promise
    that never settles; or the readable side of the download failed and
    the uncaught error ended it; or, on [/extract-audio] only, the
    template of the storage name threw before the [try] block and the
    exception left the handler.  [/clip] lets no exception leave the
    handler. *)
Theorem handlers_answer_at_most_once dirname w body s :
  (let r := clip dirname w body s in
   (r.1 = Ok tt ∧ ∃ status b,
      answered status b (news s r) ∧ (status = 200 ∨ status = 400 ∨ status = 500))
   ∨ (responses (news s r) = []
      ∧ (r.1 = Pending
         ∨ ∃ e written, r.1 = Fatal e ∧ stream_outcome w = StreamCrash e written)))
  ∧ (let r := extract_audio dirname w body s in
     (r.1 = Ok tt ∧ ∃ status b,
        answered status b (news s r) ∧ (status = 200 ∨ status = 400 ∨ status = 500))
     ∨ (responses (news s r) = []
        ∧ (r.1 = Pending
           ∨ (∃ e written, r.1 = Fatal e ∧ stream_outcome w = StreamCrash e written)
           ∨ (r.1 = Throw cannot_convert
              ∧ audio_rejects body = false
              ∧ truthy (field body "fileName") = true
              ∧ renders (field body "fileName") = false)))).
Proof.
  split; intros r; subst r.
  - destruct (clip_rejects body) eqn:Hvalid.
    + rewrite clip_refused by done. left. split; [done|].
      erewrite news_run by (simpl; reflexivity).
      eexists _, _. split; [apply answered_single|auto].
    + rewrite clip_accepted by done.
      destruct (attempt_shape w (clip_line body) (field body "inputUrl")
                  (clip_command_of dirname w body s) (field body "fileName") "video/mp4"
                  ClippedBody (clip_scratch dirname w s).1 (clip_scratch dirname w s).2
                  (ticked 2 s))
        as [[Hn Hp]|(status & b & Hok & Hans & Hst & _)]; [by right|].
      left. split; [done|]. exists status, b. split; [done|]. destruct Hst; auto.
  - destruct (audio_rejects body) eqn:Hvalid.
    + rewrite extract_audio_refused by done. left. split; [done|].
      erewrite news_run by (simpl; reflexivity).
      eexists _, _. split; [apply answered_single|auto].
    + destruct (audio_key w body s) as [name|] eqn:Hkey.
      * rewrite (extract_audio_accepted _ _ _ _ name) by done.
        destruct (attempt_shape w (extracting_line (field body "inputUrl"))
                    (field body "inputUrl")
                    (Some (audio_command (audio_scratch dirname w s).1
                             (audio_scratch dirname w s).2))
                    (JStr name) "audio/wav" AudioBody
                    (audio_scratch dirname w s).1 (audio_scratch dirname w s).2
                    (ticked (audio_ticks body) s))
          as [[Hn [Hp|Hp]]|(status & b & Hok & Hans & Hst & _)];
          [right; by auto|right; by auto|].
        left. split; [done|]. exists status, b. split; [done|]. destruct Hst; auto.
      * rewrite extract_audio_escapes by done. right.
        rewrite (news_run _ _ []) by (simpl; by rewrite app_nil_r).
        split; [done|]. do 2 right. split_and!; [done..| |].
        -- unfold audio_key in Hkey. by destruct (truthy (field body "fileName")).
        -- unfold audio_key, named_audio, renders in *.
           destruct (truthy (field body "fileName")); [|done].
           by destruct (to_string (field body "fileName")).
Qed.

(** ** A transcoder that never exits *)

Lemma attempt_exec_hangs w line inputUrl command key ctype success tempInput tempOutput s
    bytes written :
  fetch_outcome w = FetchResponse true (Some bytes) →
  stream_outcome w = StreamFinish →
  exec_outcome w = ExecPending written →
  shell_effects w command = [] →
  tempInput ≠ tempOutput →
  let r := attempt w (Some line) inputUrl (Some command) key ctype success
             tempInput tempOutput s in
  r.1 = Pending
  ∧ responses (news s r) = []
  ∧ removals (news s r) = []
  ∧ uploads (news s r) = []
  ∧ fs r.2 !! tempInput = Some bytes.
Proof.
  intros H1 H2 H3 Hq Hne. unfold attempt, pipeline. exec.
  rewrite H1. exec. rewrite H2. exec. rewrite H3. exec.
  rewrite Hq, shelled_nil, shell_events_nil.
  erewrite news_run by (simpl; reflexivity).
  split_and!; [done|by observe_more| |by observe_more|].
  - unfold removals. simpl. destruct written; by simpl.
  - destruct written; simpl; [rewrite lookup_insert_ne by done|]; apply lookup_insert_eq.
Qed.

(** X9. Nothing bounds the wait for the transcoder: on either endpoint,
    when the subprocess never exits (its shell line doing nothing
    else), a validated request whose values have a string form and
    whose download finished stays pending for ever, sends no response,
    requests no upload and runs no cleanup, so the downloaded input
    stays on disk. *)
Theorem hung_transcoder_leaves_input dirname w body s bytes written :
  fetch_outcome w = FetchResponse true (Some bytes) →
  stream_outcome w = StreamFinish →
  exec_outcome w = ExecPending written →
  quiet w →
  (clip_rejects body = false →
   clip_renders body = true →
   let r := clip dirname w body s in
   r.1 = Pending
   ∧ responses (news s r) = []
   ∧ removals (news s r) = []
   ∧ uploads (news s r) = []
   ∧ fs r.2 !! (clip_scratch dirname w s).1 = Some bytes)
  ∧ (audio_rejects body = false →
     audio_renders body = true →
     let r := extract_audio dirname w body s in
     r.1 = Pending
     ∧ responses (news s r) = []
     ∧ removals (news s r) = []
     ∧ uploads (news s r) = []
     ∧ fs r.2 !! (audio_scratch dirname w s).1 = Some bytes).
Proof.
  intros H1 H2 H3 Hq. split; intros Hvalid Hr r; subst r.
  - rewrite clip_accepted by done.
    destruct (clip_rendered body Hr) as (name & a & b & _ & _ & _ & Hline & Hcmd).
    unfold clip_command_of. rewrite Hline, Hcmd.
    exact (attempt_exec_hangs _ _ _ _ _ _ _ _ _ (ticked 2 s) _ _ H1 H2 H3 (Hq _)
             (clip_scratch_distinct _ _ _)).
  - destruct (audio_rendered w body s Hr) as (name & url & Hkey & _ & Hline).
    rewrite (extract_audio_accepted _ _ _ _ name) by done. rewrite Hline.
    exact (attempt_exec_hangs _ _ _ _ _ _ _ _ _ (ticked (audio_ticks body) s) _ _ H1 H2 H3
             (Hq _) (audio_scratch_distinct _ _ _)).
Qed.

Lemma hung_transcoder_witness :
  fs (clip sample_dir world_hung clip_request (start ∅ ∅)).2
    !! "/srv/ffmpeg-worker/temp/input_1700000000000.mp4" = Some "source bytes"
  ∧ responses (news (start ∅ ∅)
                 (extract_audio sample_dir world_hung audio_request (start ∅ ∅))) = [].
Proof.
  split.
  - destruct (hung_transcoder_leaves_input sample_dir world_hung clip_request (start ∅ ∅)
                "source bytes" None) as [Hclip _];
      [reflexivity|reflexivity|reflexivity|intros command; reflexivity|].
    destruct Hclip as (_ & _ & _ & _ & H); [vm_compute; reflexivity..|]. exact H.
  - destruct (hung_transcoder_leaves_input sample_dir world_hung audio_request (start ∅ ∅)
                "source bytes" None) as [_ Haudio];
      [reflexivity|reflexivity|reflexivity|intros command; reflexivity|].
    destruct Haudio as (_ & H & _); [vm_compute; reflexivity..|]. exact H.
Defined.

(** ** The cleanup lines on their own *)

(** X10. The cleanup lines never throw, whether or not the scratch
    files exist: they remove the two paths, leave every other file as it
    is, and running them once more changes nothing and removes nothing,
    which is what makes the catch block safe after a cleanup that has
    already run. *)
Theorem cleanup_is_idempotent tempInput tempOutput s :
  let r := cleanup tempInput tempOutput s in
  r.1 = Ok tt
  ∧ fs r.2 !! tempInput = None
  ∧ fs r.2 !! tempOutput = None
  ∧ (∀ p, p ≠ tempInput → p ≠ tempOutput → fs r.2 !! p = fs s !! p)
  ∧ (∀ p, p ∈ removals (news s r) → is_Some (fs s !! p))
  ∧ cleanup tempInput tempOutput r.2 = (Ok tt, r.2).
Proof.
  intros r. subst r. rewrite cleanup_run. simpl.
  destruct (scratch_gone tempInput tempOutput (fs s)) as [Hin Hout].
  split_and!; [done|done|done| | |].
  - intros p Hp1 Hp2. by rewrite !lookup_delete_ne.
  - intros p. erewrite news_run by (simpl; reflexivity).
    unfold removals, unlinks. rewrite collect_app.
    destruct (fs s !! tempInput) eqn:H1, (delete tempInput (fs s) !! tempOutput) eqn:H2;
      simpl; rewrite ?elem_of_cons, ?elem_of_nil; intros Hp.
    + destruct Hp as [->|[->|[]]]; [by eauto|].
      apply lookup_delete_Some in H2 as [_ H2]. by eauto.
    + destruct Hp as [->|[]]. by eauto.
    + destruct Hp as [->|[]]. apply lookup_delete_Some in H2 as [_ H2]. by eauto.
    + done.
  - rewrite cleanup_run. simpl. unfold unlinks.
    rewrite Hin. rewrite (delete_id _ tempInput) by done. rewrite Hout.
    rewrite (delete_id _ tempOutput) by done. by rewrite app_nil_r.
Qed.

Lemma cleanup_witness :
  let s := start {[ "/tmp/in" := "a"; "/tmp/other" := "b" ]} ∅ in
  fs (cleanup "/tmp/in" "/tmp/out" s).2 !! "/tmp/other" = Some "b"
  ∧ is_Some (fs s !! "/tmp/in").
Proof.
  intros s.
  destruct (cleanup_is_idempotent "/tmp/in" "/tmp/out" s) as (_ & _ & _ & Hkeep & Hrem & _).
  split.
  - rewrite Hkeep; [reflexivity|discriminate..].
  - apply Hrem. vm_compute. constructor 1.
Defined.

(** ** The bucket *)

Lemma attempt_storage w line inputUrl command key ctype success tempInput tempOutput s :
  let r := attempt w line inputUrl command key ctype success tempInput tempOutput s in
  storage r.2 = storage s
  ∨ (∃ content b name,
       to_string key = Some name
       ∧ storage r.2
         = <[("processed-videos", name) := mkObject content ctype]> (storage s)
       ∧ responses (news s r) = [(200, b)]).
Proof.
  unfold attempt, pipeline. exec.
  destruct line; exec; try by left.
  destruct (fetch_outcome w) as [|e|[] [bytes|]]; exec; try by left.
  destruct (stream_outcome w); exec; try by left.
  destruct command; exec; try by left.
  destruct (exec_outcome w) as [written|written|? ? written]; exec; try by left.
  destruct (left_on_disk tempOutput written _ !! tempOutput) as [content|] eqn:Hout; exec;
    try by left.
  destruct (upload_outcome w); exec; try by left.
  rewrite Hout. exec. destruct (to_string key) as [name|]; exec; try by left.
  right. eexists content, _, name. split_and!; [done..|]. by seen.
Qed.

(** X11. A request writes to the bucket under its own key only, the
    name of [fileName] for [/clip] and the storage name for
    [/extract-audio]: the objects under every other key are after the
    run what they were before, whatever the outcome of the run (on the
    model of the storage service, where an upload stores one object
    under the key it is given). *)
Theorem bucket_changes_under_own_key_only dirname w body s k :
  ((∀ name, to_string (field body "fileName") = Some name →
            k ≠ ("processed-videos", name)) →
   storage (clip dirname w body s).2 !! k = storage s !! k)
  ∧ ((∀ name, audio_key w body s = Some name → k ≠ ("processed-videos", name)) →
     storage (extract_audio dirname w body s).2 !! k = storage s !! k).
Proof.
  split; intros Hk.
  - destruct (clip_rejects body) eqn:Hvalid.
    { by rewrite clip_refused. }
    rewrite clip_accepted by done.
    destruct (attempt_storage w (clip_line body) (field body "inputUrl")
                (clip_command_of dirname w body s) (field body "fileName") "video/mp4"
                ClippedBody (clip_scratch dirname w s).1 (clip_scratch dirname w s).2
                (ticked 2 s))
      as [Hsame|(content & b & name & Hname & Hput & _)].
    + by rewrite Hsame.
    + rewrite Hput. apply lookup_insert_ne. intros <-. by apply (Hk name).
  - destruct (audio_rejects body) eqn:Hvalid.
    { by rewrite extract_audio_refused. }
    destruct (audio_key w body s) as [name|] eqn:Hkey.
    + rewrite (extract_audio_accepted _ _ _ _ name) by done.
      destruct (attempt_storage w (extracting_line (field body "inputUrl"))
                  (field body "inputUrl")
                  (Some (audio_command (audio_scratch dirname w s).1
                           (audio_scratch dirname w s).2))
                  (JStr name) "audio/wav" AudioBody
                  (audio_scratch dirname w s).1 (audio_scratch dirname w s).2
                  (ticked (audio_ticks body) s))
        as [Hsame|(content & b & name' & [= <-] & Hput & _)].
      * by rewrite Hsame.
      * rewrite Hput. apply lookup_insert_ne. intros <-. by apply (Hk name).
    + by rewrite extract_audio_escapes.
Qed.

Lemma bucket_witness :
  let kept := ("processed-videos", "other.mp4") in
  let before := {[ kept := mkObject "old" "video/mp4" ]} in
  storage (clip sample_dir world_ok clip_request (start ∅ before)).2 !! kept
  = Some (mkObject "old" "video/mp4")
  ∧ storage (extract_audio sample_dir world_ok audio_request (start ∅ before)).2 !! kept
    = Some (mkObject "old" "video/mp4").
Proof.
  intros kept before. split.
  - destruct (bucket_changes_under_own_key_only sample_dir world_ok clip_request
                (start ∅ before) kept) as [H _].
    rewrite H; [reflexivity|]. intros name. vm_compute. intros [= <-]. discriminate.
  - destruct (bucket_changes_under_own_key_only sample_dir world_ok audio_request
                (start ∅ before) kept) as [_ H].
    rewrite H; [reflexivity|]. intros name. vm_compute. intros [= <-]. discriminate.
Defined.

(** ** Requests side by side *)

Lemma elem_of_collect {B : Type} (f : Event → option B) t b :
  b ∈ collect f t → ∃ e, e ∈ t ∧ f e = Some b.
Proof.
  induction t as [|e t IH]; simpl; [by intros ?%elem_of_nil|].
  destruct (f e) as [b'|] eqn:He.
  - intros [->|Hin]%elem_of_cons.
    + exists e. split; [constructor 1|done].
    + destruct (IH Hin) as (e' & ? & ?). exists e'. split; [by constructor 2|done].
  - intros Hin. destruct (IH Hin) as (e' & ? & ?). exists e'. split; [by constructor 2|done].
Qed.

Lemma touched_within paths t p :
  Forall (touches_only paths) t → p ∈ touched t → p ∈ paths.
Proof.
  intros Hall [Hp|Hp]%elem_of_app.
  - apply elem_of_collect in Hp as (e & He & Hf).
    rewrite Forall_forall in Hall. specialize (Hall e He).
    destruct e; simplify_eq/=. done.
  - apply elem_of_collect in Hp as (e & He & Hf).
    rewrite Forall_forall in Hall. specialize (Hall e He).
    destruct e; simplify_eq/=. done.
Qed.

Lemma clip_touched dirname w body s p :
  p ∈ touched (news s (clip dirname w body s)) →
  p = (clip_scratch dirname w s).1 ∨ p = (clip_scratch dirname w s).2.
Proof.
  destruct (clip_rejects body) eqn:Hvalid.
  - rewrite clip_refused by done. erewrite news_run by (simpl; reflexivity).
    by intros ?%elem_of_nil.
  - rewrite clip_accepted by done. intros Hp.
    destruct (attempt_footprint w (clip_line body) (field body "inputUrl")
                (clip_command_of dirname w body s) (field body "fileName") "video/mp4"
                ClippedBody (clip_scratch dirname w s).1 (clip_scratch dirname w s).2
                (ticked 2 s)) as (evs & Ht & Hall & _).
    change (news s) with (news (ticked 2 s)) in Hp. rewrite (news_run _ _ _ Ht) in Hp.
    apply (touched_within _ _ _ Hall) in Hp.
    by apply elem_of_union in Hp as [->%elem_of_singleton| ->%elem_of_singleton]; auto.
Qed.

Lemma extract_audio_touched dirname w body s p :
  p ∈ touched (news s (extract_audio dirname w body s)) →
  p = (audio_scratch dirname w s).1 ∨ p = (audio_scratch dirname w s).2.
Proof.
  destruct (audio_rejects body) eqn:Hvalid.
  { rewrite extract_audio_refused by done. erewrite news_run by (simpl; reflexivity).
    by intros ?%elem_of_nil. }
  destruct (audio_key w body s) as [name|] eqn:Hkey.
  - rewrite (extract_audio_accepted _ _ _ _ name) by done. intros Hp.
    destruct (attempt_footprint w (extracting_line (field body "inputUrl"))
                (field body "inputUrl")
                (Some (audio_command (audio_scratch dirname w s).1
                         (audio_scratch dirname w s).2))
                (JStr name) "audio/wav" AudioBody
                (audio_scratch dirname w s).1 (audio_scratch dirname w s).2
                (ticked (audio_ticks body) s)) as (evs & Ht & Hall & _).
    change (news s) with (news (ticked (audio_ticks body) s)) in Hp.
    rewrite (news_run _ _ _ Ht) in Hp.
    apply (touched_within _ _ _ Hall) in Hp.
    by apply elem_of_union in Hp as [->%elem_of_singleton| ->%elem_of_singleton]; auto.
  - rewrite extract_audio_escapes by done.
    rewrite (news_run _ _ []) by (simpl; by rewrite app_nil_r).
    by intros ?%elem_of_nil.
Qed.

(** X12. The files the handlers themselves create or remove (the
    download, the output named in the command, the cleanup) never
    coincide for two requests that go to different endpoints, nor for
    two requests to the same endpoint when both of their clock readings
    differ: the files a [/clip] handler touches and the files an
    [/extract-audio] handler touches are always disjoint, and so are the
    files of two runs of one endpoint whose first readings differ and
    whose second readings differ.  (What the shell line of a subprocess
    does on the side is not part of this.) *)
Theorem requests_touch_disjoint_files dirname w1 body1 s1 w2 body2 s2 p q :
  (p ∈ touched (news s1 (clip dirname w1 body1 s1)) →
   q ∈ touched (news s2 (extract_audio dirname w2 body2 s2)) →
   p ≠ q)
  ∧ (now w1 (reads s1) ≠ now w2 (reads s2) →
     now w1 (S (reads s1)) ≠ now w2 (S (reads s2)) →
     (p ∈ touched (news s1 (clip dirname w1 body1 s1)) →
      q ∈ touched (news s2 (clip dirname w2 body2 s2)) →
      p ≠ q)
     ∧ (p ∈ touched (news s1 (extract_audio dirname w1 body1 s1)) →
        q ∈ touched (news s2 (extract_audio dirname w2 body2 s2)) →
        p ≠ q)).
Proof.
  destruct (scratch_paths_apart dirname w1 s1 w2 s2) as (Hin & Hout & Hio & Haio & Hcross).
  destruct (scratch_paths_apart dirname w2 s2 w1 s1) as (_ & _ & Hio' & Haio' & _).
  split.
  - intros Hp Hq. apply clip_touched in Hp. apply extract_audio_touched in Hq.
    apply Hcross.
    + rewrite !elem_of_cons. tauto.
    + rewrite !elem_of_cons. tauto.
  - intros H1 H2. destruct (Hin H1) as [Hc1 Ha1]. destruct (Hout H2) as [Hc2 Ha2].
    split; intros Hp Hq.
    + apply clip_touched in Hp. apply clip_touched in Hq.
      destruct Hp as [-> | ->], Hq as [-> | ->]; auto.
    + apply extract_audio_touched in Hp. apply extract_audio_touched in Hq.
      destruct Hp as [-> | ->], Hq as [-> | ->]; auto.
Qed.

Lemma disjoint_files_witness :
  "/srv/ffmpeg-worker/temp/input_1700000000000.mp4"
  ≠ "/srv/ffmpeg-worker/temp/audio_input_1700000000000.mp4"
  ∧ "/srv/ffmpeg-worker/temp/output_1700000000001.mp4"
    ≠ "/srv/ffmpeg-worker/temp/output_1700000360001.mp4".
Proof.
  split.
  - destruct (requests_touch_disjoint_files sample_dir world_ok clip_request (start ∅ ∅)
                world_ok audio_request (start ∅ ∅)
                "/srv/ffmpeg-worker/temp/input_1700000000000.mp4"
                "/srv/ffmpeg-worker/temp/audio_input_1700000000000.mp4") as [H _].
    apply H.
    + vm_compute. constructor 1.
    + vm_compute. constructor 1.
  - destruct (requests_touch_disjoint_files sample_dir world_ok clip_request (start ∅ ∅)
                world_again clip_request (start ∅ ∅)
                "/srv/ffmpeg-worker/temp/output_1700000000001.mp4"
                "/srv/ffmpeg-worker/temp/output_1700000360001.mp4") as [_ H].
    destruct H as [H _]; [vm_compute; discriminate..|].
    apply H.
    + vm_compute. constructor 2. constructor 1.
    + vm_compute. constructor 2. constructor 1.
Defined.

(** ** Storage names of [/extract-audio] *)

Lemma append_assoc s1 s2 s3 : (s1 +:+ s2) +:+ s3 = s1 +:+ (s2 +:+ s3).
Proof.
  induction s1 as [|a s1 IH]; [done|]. rewrite !append_cons. by rewrite IH.
Qed.

Lemma snoc_inj s1 s2 a b :
  s1 +:+ String a "" = s2 +:+ String b "" → a = b.
Proof.
  revert s2. induction s1 as [|c s1 IH]; intros [|d s2] Heq.
  - by injection Heq.
  - rewrite append_cons in Heq. injection Heq as _ Heq.
    apply (f_equal String.length) in Heq. rewrite length_append in Heq.
    simpl in Heq. lia.
  - rewrite append_cons in Heq. injection Heq as _ Heq.
    apply (f_equal String.length) in Heq. rewrite length_append in Heq.
    simpl in Heq. lia.
  - rewrite !append_cons in Heq. injection Heq as _ Heq. by apply (IH s2).
Qed.

Lemma pretty_N_go_suffix (x : N) s : ∃ pre, pretty_N_go x s = pre +:+ s.
Proof.
  revert s. induction (N.lt_wf_0 x) as [x _ IH]; intros s.
  destruct (decide (x = 0)%N) as [->|Hx].
  - exists "". by rewrite pretty_N_go_0.
  - rewrite pretty_N_go_step by lia.
    destruct (IH (x `div` 10)%N) with (s := String (pretty_N_char (x `mod` 10)) s)
      as [pre Hpre]; [apply N.div_lt; lia|].
    exists (pre +:+ String (pretty_N_char (x `mod` 10)) "").
    by rewrite Hpre, append_assoc.
Qed.

Lemma pretty_ends_with_digit (t : Z) :
  ∃ pre k, pretty t = pre +:+ String (pretty_N_char k) "".
Proof.
  assert (∀ p : positive,
            ∃ pre k, pretty (Npos p) = pre +:+ String (pretty_N_char k) "") as Hpos.
  { intros p. unfold pretty, pretty_N.
    rewrite decide_False by done. rewrite pretty_N_go_step by lia.
    destruct (pretty_N_go_suffix (N.pos p `div` 10)
                (String (pretty_N_char (N.pos p `mod` 10)) "")) as [pre Hpre].
    by exists pre, (N.pos p `mod` 10)%N. }
  destruct t as [|p|p].
  - by exists "", 0%N.
  - apply Hpos.
  - destruct (Hpos p) as (pre & k & Hpre). exists ("-" +:+ pre), k.
    change (pretty (Z.neg p)) with ("-" +:+ pretty (N.pos p)).
    by rewrite Hpre, append_assoc.
Qed.

Lemma digit_is_not_a_letter (k : N) : pretty_N_char k ≠ "o"%char.
Proof. unfold pretty_N_char. by repeat case_match. Qed.

(** A name built from a [fileName] is never a generated name. *)
Lemma named_not_generated (name : string) (t : Z) :
  name +:+ "_audio.wav" ≠ audio_storage_name t.
Proof.
  unfold audio_storage_name. intros Heq.
  destruct (pretty_ends_with_digit t) as (pre & k & Hpre). rewrite Hpre in Heq.
  change (name +:+ "_audio.wav") with (name +:+ ("_audi" +:+ (String "o" "" +:+ ".wav")))
    in Heq.
  rewrite <- !append_assoc in Heq. apply append_inj_r in Heq.
  apply snoc_inj in Heq. by destruct (digit_is_not_a_letter k).
Qed.

Lemma extract_audio_upload_keys dirname w body s u :
  u ∈ upload_keys (news s (extract_audio dirname w body s)) →
  ∃ name, audio_key w body s = Some name ∧ u = JStr name.
Proof.
  intros Hu. unfold upload_keys in Hu.
  apply list_elem_of_fmap in Hu as (up & -> & Hup).
  destruct (audio_rejects body) eqn:Hvalid.
  { rewrite extract_audio_refused in Hup by done.
    erewrite news_run in Hup by (simpl; reflexivity). by apply elem_of_nil in Hup. }
  destruct (audio_key w body s) as [name|] eqn:Hkey.
  - rewrite (extract_audio_accepted _ _ _ _ name) in Hup by done.
    destruct (attempt_calls w (extracting_line (field body "inputUrl"))
                (field body "inputUrl")
                (Some (audio_command (audio_scratch dirname w s).1
                         (audio_scratch dirname w s).2))
                (JStr name) "audio/wav" AudioBody
                (audio_scratch dirname w s).1 (audio_scratch dirname w s).2
                (ticked (audio_ticks body) s)) as (_ & _ & [Hnone|Hone]);
      change (news (ticked (audio_ticks body) s)) with (news s) in *.
    + rewrite Hnone in Hup. by apply elem_of_nil in Hup.
    + rewrite Hone in Hup. apply list_elem_of_singleton in Hup as ->. by exists name.
  - rewrite extract_audio_escapes in Hup by done.
    rewrite (news_run _ _ []) in Hup by (simpl; by rewrite app_nil_r).
    by apply elem_of_nil in Hup.
Qed.

(** X13. The storage keys of two [/extract-audio] requests coincide in
    two cases only: both requests carry a truthy [fileName] and the two
    names render to the same text, or neither does and their third
    clock readings are equal.  In particular a key built from a
    [fileName] is never a generated key.  Every upload of a request goes
    under its storage key. *)
Theorem audio_keys_coincide_iff dirname w1 body1 s1 w2 body2 s2 :
  (∀ u, u ∈ upload_keys (news s1 (extract_audio dirname w1 body1 s1)) →
        ∃ name, audio_key w1 body1 s1 = Some name ∧ u = JStr name)
  ∧ (audio_key w1 body1 s1 = audio_key w2 body2 s2 ↔
     (truthy (field body1 "fileName") = true ∧ truthy (field body2 "fileName") = true
      ∧ to_string (field body1 "fileName") = to_string (field body2 "fileName"))
     ∨ (truthy (field body1 "fileName") = false ∧ truthy (field body2 "fileName") = false
        ∧ now w1 (S (S (reads s1))) = now w2 (S (S (reads s2))))).
Proof.
  split; [apply extract_audio_upload_keys|].
  unfold audio_key, named_audio.
  destruct (truthy (field body1 "fileName")), (truthy (field body2 "fileName")).
  - destruct (to_string (field body1 "fileName")) as [n1|],
      (to_string (field body2 "fileName")) as [n2|]; simpl.
    + split.
      * intros [= Heq%append_inj_r]. left. by rewrite Heq.
      * intros [(_ & _ & [= ->])|(? & _)]; done.
    + split; [done|]. intros [(_ & _ & ?)|(? & _)]; done.
    + split; [done|]. intros [(_ & _ & ?)|(? & _)]; done.
    + split; [by left|done].
  - destruct (to_string (field body1 "fileName")) as [n1|]; simpl.
    + split.
      * intros [= Heq]. by apply named_not_generated in Heq.
      * intros [(_ & ? & _)|(? & _)]; done.
    + split; [done|]. intros [(_ & ? & _)|(? & _)]; done.
  - destruct (to_string (field body2 "fileName")) as [n2|]; simpl.
    + split.
      * intros [= Heq]. symmetry in Heq. by apply named_not_generated in Heq.
      * intros [(? & _)|(_ & ? & _)]; done.
    + split; [done|]. intros [(? & _)|(_ & ? & _)]; done.
  - split.
    + intros [= Heq%stamped_inj]. by right.
    + intros [(? & _)|(_ & _ & ->)]; done.
Qed.

Lemma audio_keys_witness :
  audio_key world_ok audio_request (start ∅ ∅)
  ≠ audio_key world_ok anonymous_audio_request (start ∅ ∅)
  ∧ audio_key world_same_ms anonymous_audio_request (start ∅ ∅)
    = audio_key world_same_ms empty_audio_name_request (start ∅ ∅).
Proof.
  split.
  - intros Heq.
    apply (audio_keys_coincide_iff sample_dir world_ok audio_request (start ∅ ∅)
             world_ok anonymous_audio_request (start ∅ ∅)) in Heq.
    destruct Heq as [(_ & Hf & _)|(Hf & _)]; vm_compute in Hf; discriminate.
  - apply (audio_keys_coincide_iff sample_dir world_same_ms anonymous_audio_request
             (start ∅ ∅) world_same_ms empty_audio_name_request (start ∅ ∅)).
    right. vm_compute. by repeat split.
Defined.

(** ** Requests that lack a field *)

(** X19. A [/clip] request without [inputUrl], [startTime], [endTime] or
    [fileName], and an [/extract-audio] request without [inputUrl], is
    answered 400 with an error message and nothing else happens: no
    fetch, no transcoder, no upload, no scratch file, no reading of the
    clock.  A 400 is sent by the validation test only, and whatever the
    [try] block of a validated request throws is answered 500 with the
    message and the diagnostics of the thrown value. *)
Theorem absent_field_is_refused dirname w body s :
  (body !! "inputUrl" = None ∨ body !! "startTime" = None
   ∨ body !! "endTime" = None ∨ body !! "fileName" = None →
   clip dirname w body s =
   (Ok tt, moved s (fs s)
      [EvRespond 400
         (ErrorBody "Missing required parameters: inputUrl, startTime, endTime, fileName"
            None)]))
  ∧ (body !! "inputUrl" = None →
     extract_audio dirname w body s =
     (Ok tt, moved s (fs s)
        [EvRespond 400 (ErrorBody "Missing required parameter: inputUrl" None)]))
  ∧ (∀ b, (400, b) ∈ responses (news s (clip dirname w body s)) →
          clip_rejects body = true)
  ∧ (∀ b, (400, b) ∈ responses (news s (extract_audio dirname w body s)) →
          audio_rejects body = true)
  ∧ (clip_rejects body = false →
     ∀ e s',
       clip_try w (field body "inputUrl") (field body "startTime") (field body "endTime")
         (field body "fileName") (clip_scratch dirname w s).1 (clip_scratch dirname w s).2
         (ticked 2 s) = (Throw e, s') →
       responses (news s (clip dirname w body s))
       = [(500, ErrorBody (message e) (stderr e))])
  ∧ (audio_rejects body = false →
     ∀ name e s',
       audio_key w body s = Some name →
       audio_try w (field body "inputUrl") name
         (audio_scratch dirname w s).1 (audio_scratch dirname w s).2
         (ticked (audio_ticks body) s) = (Throw e, s') →
       responses (news s (extract_audio dirname w body s))
       = [(500, ErrorBody (message e) (stderr e))]).
Proof.
  split_and!.
  - intros H. by apply clip_refused, clip_rejects_absent.
  - intros H. by apply extract_audio_refused, audio_rejects_absent.
  - apply clip_400_inv.
  - apply extract_audio_400_inv.
  - intros Hvalid e s' Hthrow. rewrite clip_accepted by done.
    rewrite clip_try_pipeline in Hthrow.
    exact (attempt_thrown _ _ _ _ _ _ _ _ _ (ticked 2 s) _ _ Hthrow).
  - intros Hvalid name e s' Hkey Hthrow.
    rewrite (extract_audio_accepted _ _ _ _ name) by done.
    rewrite audio_try_pipeline in Hthrow.
    exact (attempt_thrown _ _ _ _ _ _ _ _ _ (ticked (audio_ticks body) s) _ _ Hthrow).
Qed.

Lemma absent_field_witness :
  clip sample_dir world_ok (delete "fileName" clip_request) (start ∅ ∅) =
  (Ok tt, moved (start ∅ ∅) ∅
     [EvRespond 400
        (ErrorBody "Missing required parameters: inputUrl, startTime, endTime, fileName"
           None)])
  ∧ extract_audio sample_dir world_ok ∅ (start ∅ ∅) =
    (Ok tt, moved (start ∅ ∅) ∅
       [EvRespond 400 (ErrorBody "Missing required parameter: inputUrl" None)])
  ∧ clip_rejects (delete "startTime" clip_request) = true
  ∧ audio_rejects ∅ = true
  ∧ responses (news (start ∅ ∅)
                 (clip sample_dir world_ok opaque_name_clip_request (start ∅ ∅)))
    = [(500, ErrorBody "Cannot convert object to primitive value" None)]
  ∧ responses (news (start ∅ ∅)
                 (extract_audio sample_dir world_upload_fails audio_request (start ∅ ∅)))
    = [(500, ErrorBody "Bucket not found" None)].
Proof.
  split_and!.
  - apply (absent_field_is_refused sample_dir world_ok (delete "fileName" clip_request)
             (start ∅ ∅)).
    do 3 right. vm_compute. reflexivity.
  - apply (absent_field_is_refused sample_dir world_ok ∅ (start ∅ ∅)).
    vm_compute. reflexivity.
  - destruct (absent_field_is_refused sample_dir world_ok (delete "startTime" clip_request)
                (start ∅ ∅)) as (_ & _ & H & _).
    apply (H (ErrorBody "Missing required parameters: inputUrl, startTime, endTime, fileName"
                None)).
    vm_compute. constructor.
  - destruct (absent_field_is_refused sample_dir world_ok ∅ (start ∅ ∅))
      as (_ & _ & _ & H & _).
    apply (H (ErrorBody "Missing required parameter: inputUrl" None)).
    vm_compute. constructor.
  - destruct (absent_field_is_refused sample_dir world_ok opaque_name_clip_request
                (start ∅ ∅)) as (_ & _ & _ & _ & H & _).
    apply (H eq_refl cannot_convert (mkState ∅ ∅ 2 [])).
    vm_compute. reflexivity.
  - destruct (absent_field_is_refused sample_dir world_upload_fails audio_request
                (start ∅ ∅)) as (_ & _ & _ & _ & _ & H).
    apply (H eq_refl "talk_audio.wav" (Error "Bucket not found")
             (audio_try world_upload_fails (field audio_request "inputUrl")
                "talk_audio.wav"
                (audio_scratch sample_dir world_upload_fails (start ∅ ∅)).1
                (audio_scratch sample_dir world_upload_fails (start ∅ ∅)).2
                (ticked (audio_ticks audio_request) (start ∅ ∅))).2).
    + vm_compute. reflexivity.
    + vm_compute. reflexivity.
Defined.

(** * The top level of the module *)

Lemma env_var_falsy (env : gmap string string) name :
  truthy (env_var env name) = false ↔ env !! name = None ∨ env !! name = Some "".
Proof.
  unfold env_var. destruct (env !! name) as [v|]; simpl.
  - rewrite negb_false_iff. split.
    + intros Hv%String.eqb_eq. right. by rewrite Hv.
    + intros [|[= ->]]; done.
  - split; auto.
Qed.

(** X14. The module refuses to start without its two credentials: the
    top-level code ends in [process.exit(1)] exactly when [SUPABASE_URL]
    or [SUPABASE_SERVICE_ROLE_KEY] is not set or is the empty string,
    and then it has created no directory (and made no storage client,
    since the result does not depend on the constructor). *)
Theorem boot_requires_credentials createClient dirname env dirs :
  ((boot createClient dirname env dirs).1 = Exited 1 ↔
   env !! "SUPABASE_URL" = None ∨ env !! "SUPABASE_URL" = Some ""
   ∨ env !! "SUPABASE_SERVICE_ROLE_KEY" = None
   ∨ env !! "SUPABASE_SERVICE_ROLE_KEY" = Some "")
  ∧ (∀ code, (boot createClient dirname env dirs).1 = Exited code →
       code = 1
       ∧ (boot createClient dirname env dirs).2 = dirs
       ∧ ∀ createClient',
           boot createClient' dirname env dirs = boot createClient dirname env dirs).
Proof.
  assert (negb (truthy (env_var env "SUPABASE_URL"))
          || negb (truthy (env_var env "SUPABASE_SERVICE_ROLE_KEY")) = true ↔
          env !! "SUPABASE_URL" = None ∨ env !! "SUPABASE_URL" = Some ""
          ∨ env !! "SUPABASE_SERVICE_ROLE_KEY" = None
          ∨ env !! "SUPABASE_SERVICE_ROLE_KEY" = Some "") as Hgate.
  { rewrite orb_true_iff, !negb_true_iff, !env_var_falsy. tauto. }
  unfold boot.
  destruct (negb (truthy (env_var env "SUPABASE_URL"))
            || negb (truthy (env_var env "SUPABASE_SERVICE_ROLE_KEY"))) eqn:Hmissing.
  - split; [by rewrite <- Hgate|]. simpl. by intros code [= <-].
  - assert (¬ (env !! "SUPABASE_URL" = None ∨ env !! "SUPABASE_URL" = Some ""
               ∨ env !! "SUPABASE_SERVICE_ROLE_KEY" = None
               ∨ env !! "SUPABASE_SERVICE_ROLE_KEY" = Some "")) as Hnot.
    { rewrite <- Hgate. done. }
    destruct (createClient _ _); simpl; (split; [split; [done|by intros ?]|done]).
Qed.

Lemma boot_credentials_witness :
  (boot any_client sample_dir (delete "SUPABASE_URL" sample_env) ∅).1 = Exited 1
  ∧ (boot any_client sample_dir (<["SUPABASE_SERVICE_ROLE_KEY" := ""]> sample_env) ∅).2 = ∅.
Proof.
  split.
  - apply (boot_requires_credentials any_client sample_dir
             (delete "SUPABASE_URL" sample_env) ∅).
    left. vm_compute. reflexivity.
  - destruct (boot_requires_credentials any_client sample_dir
                (<["SUPABASE_SERVICE_ROLE_KEY" := ""]> sample_env) ∅) as [_ H].
    destruct (H 1) as (_ & Hdirs & _); [vm_compute; reflexivity|]. exact Hdirs.
Defined.

(** X15. When the top-level code gets to listen, the scratch directory
    [__dirname/temp] exists, every path that existed before still does
    and nothing else was created; starting again on the resulting disk
    changes nothing; and the port is [PORT] of the environment when it
    is set and not empty, and 4000 otherwise. *)
Theorem boot_ensures_scratch_directory createClient dirname env dirs port url key :
  (boot createClient dirname env dirs).1 = Listening port url key →
  let after := (boot createClient dirname env dirs).2 in
  tempDir dirname ∈ after
  ∧ dirs ⊆ after
  ∧ after ⊆ {[tempDir dirname]} ∪ dirs
  ∧ boot createClient dirname env after = (Listening port url key, after)
  ∧ port = match env !! "PORT" with
           | Some p => if String.eqb p "" then JNum "4000" else JStr p
           | None => JNum "4000"
           end.
Proof.
  unfold boot.
  destruct (negb (truthy (env_var env "SUPABASE_URL"))
            || negb (truthy (env_var env "SUPABASE_SERVICE_ROLE_KEY"))); [done|].
  destruct (createClient _ _); [done|]. simpl. intros [= <- <- <-].
  assert (tempDir dirname
          ∈ (if bool_decide (tempDir dirname ∈ dirs) then dirs
             else {[tempDir dirname]} ∪ dirs)) as Hin.
  { case_bool_decide; [done|]. apply elem_of_union_l. by apply elem_of_singleton. }
  split_and!.
  - done.
  - case_bool_decide; [done|]. apply union_subseteq_r.
  - case_bool_decide; [apply union_subseteq_r|done].
  - by rewrite (bool_decide_true _ Hin).
  - unfold env_var. destruct (env !! "PORT") as [p|]; simpl; [|done].
    by destruct (String.eqb p "").
Qed.

Lemma boot_scratch_witness :
  tempDir sample_dir ∈ (boot any_client sample_dir sample_env ∅).2.
Proof.
  destruct (boot_ensures_scratch_directory any_client sample_dir sample_env ∅
              (JStr "8080") (JStr "https://project.supabase.co") (JStr "service-role-key"))
    as (H & _); [vm_compute; reflexivity|]. exact H.
Defined.

(** * The earlier build *)

Lemma legacy_fetch_run lw url s :
  legacy_fetch lw url s =
  let s' := mkState (fs s) (storage s) (reads s) (trace s ++ [EvFetch url]) in
  match legacy_fetch_outcome lw with
  | LegacyFetchPending => (Pending, s')
  | LegacyFetchReject e => (Throw e, s')
  | LegacyFetchResponse ok statusText _ => (Ok (ok, statusText), s')
  end.
Proof.
  unfold legacy_fetch. rewrite bind_run, emit_run. by destruct (legacy_fetch_outcome lw).
Qed.

Lemma arrayBuffer_run lw s :
  arrayBuffer lw s =
  match legacy_fetch_outcome lw with
  | LegacyFetchResponse _ _ (BufferResolve bytes) => (Ok bytes, s)
  | LegacyFetchResponse _ _ (BufferReject e) => (Throw e, s)
  | _ => (Pending, s)
  end.
Proof.
  unfold arrayBuffer. by destruct (legacy_fetch_outcome lw) as [| |? ? []].
Qed.

Lemma writeFileSync_run path content s :
  writeFileSync path content s =
  (Ok tt, mkState (<[path := content]> (fs s)) (storage s) (reads s)
                  (trace s ++ [EvCreate path])).
Proof. reflexivity. Qed.

Lemma readFileSync_run path s :
  readFileSync path s =
  match fs s !! path with
  | Some content => (Ok content, s)
  | None => (Throw (Error (enoent "open" path)), s)
  end.
Proof. unfold readFileSync. rewrite bind_run, peek_run. by destruct (fs s !! path). Qed.

Lemma legacy_upload_run w bucket key source content ctype s :
  legacy_upload w bucket key source content ctype s =
  let s' := mkState (fs s) (storage s) (reads s)
                    (trace s ++ [EvUpload bucket key source (legacy_options ctype)]) in
  match upload_outcome w with
  | UploadPending => (Pending, s')
  | UploadReject e => (Throw e, s')
  | UploadError e => (Ok (Some e), s')
  | UploadOk => put_object bucket key content (mkOptions ctype true "") s'
  end.
Proof.
  unfold legacy_upload. rewrite bind_run, emit_run. by destruct (upload_outcome w).
Qed.

(** Runs the next primitives of a goal on the earlier build. *)
Ltac exec_legacy :=
  repeat (simpl; first
    [ rewrite bind_run | rewrite console_log_run | rewrite template_run
    | rewrite legacy_fetch_run | rewrite arrayBuffer_run
    | rewrite writeFileSync_run | rewrite readFileSync_run | rewrite legacy_upload_run
    | rewrite execAsync_run | rewrite statSync_run | rewrite getPublicUrl_run
    | rewrite cleanup_run | rewrite res_json_run | rewrite throw_run
    | rewrite on_error_run | rewrite try_catch_run
    | rewrite fetch_run | rewrite pipe_to_file_run | rewrite upload_run
    | rewrite put_object_run ]);
  simpl; repeat (rewrite <- app_assoc; simpl).

Lemma legacy_clip_refused dirname lw body s :
  clip_rejects body = true →
  legacy_clip dirname lw body s =
  (Ok tt, moved s (fs s)
     [EvRespond 400
        (ErrorBody "Missing required parameters: inputUrl, startTime, endTime, fileName"
           None)]).
Proof. intros H. unfold legacy_clip. fold (clip_rejects body). by rewrite H. Qed.

Lemma legacy_clip_accepted dirname lw body s :
  clip_rejects body = false →
  legacy_clip dirname lw body s =
  try_catch
    (legacy_clip_try lw (field body "inputUrl") (field body "startTime")
       (field body "endTime") (field body "fileName")
       (clip_scratch dirname (rest lw) s).1 (clip_scratch dirname (rest lw) s).2)
    (on_error (clip_scratch dirname (rest lw) s).1 (clip_scratch dirname (rest lw) s).2)
    (ticked 2 s).
Proof.
  intros H. unfold legacy_clip. fold (clip_rejects body). rewrite H.
  by do 2 (rewrite bind_run, date_now_run; cbv beta iota zeta).
Qed.

Lemma legacy_extract_audio_refused dirname lw body s :
  audio_rejects body = true →
  legacy_extract_audio dirname lw body s =
  (Ok tt, moved s (fs s)
     [EvRespond 400 (ErrorBody "Missing required parameter: inputUrl" None)]).
Proof. intros H. unfold legacy_extract_audio. fold (audio_rejects body). by rewrite H. Qed.

Lemma legacy_extract_audio_accepted dirname lw body s :
  audio_rejects body = false →
  legacy_extract_audio dirname lw body s =
  try_catch
    (legacy_audio_try lw (field body "inputUrl")
       (audio_storage_name (now (rest lw) (S (S (reads s)))))
       (audio_scratch dirname (rest lw) s).1 (audio_scratch dirname (rest lw) s).2)
    (on_error (audio_scratch dirname (rest lw) s).1 (audio_scratch dirname (rest lw) s).2)
    (ticked 3 s).
Proof.
  intros H. unfold legacy_extract_audio. fold (audio_rejects body). rewrite H.
  by do 3 (rewrite bind_run, date_now_run; cbv beta iota zeta).
Qed.

Ltac legacy_pending :=
  right; split; [done|]; erewrite news_run by (simpl; reflexivity); by observe.

Ltac legacy_answered :=
  left; split; [done|]; eexists _, _; erewrite news_run by (simpl; reflexivity);
  split_and!; [answered | auto | intros _; apply scratch_gone].

Lemma legacy_clip_try_shape lw inputUrl startTime endTime fileName tempInput tempOutput s :
  let r := try_catch
             (legacy_clip_try lw inputUrl startTime endTime fileName tempInput tempOutput)
             (on_error tempInput tempOutput) s in
  (r.1 = Ok tt ∧ ∃ status b,
     answered status b (news s r) ∧ (status = 200 ∨ status = 400 ∨ status = 500)
     ∧ (status ≠ 400 → fs r.2 !! tempInput = None ∧ fs r.2 !! tempOutput = None))
  ∨ (r.1 = Pending ∧ responses (news s r) = []).
Proof.
  unfold legacy_clip_try. exec_legacy.
  destruct (processing_line fileName startTime endTime); exec_legacy;
    [|legacy_answered].
  destruct (downloading_line inputUrl); exec_legacy; [|legacy_answered].
  destruct (legacy_fetch_outcome lw) as [|e|[] st [|e|bytes]] eqn:Hfetch; exec_legacy;
    rewrite ?Hfetch; exec_legacy; try legacy_pending; try legacy_answered.
  destruct (legacy_clip_command startTime endTime tempInput tempOutput); exec_legacy;
    [|legacy_answered].
  destruct (exec_outcome (rest lw)) as [written|written|? ? written]; exec_legacy;
    try legacy_pending; try legacy_answered.
  destruct (left_on_disk tempOutput written _ !! tempOutput) eqn:Hout; exec_legacy;
    try legacy_answered.
  rewrite Hout. exec_legacy.
  destruct (upload_outcome (rest lw)); exec_legacy; try legacy_pending;
    try legacy_answered.
  destruct (to_string fileName); exec_legacy; legacy_answered.
Qed.

Lemma legacy_audio_try_shape lw inputUrl storageFileName tempInput tempOutput s :
  let r := try_catch
             (legacy_audio_try lw inputUrl storageFileName tempInput tempOutput)
             (on_error tempInput tempOutput) s in
  (r.1 = Ok tt ∧ ∃ status b,
     answered status b (news s r) ∧ (status = 200 ∨ status = 400 ∨ status = 500)
     ∧ (status ≠ 400 → fs r.2 !! tempInput = None ∧ fs r.2 !! tempOutput = None))
  ∨ (r.1 = Pending ∧ responses (news s r) = []).
Proof.
  unfold legacy_audio_try. exec_legacy.
  destruct (extracting_line inputUrl); exec_legacy; [|legacy_answered].
  destruct (legacy_fetch_outcome lw) as [|e|[] st [|e|bytes]] eqn:Hfetch; exec_legacy;
    rewrite ?Hfetch; exec_legacy; try legacy_pending; try legacy_answered.
  destruct (exec_outcome (rest lw)) as [written|written|? ? written]; exec_legacy;
    try legacy_pending; try legacy_answered.
  destruct (left_on_disk tempOutput written _ !! tempOutput) eqn:Hout; exec_legacy;
    try legacy_answered.
  rewrite Hout. exec_legacy.
  destruct (upload_outcome (rest lw)); exec_legacy; try legacy_pending; legacy_answered.
Qed.

(** X16. The earlier build keeps the same discipline as the current
    one: on either endpoint no exception escapes, a run that returns has
    sent exactly one response, as its last action, with status 200, 400
    or 500, and unless that response is the 400 of the validation both
    scratch files are gone from disk when it is sent; a run that stays
    pending has sent none. *)
Theorem legacy_handlers_answer_once_and_clean_up dirname lw body s :
  (let r := legacy_clip dirname lw body s in
   (r.1 = Ok tt ∧ ∃ status b,
      answered status b (news s r) ∧ (status = 200 ∨ status = 400 ∨ status = 500)
      ∧ (status ≠ 400 →
         fs r.2 !! (clip_scratch dirname (rest lw) s).1 = None
         ∧ fs r.2 !! (clip_scratch dirname (rest lw) s).2 = None))
   ∨ (r.1 = Pending ∧ responses (news s r) = []))
  ∧ (let r := legacy_extract_audio dirname lw body s in
     (r.1 = Ok tt ∧ ∃ status b,
        answered status b (news s r) ∧ (status = 200 ∨ status = 400 ∨ status = 500)
        ∧ (status ≠ 400 →
           fs r.2 !! (audio_scratch dirname (rest lw) s).1 = None
           ∧ fs r.2 !! (audio_scratch dirname (rest lw) s).2 = None))
     ∨ (r.1 = Pending ∧ responses (news s r) = [])).
Proof.
  split; intros r; subst r.
  - destruct (clip_rejects body) eqn:Hvalid.
    + rewrite legacy_clip_refused by done. left. split; [done|].
      erewrite news_run by (simpl; reflexivity).
      eexists _, _. split_and!; [apply answered_single|auto|done].
    + rewrite legacy_clip_accepted by done.
      apply (legacy_clip_try_shape _ _ _ _ _ _ _ (ticked 2 s)).
  - destruct (audio_rejects body) eqn:Hvalid.
    + rewrite legacy_extract_audio_refused by done. left. split; [done|].
      erewrite news_run by (simpl; reflexivity).
      eexists _, _. split_and!; [apply answered_single|auto|done].
    + rewrite legacy_extract_audio_accepted by done.
      apply (legacy_audio_try_shape _ _ _ _ _ (ticked 3 s)).
Qed.

Lemma legacy_discipline_witness :
  fs (legacy_clip sample_dir legacy_ok clip_request (start ∅ ∅)).2
    !! "/srv/ffmpeg-worker/temp/input_1700000000000.mp4" = None.
Proof.
  destruct (legacy_handlers_answer_once_and_clean_up sample_dir legacy_ok clip_request
              (start ∅ ∅)) as [[(_ & status & b & Hans & _ & Hgone)|(Hp & _)] _].
  - apply Hgone. intros ->. apply answered_responses in Hans.
    vm_compute in Hans. discriminate.
  - vm_compute in Hp. discriminate.
Defined.

Lemma downloading_rendered inputUrl :
  renders inputUrl = true →
  ∃ url,
    to_string inputUrl = Some url
    ∧ downloading_line inputUrl = Some ("[worker] Downloading from " +:+ url +:+ "...")
    ∧ extracting_line inputUrl = Some ("[worker] Extracting audio from: " +:+ url).
Proof.
  intros [url Hurl]%renders_text. exists url.
  unfold downloading_line, extracting_line. by rewrite Hurl.
Qed.

(** X17. On either endpoint of the earlier build, when the source
    answers with a status that is not ok, a validated request whose
    values have a string form is answered 500 with the message "Failed
    to fetch video: " followed by the status text of the response; the
    body of the response is not read, nothing is written to disk, and
    neither the transcoder nor the upload is invoked.  (This build puts
    [inputUrl] into a log line before the fetch, so on [/clip] it is one
    of the values that must have a string form.) *)
Theorem legacy_fetch_failure_carries_status_text dirname lw body s statusText buffer :
  legacy_fetch_outcome lw = LegacyFetchResponse false statusText buffer →
  renders (field body "inputUrl") = true →
  (clip_rejects body = false →
   clip_renders body = true →
   let evs := news s (legacy_clip dirname lw body s) in
   responses evs = [(500, ErrorBody ("Failed to fetch video: " +:+ statusText) None)]
   ∧ fetches evs = [field body "inputUrl"]
   ∧ creations evs = [] ∧ execs evs = [] ∧ uploads evs = [])
  ∧ (audio_rejects body = false →
     let evs := news s (legacy_extract_audio dirname lw body s) in
     responses evs = [(500, ErrorBody ("Failed to fetch video: " +:+ statusText) None)]
     ∧ fetches evs = [field body "inputUrl"]
     ∧ creations evs = [] ∧ execs evs = [] ∧ uploads evs = []).
Proof.
  intros Hfetch Hurl.
  destruct (downloading_rendered _ Hurl) as (url & _ & Hdown & Hextr).
  split.
  - intros Hvalid Hr evs. subst evs.
    destruct (clip_rendered body Hr) as (name & a & b & _ & _ & _ & Hline & _).
    unfold clip_line in Hline.
    rewrite legacy_clip_accepted by done. unfold legacy_clip_try. exec_legacy.
    rewrite Hline. exec_legacy. rewrite Hdown. exec_legacy.
    rewrite Hfetch. exec_legacy. erewrite news_run by (simpl; reflexivity). by observe.
  - intros Hvalid evs. subst evs.
    rewrite legacy_extract_audio_accepted by done. unfold legacy_audio_try. exec_legacy.
    rewrite Hextr. exec_legacy.
    rewrite Hfetch. exec_legacy. erewrite news_run by (simpl; reflexivity). by observe.
Qed.

Lemma legacy_fetch_failure_witness :
  responses (news (start ∅ ∅)
               (legacy_clip sample_dir legacy_unavailable clip_request (start ∅ ∅)))
  = [(500, ErrorBody "Failed to fetch video: Service Unavailable" None)].
Proof.
  destruct (legacy_fetch_failure_carries_status_text sample_dir legacy_unavailable
              clip_request (start ∅ ∅) "Service Unavailable" (BufferResolve ""))
    as [Hclip _]; [reflexivity|reflexivity|].
  destruct Hclip as (H & _); [vm_compute; reflexivity..|]. exact H.
Defined.

(** ** The two builds side by side *)

Lemma clip_commands_differ a b tempInput tempOutput :
  legacy_clip_command_text a b tempInput tempOutput
  ≠ clip_command_text a b tempInput tempOutput.
Proof.
  unfold legacy_clip_command_text, clip_command_text. intros Heq.
  do 12 (apply (inj (String.app _)) in Heq).
  rewrite !append_cons in Heq. discriminate.
Qed.

Lemma audio_commands_differ tempInput tempOutput :
  legacy_audio_command tempInput tempOutput ≠ audio_command tempInput tempOutput.
Proof.
  unfold legacy_audio_command, audio_command. intros Heq.
  do 4 (apply (inj (String.app _)) in Heq).
  rewrite !append_cons in Heq. discriminate.
Qed.

Ltac both_runs :=
  repeat (erewrite news_run by (simpl; reflexivity)); observe_more;
  split_and!; try done.

(** Settles what is left of a comparison of the two builds: the
    commands differ by [Hdiff], the options are read off the trace. *)
Ltac builds_differ Hdiff :=
  intros _; split_and!;
  [ let Heq := fresh in
    intros Heq; apply (f_equal head) in Heq; simpl in Heq; apply (inj Some) in Heq;
    by apply Hdiff in Heq
  | rewrite ?app_nil_r, ?unlinks_silent by done; done
  | rewrite ?app_nil_r, ?unlinks_silent by done; done ].

(** X18. The current build answers like the earlier one where both get
    through the download and the transcoder: given the same clock,
    subprocess and storage outcomes, a shell that runs the transcoder
    and nothing else, a source that both read completely, a transcoder
    that writes its output and values of the request that have a string
    form, [/clip] ends in the same result, with the same responses, the
    same kinds of calls to the collaborators in the same order, the same
    scratch files touched, the same disk and the same bucket, whatever
    the upload does.  What the two builds ask of the collaborators is
    not the same, however: the command lines differ, and only the
    current build passes the [duplex] option to the upload.
    [/extract-audio] agrees in the same way when [fileName] is falsy;
    otherwise the two builds upload under different keys, the earlier
    one under a generated name and the current one under the name built
    from [fileName]. *)
Theorem builds_agree_after_transcoding dirname lw body s bytes statusText output :
  fetch_outcome (rest lw) = FetchResponse true (Some bytes) →
  stream_outcome (rest lw) = StreamFinish →
  legacy_fetch_outcome lw = LegacyFetchResponse true statusText (BufferResolve bytes) →
  exec_outcome (rest lw) = ExecOk (Some output) →
  quiet (rest lw) →
  renders (field body "inputUrl") = true →
  (clip_renders body = true →
   let old := legacy_clip dirname lw body s in
   let new := clip dirname (rest lw) body s in
   old.1 = new.1
   ∧ responses (news s old) = responses (news s new)
   ∧ calls (news s old) = calls (news s new)
   ∧ touched (news s old) = touched (news s new)
   ∧ fs old.2 = fs new.2
   ∧ storage old.2 = storage new.2
   ∧ (clip_rejects body = false →
      execs (news s old) ≠ execs (news s new)
      ∧ (λ u, duplex u.2) <$> uploads (news s old) = [""]
      ∧ (λ u, duplex u.2) <$> uploads (news s new) = ["half"]))
  ∧ (truthy (field body "fileName") = false →
     let old := legacy_extract_audio dirname lw body s in
     let new := extract_audio dirname (rest lw) body s in
     old.1 = new.1
     ∧ responses (news s old) = responses (news s new)
     ∧ calls (news s old) = calls (news s new)
     ∧ touched (news s old) = touched (news s new)
     ∧ fs old.2 = fs new.2
     ∧ storage old.2 = storage new.2
     ∧ (audio_rejects body = false →
        execs (news s old) ≠ execs (news s new)
        ∧ (λ u, duplex u.2) <$> uploads (news s old) = [""]
        ∧ (λ u, duplex u.2) <$> uploads (news s new) = ["half"]))
  ∧ (truthy (field body "fileName") = true →
     audio_rejects body = false →
     ∀ text,
       to_string (field body "fileName") = Some text →
       ∃ generated named,
         upload_keys (news s (legacy_extract_audio dirname lw body s)) = [JStr generated]
         ∧ upload_keys (news s (extract_audio dirname (rest lw) body s)) = [JStr named]
         ∧ generated = audio_storage_name (now (rest lw) (S (S (reads s))))
         ∧ named = text +:+ "_audio.wav"
         ∧ generated ≠ named).
Proof.
  intros H1 H2 H3 H4 Hq Hurl.
  destruct (downloading_rendered _ Hurl) as (url & _ & Hdown & Hextr).
  split_and!.
  - intros Hr old new. subst old new.
    destruct (clip_rendered body Hr) as (name & a & b & Hname & Ha & Hb & Hline & Hcmd).
    destruct (clip_rejects body) eqn:Hvalid.
    { rewrite legacy_clip_refused, clip_refused by done. by split_and!. }
    rewrite legacy_clip_accepted, clip_accepted by done.
    unfold clip_command_of. rewrite Hline, Hcmd. unfold clip_line in Hline.
    unfold attempt, pipeline, legacy_clip_try, legacy_clip_command, touched.
    exec_legacy. rewrite Hline. exec_legacy. rewrite Hdown. exec_legacy.
    rewrite H1, H3. exec_legacy. rewrite H2, H3. exec_legacy.
    rewrite Ha, Hb. exec_legacy. rewrite H4. exec_legacy.
    rewrite !Hq, !shelled_nil, !shell_events_nil. exec_legacy.
    rewrite !lookup_insert_eq. exec_legacy.
    destruct (upload_outcome (rest lw)) eqn:Hup; exec_legacy;
      repeat (progress (rewrite ?Hup, ?lookup_insert_eq, ?Hname; exec_legacy));
      both_runs; builds_differ clip_commands_differ.
  - intros Hfalsy old new. subst old new. destruct (audio_rejects body) eqn:Hvalid.
    { rewrite legacy_extract_audio_refused, extract_audio_refused by done.
      by split_and!. }
    rewrite legacy_extract_audio_accepted by done.
    rewrite (extract_audio_accepted _ _ _ _
               (audio_storage_name (now (rest lw) (S (S (reads s))))))
      by (done || (unfold audio_key; by rewrite Hfalsy)).
    unfold audio_ticks. rewrite Hfalsy, Hextr.
    unfold attempt, pipeline, legacy_audio_try, touched. exec_legacy.
    rewrite Hextr. exec_legacy.
    rewrite H1, H3. exec_legacy. rewrite H2, H3. exec_legacy. rewrite H4. exec_legacy.
    rewrite !Hq, !shelled_nil, !shell_events_nil. exec_legacy.
    rewrite !lookup_insert_eq. exec_legacy.
    destruct (upload_outcome (rest lw)) eqn:Hup; exec_legacy;
      repeat (progress (rewrite ?Hup, ?lookup_insert_eq; exec_legacy));
      both_runs; builds_differ audio_commands_differ.
  - intros Htruthy Hvalid text Htext. eexists _, _.
    rewrite legacy_extract_audio_accepted by done.
    rewrite (extract_audio_accepted _ _ _ _ (text +:+ "_audio.wav"))
      by (done || (unfold audio_key, named_audio; by rewrite Htruthy, Htext)).
    unfold audio_ticks. rewrite Htruthy, Hextr.
    unfold attempt, pipeline, legacy_audio_try, upload_keys. exec_legacy.
    rewrite Hextr. exec_legacy.
    rewrite H1, H3. exec_legacy. rewrite H2, H3. exec_legacy. rewrite H4. exec_legacy.
    rewrite !Hq, !shelled_nil, !shell_events_nil. exec_legacy.
    rewrite !lookup_insert_eq. exec_legacy.
    split_and!; [| |reflexivity|reflexivity|].
    + destruct (upload_outcome (rest lw)) eqn:Hup; exec_legacy;
        repeat (progress (rewrite ?Hup, ?lookup_insert_eq; exec_legacy));
        erewrite news_run by (simpl; reflexivity); by observe.
    + destruct (upload_outcome (rest lw)) eqn:Hup; exec_legacy;
        repeat (progress (rewrite ?Hup, ?lookup_insert_eq; exec_legacy));
        erewrite news_run by (simpl; reflexivity); by observe.
    + intros Heq. symmetry in Heq. by apply named_not_generated in Heq.
Qed.

Lemma builds_agree_witness :
  responses (news (start ∅ ∅) (legacy_clip sample_dir legacy_ok clip_request (start ∅ ∅)))
  = responses (news (start ∅ ∅) (clip sample_dir world_ok clip_request (start ∅ ∅)))
  ∧ storage (legacy_extract_audio sample_dir legacy_ok anonymous_audio_request
               (start ∅ ∅)).2
    = storage (extract_audio sample_dir world_ok anonymous_audio_request (start ∅ ∅)).2
  ∧ execs (news (start ∅ ∅) (legacy_clip sample_dir legacy_ok clip_request (start ∅ ∅)))
    ≠ execs (news (start ∅ ∅) (clip sample_dir world_ok clip_request (start ∅ ∅))).
Proof.
  destruct (builds_agree_after_transcoding sample_dir legacy_ok clip_request (start ∅ ∅)
              "source bytes" "OK" "transcoded bytes") as (Hclip & _);
    [reflexivity|reflexivity|reflexivity|reflexivity|intros command; reflexivity
    |reflexivity|].
  destruct (builds_agree_after_transcoding sample_dir legacy_ok anonymous_audio_request
              (start ∅ ∅) "source bytes" "OK" "transcoded bytes") as (_ & Haudio & _);
    [reflexivity|reflexivity|reflexivity|reflexivity|intros command; reflexivity
    |reflexivity|].
  destruct Hclip as (_ & Hres & _ & _ & _ & _ & Hdiff); [vm_compute; reflexivity|].
  split_and!.
  - exact Hres.
  - destruct Haudio as (_ & _ & _ & _ & _ & H & _); [vm_compute; reflexivity|]. exact H.
  - destruct Hdiff as (H & _); [vm_compute; reflexivity|]. exact H.
Defined.
